(** * Transparent recall of LTFS Data Management: a shallow embedding

    The development follows [src/server/TransRecall.cc] (the event receiver
    [TransRecall::run], the job writer [TransRecall::addJob], the recall
    executor [TransRecall::recall], [TransRecall::processFiles],
    [TransRecall::execRequest], the shutdown pass
    [TransRecall::cleanupEvents]) and the part of [DataBase] that the same
    file set carries ([DataBase::fits], [DataBase::createTables]), with
    [DataBase::open], the destructor, [DataBase::beginTransaction],
    [DataBase::endTransaction] and the functions of [sqlite3_statement].

    Conventions.
    - C++ integers are [Z]; where the code computes on [unsigned long] the
      wrap-around modulo [2^64] is written out.
    - An exception is a value of [exn]; a call that can throw returns a
      [result].
    - Side effects that leave the process (messages, responses to the
      connector, condition signals, tape and file I/O) are appended to an
      effect log, newest entry first.
    - The functions are embedded as they run with no other thread in
      between.  The process is embedded twice: in [Receiver], a turn of
      the receiver loop, a call of [addJob] and a call of [execRequest]
      each run from start to end, in any order of such steps; in
      [Threads], the statements of the threads come in any order, and
      [Scheduler::mtx] is embedded.  The [TRACE] calls are left out; the
      transaction mutex of the store is embedded with
      [DataBase::beginTransaction].
    - What is outside this file set ([FsObj], the inventory, the statement
      texts of [SQLStatements.cc]) is modelled from the specification and
      marked as such. *)

From Stdlib Require Import ZArith Lia Bool.
From Stdlib Require Import Sorting.Sorted Sorting.Permutation.
From stdpp Require Import base list strings gmap.

Open Scope Z_scope.

(** ** Outcomes of calls that can throw *)

Inductive error_code : Type :=
| ATTR_FORMAT
| GENERAL_ERROR
| FS_CHECK_ERROR
| FS_ADD_ERROR.

(** [LTFSDMException] carries an error code and an errno; every other
    [std::exception] is [StdException]. *)
Inductive exn : Type :=
| LTFSDMException (err : error_code) (errno : Z)
| StdException.

Inductive result (A : Type) : Type :=
| Ok (a : A)
| Raise (e : exn).

Arguments Ok {A} a.
Arguments Raise {A} e.

Definition is_ok {A} (r : result A) : bool :=
  match r with Ok _ => true | Raise _ => false end.

(** ** DataBase *)

Module DataBase.

Inductive operation : Type := TRARECALL | SELRECALL | MIGRATION.

Inductive req_state : Type := REQ_NEW | REQ_INPROGRESS | REQ_COMPLETED.

Definition operation_eqb (a b : operation) : bool :=
  match a, b with
  | TRARECALL, TRARECALL | SELRECALL, SELRECALL | MIGRATION, MIGRATION => true
  | _, _ => false
  end.

(** *** The user-defined SQL function FITS

    [sqlite3_value_int64] yields a signed 64-bit value; the code converts
    it to [unsigned long], and to [unsigned long *] for the last three
    arguments.  Memory is word addressed: one [unsigned long] per
    address. *)

Definition u64 (z : Z) : Z := z mod 2 ^ 64.

Definition memory : Type := Z -> Z.

Definition load (m : memory) (p : Z) : Z := u64 (m p).

Definition store (m : memory) (p v : Z) : memory :=
  fun q => if Z.eqb q p then u64 v else m q.

(** [fits m argv] is [None] when [assert(argc == 5)] fails, otherwise the
    memory after the call and the value given to [sqlite3_result_int].  The
    two lines the first branch writes to [std::cout] are left out. *)
Definition fits (m : memory) (argv : list Z) : option (memory * Z) :=
  match argv with
  | [_inode; a1; a2; a3; a4] =>
      let size := u64 a1 in
      let free := u64 a2 in
      let num_found := u64 a3 in
      let total := u64 a4 in
      if Z.leb size (load m free) then
        let m1 := store m free (load m free - size) in
        let m2 := store m1 total (load m1 total + 1) in
        let m3 := store m2 num_found (load m2 num_found + 1) in
        Some (m3, 1)
      else
        let m1 := store m total (load m total + 1) in
        Some (m1, 0)
  | _ => None
  end.

End DataBase.

(** ** Connector: recall events *)

Module Connector.

(** [fuid_t]: the four integer components of a file uid. *)
Record fuid_t : Type := {
  fsid_h : Z;
  fsid_l : Z;
  igen : Z;
  inum : Z
}.

(** [rec_info_t].  [conn_info] is the connector's event context, kept as
    the integer the code stores in the queue; [0] is [NULL]. *)
Record rec_info_t : Type := {
  conn_info : Z;
  toresident : bool;
  fuid : fuid_t;
  filename : string
}.

Definition fuid_eqb (a b : fuid_t) : bool :=
  (fsid_h a =? fsid_h b) && (fsid_l a =? fsid_l b)
  && (igen a =? igen b) && (inum a =? inum b).

End Connector.

Import Connector.

(** ** FsObj: the file object of the connector

    [FsObj] is declared outside this file set.  A file is described by
    what its methods answer: [stat], [getMigState] and [getAttribute] may
    throw; [write offset len] answers the number of bytes written. *)

Module FsObj.

Inductive file_state : Type :=
| RESIDENT
| PREMIGRATED
| MIGRATED
| RECALLING_MIG
| RECALLING_PREMIG.

Definition file_state_eqb (a b : file_state) : bool :=
  match a, b with
  | RESIDENT, RESIDENT | PREMIGRATED, PREMIGRATED | MIGRATED, MIGRATED
  | RECALLING_MIG, RECALLING_MIG | RECALLING_PREMIG, RECALLING_PREMIG => true
  | _, _ => false
  end.

(** The fields of [struct stat] the code reads; [st_isreg] is
    [S_ISREG(st_mode)]. *)
Record stat_t : Type := {
  st_isreg : bool;
  st_size : Z;
  st_mtime : Z
}.

(** [mig_attr_t]: the tape ids listed in the migration attribute. *)
Record mig_attr_t : Type := {
  tapeId : list string
}.

(** [attr.tapeId[0]] *)
Definition first_tape (a : mig_attr_t) : string := nth 0%nat (tapeId a) ""%string.

Record t : Type := {
  fo_stat : result stat_t;
  fo_migState : result file_state;
  fo_attr : result mig_attr_t;
  fo_write : Z -> Z -> Z
}.

Definition stat (f : t) : result stat_t := fo_stat f.
Definition getMigState (f : t) : result file_state := fo_migState f.
Definition getAttribute (f : t) : result mig_attr_t := fo_attr f.
Definition write (f : t) (offset len : Z) : Z := fo_write f offset len.

(** Modelled from the spec: [FsObj::finishRecall] is not part of this file
    set; it "finalises the file to target_state". *)
Definition finishRecall (st : file_state) (f : t) : t :=
  {| fo_stat := fo_stat f; fo_migState := Ok st;
     fo_attr := fo_attr f; fo_write := fo_write f |}.

(** Modelled from the spec: [FsObj::remAttribute] is not part of this file
    set; it "removes the migration extended attributes". *)
Definition remAttribute (f : t) : t :=
  {| fo_stat := fo_stat f; fo_migState := fo_migState f;
     fo_attr := Ok {| tapeId := [] |}; fo_write := fo_write f |}.

End FsObj.

Import FsObj.

(** ** Messages and effects *)

Inductive msg_id : Type :=
| LTFSDMS0021E | LTFSDMS0023E | LTFSDMS0031I | LTFSDMS0032E | LTFSDMS0033E
| LTFSDMS0034I | LTFSDMS0036W | LTFSDMS0037W | LTFSDMS0038W | LTFSDMS0039I
| LTFSDMS0073E | LTFSDMS0083I | LTFSDMS0084I | LTFSDMS0097W | LTFSDMS0098W.

Definition is_size_warning (m : msg_id) : bool :=
  match m with LTFSDMS0097W | LTFSDMS0098W => true | _ => false end.

(** What the process does to the world around it.  [Poll t b] records
    that [Server::forcedTerminate] was read at the instant [t] and found to
    be [b]; the instant is the number of effects the process has logged so
    far. *)
Inductive effect : Type :=
| Msg (id : msg_id)
| Respond (recinfo : rec_info_t) (succeeded : bool)
| Notify
| Lock (f : fuid_t)
| Unlock (f : fuid_t)
| TapeOpen (tapeName : string) (opened : bool)
| TapeRead (tapeName : string) (rsize : Z)
| TapeClose (tapeName : string)
| PrepareRecall (f : fuid_t)
| FileWrite (f : fuid_t) (offset : Z) (data : list Byte.byte) (wsize : Z)
| FinishRecall (f : fuid_t) (st : file_state)
| RemAttribute (f : fuid_t)
| Poll (instant : nat) (seen : bool).

(** ** Tape objects and the rest of the environment *)

(** What one [read(fd, buffer, sizeof(buffer))] answers: the bytes placed in
    the buffer ([rsize] is their number, [0] at end of file) or [-1]. *)
Inductive read_result : Type :=
| RData (bytes : list Byte.byte)
| RError.

(** A tape object: the size [fstat] reports ([None] when [fstat] fails) and
    what the successive reads answer; after the last listed answer every
    read answers [0]. *)
Record tape_obj : Type := {
  t_fstat : option Z;
  t_reads : list read_result
}.

(** The collaborators the code calls and the constants it takes from
    [Const].  [tape name] is [None] when [open] answers [-1].
    [forcedTerminate t] is the value of [Server::forcedTerminate] at the
    instant [t], the instants of the process being counted by the effects
    it has logged; [now] is what [time(NULL)] answers. *)
Record env : Type := {
  getTapeName : fuid_t -> string -> result string;
  getStartBlock : string -> Z;
  tape : string -> option tape_obj;
  forcedTerminate : nat -> bool;
  now : Z;
  UNSET : Z
}.

(** The indeterminate contents of locals the code declares without an
    initialiser: [statbuf], [state] and [attr] of [addJob], [statbuf] of
    [recall], and [recinfo.toresident] of [processFiles] and
    [cleanupEvents]. *)
Record garbage : Type := {
  g_statbuf : stat_t;
  g_state : file_state;
  g_attr : mig_attr_t;
  g_toresident : bool
}.

(** ** The two queues *)

(** A row of JOB_QUEUE, with the columns [ADD_JOB] binds. *)
Record job : Type := {
  j_operation : DataBase.operation;
  j_file_name : option string;
  j_req_num : Z;
  j_target_state : file_state;
  j_repl_num : Z;
  j_file_size : Z;
  j_fsid_h : Z;
  j_fsid_l : Z;
  j_i_gen : Z;
  j_i_num : Z;
  j_mtime_sec : Z;
  j_mtime_nsec : Z;
  j_last_upd : Z;
  j_file_state : file_state;
  j_tape_id : string;
  j_start_block : Z;
  j_conn_info : Z
}.

(** A row of REQUEST_QUEUE, with the columns [ADD_REQUEST] binds; the
    other columns stay NULL. *)
Record request : Type := {
  r_operation : DataBase.operation;
  r_req_num : Z;
  r_tape_id : string;
  r_time_added : Z;
  r_state : DataBase.req_state
}.

(** ** The statements of the transparent recall

    The statement texts live in [server/SQLStatements.cc], which is not
    part of this file set.  Each is modelled by what it does to the tables,
    with the values in the order the code binds them.  The tables keep
    their rows in insertion order. *)

Module SQL.

Import DataBase.

Definition opt_string_eqb (a b : option string) : bool :=
  match a, b with
  | Some x, Some y => String.eqb x y
  | _, _ => false
  end.

(** The two UNIQUE constraints [DataBase::createTables] puts on
    JOB_QUEUE: (file name, replica number) and (file uid, replica
    number).  A NULL file name never conflicts.  [createTables] has one
    FS_ID column where [addJob] binds [fsid_h] and [fsid_l]; the uid is
    taken with both. *)
Definition job_conflict (a b : job) : bool :=
  (opt_string_eqb (j_file_name a) (j_file_name b)
     && (j_repl_num a =? j_repl_num b))
  || ((j_fsid_h a =? j_fsid_h b) && (j_fsid_l a =? j_fsid_l b)
        && (j_i_gen a =? j_i_gen b) && (j_i_num a =? j_i_num b)
        && (j_repl_num a =? j_repl_num b)).

(** Modelled from the spec: ADD_JOB, "insert the job row"; a row that
    breaks a UNIQUE constraint is refused with a store error. *)
Definition ADD_JOB (jobs : list job) (row : job) : result (list job) :=
  if existsb (job_conflict row) jobs then Raise StdException
  else Ok (jobs ++ [row]).

(** Modelled from the spec: CHECK_REQUEST_EXISTS, "query whether a request
    row for req_num exists"; the rows the cursor steps over. *)
Definition CHECK_REQUEST_EXISTS (reqs : list request) (reqNum : Z) : list request :=
  List.filter (fun r => r_req_num r =? reqNum) reqs.

Definition request_matches (reqNum : Z) (tapeId : string) (r : request) : bool :=
  (r_req_num r =? reqNum) && String.eqb (r_tape_id r) tapeId.

(** Modelled from the spec: CHANGE_REQUEST_TO_NEW, "update its state to
    REQ_NEW", bound with the state, the request number and the tape id. *)
Definition CHANGE_REQUEST_TO_NEW (reqs : list request) (st : req_state)
    (reqNum : Z) (tapeId : string) : list request :=
  List.map (fun r =>
    if request_matches reqNum tapeId r then
      {| r_operation := r_operation r; r_req_num := r_req_num r;
         r_tape_id := r_tape_id r; r_time_added := r_time_added r;
         r_state := st |}
    else r) reqs.

(** Modelled from the spec: ADD_REQUEST, "insert a new request row". *)
Definition ADD_REQUEST (reqs : list request) (op : operation) (reqNum : Z)
    (tapeId : string) (added : Z) (st : req_state) : list request :=
  reqs ++ [{| r_operation := op; r_req_num := reqNum; r_tape_id := tapeId;
              r_time_added := added; r_state := st |}].

(** Modelled from the spec: DELETE_REQUEST, "delete the request row". *)
Definition DELETE_REQUEST (reqs : list request) (reqNum : Z) (tapeId : string)
    : list request :=
  List.filter (fun r => negb (request_matches reqNum tapeId r)) reqs.

(** Modelled from the spec: REMAINING_JOBS, "select all jobs of kind
    transparent recall still present". *)
Definition REMAINING_JOBS (jobs : list job) (op : operation) : list job :=
  List.filter (fun j => operation_eqb (j_operation j) op) jobs.

Definition set_file_state (st : file_state) (j : job) : job :=
  {| j_operation := j_operation j; j_file_name := j_file_name j;
     j_req_num := j_req_num j; j_target_state := j_target_state j;
     j_repl_num := j_repl_num j; j_file_size := j_file_size j;
     j_fsid_h := j_fsid_h j; j_fsid_l := j_fsid_l j; j_i_gen := j_i_gen j;
     j_i_num := j_i_num j; j_mtime_sec := j_mtime_sec j;
     j_mtime_nsec := j_mtime_nsec j; j_last_upd := j_last_upd j;
     j_file_state := st; j_tape_id := j_tape_id j;
     j_start_block := j_start_block j; j_conn_info := j_conn_info j |}.

(** Modelled from the spec: SET_RECALLING, "bulk-update every job with
    this (req_num, tape_id) whose file_state" is the old one to the new
    one; bound with the new state, the request number, the old state and
    the tape id. *)
Definition SET_RECALLING (jobs : list job) (new : file_state) (reqNum : Z)
    (old : file_state) (tapeId : string) : list job :=
  List.map (fun j =>
    if (j_req_num j =? reqNum) && file_state_eqb (j_file_state j) old
       && String.eqb (j_tape_id j) tapeId
    then set_file_state new j else j) jobs.

Definition recalling_job (reqNum : Z) (s1 s2 : file_state) (tapeId : string)
    (j : job) : bool :=
  (j_req_num j =? reqNum)
  && (file_state_eqb (j_file_state j) s1 || file_state_eqb (j_file_state j) s2)
  && String.eqb (j_tape_id j) tapeId.

(** ORDER BY START_BLOCK: a stable insertion sort. *)
Fixpoint insert_by_start_block (j : job) (l : list job) : list job :=
  match l with
  | [] => [j]
  | k :: l' =>
      if j_start_block j <=? j_start_block k then j :: k :: l'
      else k :: insert_by_start_block j l'
  end.

Definition order_by_start_block (l : list job) : list job :=
  fold_right insert_by_start_block [] l.

(** Modelled from the spec: SELECT_JOBS, "select claimed jobs ordered by
    start_block ascending (ties broken by insertion order)"; bound with
    the request number, the two recalling states and the tape id. *)
Definition SELECT_JOBS (jobs : list job) (reqNum : Z) (s1 s2 : file_state)
    (tapeId : string) : list job :=
  order_by_start_block (List.filter (recalling_job reqNum s1 s2 tapeId) jobs).

(** Modelled from the spec: DELETE_JOBS, "bulk-delete all RECALLING_* jobs
    for this (req_num, tape_id)". *)
Definition DELETE_JOBS (jobs : list job) (reqNum : Z) (s1 s2 : file_state)
    (tapeId : string) : list job :=
  List.filter (fun j => negb (recalling_job reqNum s1 s2 tapeId j)) jobs.

(** Modelled from the spec: COUNT_REMAINING_JOBS, "count remaining jobs
    for the request"; bound with the request number and the tape id. *)
Definition COUNT_REMAINING_JOBS (jobs : list job) (reqNum : Z) (tapeId : string)
    : Z :=
  Z.of_nat (length (List.filter
    (fun j => (j_req_num j =? reqNum) && String.eqb (j_tape_id j) tapeId) jobs)).

End SQL.

(** ** Inventory

    Modelled from the spec: [LTFSDMInventory], [LTFSDMCartridge] and
    [LTFSDMDrive] are not part of this file set; the executor "marks the
    cartridge as mounted (idle) and the owning drive as free". *)

Module Inventory.

Inductive cartridge_state : Type :=
| TAPE_MOUNTED
| TAPE_OTHER (code : Z).

Record cartridge : Type := {
  c_id : string;
  c_slot : Z;
  c_state : cartridge_state
}.

Record drive : Type := {
  d_id : string;
  d_slot : Z;
  d_busy : bool
}.

Record t : Type := {
  cartridges : list cartridge;
  drives : list drive
}.

(** Modelled from the spec: [LTFSDMInventory::getCartridge] is not part of
    this file set; [None] stands for the null pointer. *)
Definition getCartridge (inv : t) (tapeId : string) : option cartridge :=
  List.find (fun c => String.eqb (c_id c) tapeId) (cartridges inv).

(** Modelled from the spec: [LTFSDMCartridge::setState] is not part of this
    file set; [getCartridge(tapeId)->setState(st)] "marks the cartridge". *)
Fixpoint setState (cs : list cartridge) (tapeId : string) (st : cartridge_state)
    : list cartridge :=
  match cs with
  | [] => []
  | c :: cs' =>
      if String.eqb (c_id c) tapeId
      then {| c_id := c_id c; c_slot := c_slot c; c_state := st |} :: cs'
      else c :: setState cs' tapeId st
  end.

(** The loop over the drives: the first drive in the slot of the
    cartridge is set free; the answer is [found]. *)
Fixpoint free_drive (ds : list drive) (slot : Z) : list drive * bool :=
  match ds with
  | [] => ([], false)
  | d :: ds' =>
      if d_slot d =? slot
      then ({| d_id := d_id d; d_slot := d_slot d; d_busy := false |} :: ds', true)
      else let '(ds'', found) := free_drive ds' slot in (d :: ds'', found)
  end.

End Inventory.

(** ** The state of the process *)

(** A task queued for the job writer pool: the arguments of [addJob]. *)
Record task : Type := {
  tk_recinfo : rec_info_t;
  tk_tapeId : string;
  tk_reqNum : Z
}.

(** [w_fs]: the managed files, by uid ([Raise] when the [FsObj] constructor
    throws).  [w_log]: the effects so far, newest first.  [w_recinfo],
    [w_reqmap], [w_globalReqNumber]: the receiver's [recinfo], [reqmap] and
    the request counter.  [w_queue]: the tasks handed to the pool and not
    yet run.  [w_dropped] is a ghost field: the connection handles of the
    events a job writer left without a response and without a job row. *)
Record world : Type := {
  w_fs : fuid_t -> result FsObj.t;
  w_jobs : list job;
  w_requests : list request;
  w_log : list effect;
  w_inventory : Inventory.t;
  w_recinfo : rec_info_t;
  w_reqmap : gmap string Z;
  w_globalReqNumber : Z;
  w_queue : list task;
  w_dropped : list Z
}.

Definition emit (x : effect) (w : world) : world :=
  {| w_fs := w_fs w; w_jobs := w_jobs w; w_requests := w_requests w;
     w_log := x :: w_log w;
     w_inventory := w_inventory w; w_recinfo := w_recinfo w;
     w_reqmap := w_reqmap w; w_globalReqNumber := w_globalReqNumber w;
     w_queue := w_queue w; w_dropped := w_dropped w |}.

Definition set_fs (fs : fuid_t -> result FsObj.t) (w : world) : world :=
  {| w_fs := fs; w_jobs := w_jobs w; w_requests := w_requests w;
     w_log := w_log w;
     w_inventory := w_inventory w; w_recinfo := w_recinfo w;
     w_reqmap := w_reqmap w; w_globalReqNumber := w_globalReqNumber w;
     w_queue := w_queue w; w_dropped := w_dropped w |}.

Definition set_jobs (jobs : list job) (w : world) : world :=
  {| w_fs := w_fs w; w_jobs := jobs; w_requests := w_requests w;
     w_log := w_log w;
     w_inventory := w_inventory w; w_recinfo := w_recinfo w;
     w_reqmap := w_reqmap w; w_globalReqNumber := w_globalReqNumber w;
     w_queue := w_queue w; w_dropped := w_dropped w |}.

Definition set_requests (reqs : list request) (w : world) : world :=
  {| w_fs := w_fs w; w_jobs := w_jobs w; w_requests := reqs;
     w_log := w_log w;
     w_inventory := w_inventory w; w_recinfo := w_recinfo w;
     w_reqmap := w_reqmap w; w_globalReqNumber := w_globalReqNumber w;
     w_queue := w_queue w; w_dropped := w_dropped w |}.

Definition set_inventory (inv : Inventory.t) (w : world) : world :=
  {| w_fs := w_fs w; w_jobs := w_jobs w; w_requests := w_requests w;
     w_log := w_log w;
     w_inventory := inv; w_recinfo := w_recinfo w;
     w_reqmap := w_reqmap w; w_globalReqNumber := w_globalReqNumber w;
     w_queue := w_queue w; w_dropped := w_dropped w |}.

Definition set_recinfo (ri : rec_info_t) (w : world) : world :=
  {| w_fs := w_fs w; w_jobs := w_jobs w; w_requests := w_requests w;
     w_log := w_log w;
     w_inventory := w_inventory w; w_recinfo := ri;
     w_reqmap := w_reqmap w; w_globalReqNumber := w_globalReqNumber w;
     w_queue := w_queue w; w_dropped := w_dropped w |}.

Definition set_reqmap (m : gmap string Z) (n : Z) (w : world) : world :=
  {| w_fs := w_fs w; w_jobs := w_jobs w; w_requests := w_requests w;
     w_log := w_log w;
     w_inventory := w_inventory w; w_recinfo := w_recinfo w;
     w_reqmap := m; w_globalReqNumber := n;
     w_queue := w_queue w; w_dropped := w_dropped w |}.

Definition set_queue (q : list task) (w : world) : world :=
  {| w_fs := w_fs w; w_jobs := w_jobs w; w_requests := w_requests w;
     w_log := w_log w;
     w_inventory := w_inventory w; w_recinfo := w_recinfo w;
     w_reqmap := w_reqmap w; w_globalReqNumber := w_globalReqNumber w;
     w_queue := q; w_dropped := w_dropped w |}.

Definition drop (c : Z) (w : world) : world :=
  {| w_fs := w_fs w; w_jobs := w_jobs w; w_requests := w_requests w;
     w_log := w_log w;
     w_inventory := w_inventory w; w_recinfo := w_recinfo w;
     w_reqmap := w_reqmap w; w_globalReqNumber := w_globalReqNumber w;
     w_queue := w_queue w; w_dropped := c :: w_dropped w |}.

(** One poll of [Server::forcedTerminate]. *)
Definition poll (e : env) (w : world) : bool * world :=
  let t := length (w_log w) in
  (forcedTerminate e t, emit (Poll t (forcedTerminate e t)) w).

(** A method that changes the file object [f] changes the file it stands
    for. *)
Definition update_file (fu : fuid_t) (f : FsObj.t) (w : world) : world :=
  set_fs (fun k => if fuid_eqb k fu then Ok f else w_fs w k) w.

(** [Connector::respondRecallEvent] *)
Definition respondRecallEvent (recinfo : rec_info_t) (succeeded : bool)
    (w : world) : world :=
  emit (Respond recinfo succeeded) w.

(** ** TransRecall *)

Module TransRecall.

Import DataBase SQL.

Definition general_error : exn := LTFSDMException GENERAL_ERROR 0.

(** *** addJob *)

(** How control leaves the [try] block of [addJob]: by one of its two
    [return]s, or into the code after the block (the block ran to its
    end, or the handler ran), with the locals as they then are. *)
Inductive try_exit : Type :=
| Returned (w : world)
| Continue (w : world) (statbuf : stat_t) (state : file_state)
           (attr : mig_attr_t) (tapeName : string).

(** The handler of [addJob]: two messages, no [return]. *)
Definition addJob_catch (sqlname : string) (w : world) : world :=
  if negb (String.eqb sqlname "NULL") then emit (Msg LTFSDMS0073E) w
  else emit (Msg LTFSDMS0032E) w.

Definition addJob_try (e : env) (g : garbage) (w : world) (recinfo : rec_info_t)
    (tapeId : string) (sqlname : string) : try_exit :=
  match w_fs w (fuid recinfo) with
  | Raise _ =>
      Continue (addJob_catch sqlname w) (g_statbuf g) (g_state g) (g_attr g) ""
  | Ok fso =>
      match FsObj.stat fso with
      | Raise _ =>
          Continue (addJob_catch sqlname w) (g_statbuf g) (g_state g) (g_attr g) ""
      | Ok statbuf =>
          if negb (st_isreg statbuf) then
            Returned (drop (conn_info recinfo) (emit (Msg LTFSDMS0032E) w))
          else
            match FsObj.getMigState fso with
            | Raise _ =>
                Continue (addJob_catch sqlname w) statbuf (g_state g) (g_attr g) ""
            | Ok state =>
                if file_state_eqb state RESIDENT then
                  Returned (respondRecallEvent recinfo true
                              (emit (Msg LTFSDMS0031I) w))
                else
                  match FsObj.getAttribute fso with
                  | Raise _ =>
                      Continue (addJob_catch sqlname w) statbuf state (g_attr g) ""
                  | Ok attr =>
                      match getTapeName e (fuid recinfo) tapeId with
                      | Raise _ =>
                          Continue (addJob_catch sqlname w) statbuf state attr ""
                      | Ok tapeName => Continue w statbuf state attr tapeName
                      end
                  end
            end
      end
  end.

(** The text [addJob] puts into the statement for the file name. *)
Definition sql_name (recinfo : rec_info_t) : string :=
  if String.eqb (filename recinfo) "" then "NULL"%string
  else ("'" ++ filename recinfo ++ "'")%string.

(** The values [addJob] binds to ADD_JOB, in the order of the columns.
    The statement is put together as text, the name between two quote
    characters and the numbers in decimal: the row is what the store then
    holds for a name without a quote character and for numbers within its
    64-bit signed INTEGER.  What the store holds for other events is not
    modelled. *)
Definition job_row (e : env) (recinfo : rec_info_t) (tapeId : string) (reqNum : Z)
    (statbuf : stat_t) (state : file_state) (tapeName : string) : job :=
  {| j_operation := TRARECALL;
     j_file_name :=
       if String.eqb (sql_name recinfo) "NULL" then None
       else Some (filename recinfo);
     j_req_num := reqNum;
     j_target_state := if toresident recinfo then RESIDENT else PREMIGRATED;
     j_repl_num := UNSET e;
     j_file_size := st_size statbuf;
     j_fsid_h := fsid_h (fuid recinfo);
     j_fsid_l := fsid_l (fuid recinfo);
     j_i_gen := igen (fuid recinfo);
     j_i_num := inum (fuid recinfo);
     j_mtime_sec := st_mtime statbuf;
     j_mtime_nsec := 0;
     j_last_upd := now e;
     j_file_state := state;
     j_tape_id := tapeId;
     j_start_block := getStartBlock e tapeName;
     j_conn_info := conn_info recinfo |}.

(** The part of [addJob] under [Scheduler::mtx]: the request row is set
    to REQ_NEW when a row with the request number exists, and added
    otherwise; the condition is signalled in both branches. *)
Definition upsert_request (e : env) (w : world) (tapeId : string) (reqNum : Z)
    (attr : mig_attr_t) : world :=
  let reqExists :=
    match CHECK_REQUEST_EXISTS (w_requests w) reqNum with
    | [] => false
    | _ :: _ => true
    end in
  if reqExists then
    emit Notify
      (set_requests
         (CHANGE_REQUEST_TO_NEW (w_requests w) REQ_NEW reqNum tapeId) w)
  else
    emit Notify
      (set_requests
         (ADD_REQUEST (w_requests w) TRARECALL reqNum
            (first_tape attr) (now e) REQ_NEW) w).

(** [addJob(recinfo, tapeId, reqNum)].  When the store refuses the job
    row the exception leaves [addJob]. *)
Definition addJob (e : env) (g : garbage) (w : world) (recinfo : rec_info_t)
    (tapeId : string) (reqNum : Z) : world :=
  match addJob_try e g w recinfo tapeId (sql_name recinfo) with
  | Returned w1 => w1
  | Continue w1 statbuf state attr tapeName =>
      match ADD_JOB (w_jobs w1)
              (job_row e recinfo tapeId reqNum statbuf state tapeName) with
      | Raise _ => drop (conn_info recinfo) w1
      | Ok jobs' => upsert_request e (set_jobs jobs' w1) tapeId reqNum attr
      end
  end.

(** *** cleanupEvents *)

(** The row a cursor step stores into [recinfo]; [toresident] is not a
    column and keeps its value.  A NULL file name reads as the empty
    string. *)
Definition recinfo_of_row (j : job) (tores : bool) : rec_info_t :=
  {| conn_info := j_conn_info j;
     toresident := tores;
     fuid := {| fsid_h := j_fsid_h j; fsid_l := j_fsid_l j;
                igen := j_i_gen j; inum := j_i_num j |};
     filename := match j_file_name j with Some s => s | None => ""%string end |}.

Definition cleanupEvents (g : garbage) (w : world) : world :=
  fold_left
    (fun w j => respondRecallEvent (recinfo_of_row j (g_toresident g)) false w)
    (REMAINING_JOBS (w_jobs w) TRARECALL) w.

(** *** recall *)

(** The copy loop of [recall], [while (offset < statbuf.st_size)], over
    the answers the open tape object still has to give.  [Ok tt]: the
    loop was left at its condition or by [break]; [Raise]: by a
    [THROW]. *)
Fixpoint copy_loop (e : env) (w : world) (fu : fuid_t) (target : FsObj.t)
    (tapeName : string) (size : Z) (reads : list read_result) (offset : Z)
    : world * result unit :=
  if offset <? size then
    let '(forced, w1) := poll e w in
    if forced then (w1, Raise general_error)
    else
      match reads with
      | [] => (emit (TapeRead tapeName 0) w1, Ok tt)
      | RError :: _ =>
          (emit (Msg LTFSDMS0023E) (emit (TapeRead tapeName (-1)) w1),
           Raise general_error)
      | RData bytes :: reads' =>
          let rsize := Z.of_nat (length bytes) in
          let w2 := emit (TapeRead tapeName rsize) w1 in
          if rsize =? 0 then (w2, Ok tt)
          else
            let wsize := FsObj.write target offset rsize in
            let w3 := emit (FileWrite fu offset bytes wsize) w2 in
            if negb (wsize =? rsize) then
              (emit (TapeClose tapeName) (emit (Msg LTFSDMS0033E) w3),
               Raise general_error)
            else copy_loop e w3 fu target tapeName size reads' (offset + rsize)
      end
  else (w, Ok tt).

(** [target.finishRecall(toState)] and, for [RESIDENT],
    [target.remAttribute()]. *)
Definition finish (w : world) (fu : fuid_t) (target : FsObj.t)
    (toState : file_state) : world :=
  let t1 := FsObj.finishRecall toState target in
  let w1 := emit (FinishRecall fu toState) (update_file fu t1 w) in
  if file_state_eqb toState RESIDENT then
    emit (RemAttribute fu) (update_file fu (FsObj.remAttribute t1) w1)
  else w1.

(** [fstat(fd, &statbuf_tape) == 0 && statbuf_tape.st_size != statbuf.st_size]:
    the size of the tape object when the test holds. *)
Definition size_mismatch (tp : tape_obj) (statbuf : stat_t) : option Z :=
  match t_fstat tp with
  | Some tsize => if negb (tsize =? st_size statbuf) then Some tsize else None
  | None => None
  end.

(** The [try] block of [recall] after the file is locked.  The third
    component is the tape object behind [fd] when [fd != -1]. *)
Definition recall_try (e : env) (g : garbage) (w : world) (recinfo : rec_info_t)
    (tapeId : string) (state toState : file_state) (target : FsObj.t)
    : world * result Z * option string :=
  let fu := fuid recinfo in
  match FsObj.getMigState target with
  | Raise x => (w, Raise x, None)
  | Ok curstate =>
      let '(w, state) :=
        if negb (file_state_eqb curstate state)
        then (emit (Msg LTFSDMS0034I) w, curstate) else (w, state) in
      if file_state_eqb state RESIDENT then (w, Ok 0, None)
      else if file_state_eqb state MIGRATED then
        match getTapeName e fu tapeId with
        | Raise x => (w, Raise x, None)
        | Ok tapeName =>
            match tape e tapeName with
            | None =>
                (emit (Msg LTFSDMS0021E) (emit (TapeOpen tapeName false) w),
                 Raise general_error, None)
            | Some tp =>
                let w := emit (TapeOpen tapeName true) w in
                match FsObj.stat target with
                | Raise x => (w, Raise x, Some tapeName)
                | Ok statbuf =>
                    let '(w, size, toState) :=
                      match size_mismatch tp statbuf with
                      | Some tsize =>
                          (emit (Msg (if negb (String.eqb (filename recinfo) "")
                                      then LTFSDMS0097W else LTFSDMS0098W)) w,
                           tsize, RESIDENT)
                      | None => (w, st_size statbuf, toState)
                      end in
                    let w := emit (PrepareRecall fu) w in
                    match copy_loop e w fu target tapeName size (t_reads tp) 0 with
                    | (w, Raise x) => (w, Raise x, Some tapeName)
                    | (w, Ok _) =>
                        let w := emit (TapeClose tapeName) w in
                        (finish w fu target toState, Ok size, Some tapeName)
                    end
                end
            end
        end
      else (finish w fu target toState, Ok (st_size (g_statbuf g)), None)
  end.

(** [recall(recinfo, tapeId, state, toState)].  The lock on the file is
    given back when the [try] block is left; the handler closes [fd] when
    it is not [-1] and throws a general error. *)
Definition recall (e : env) (g : garbage) (w : world) (recinfo : rec_info_t)
    (tapeId : string) (state toState : file_state) : world * result Z :=
  let fu := fuid recinfo in
  match w_fs w fu with
  | Raise _ => (w, Raise general_error)
  | Ok target =>
      let w0 := emit (Lock fu) w in
      let '(w1, r, fd) := recall_try e g w0 recinfo tapeId state toState target in
      let w2 := emit (Unlock fu) w1 in
      match r with
      | Ok n => (w2, Ok n)
      | Raise _ =>
          (match fd with
           | Some tapeName => emit (TapeClose tapeName) w2
           | None => w2
           end, Raise general_error)
      end
  end.

(** *** processFiles *)

(** [state] and [recinfo.toresident] as the loop body of [processFiles]
    sets them from a selected row. *)
Definition row_state (j : job) : file_state :=
  if file_state_eqb (j_file_state j) RECALLING_MIG then MIGRATED else PREMIGRATED.

Definition row_toresident (j : job) (tores : bool) : bool :=
  if file_state_eqb (j_target_state j) RESIDENT then true else tores.

(** The loop over the selected rows.  [recinfo] and [resplist] are the
    locals of [processFiles]; [resplist] is kept in the order of
    [push_back]. *)
Fixpoint process_rows (e : env) (g : garbage) (tapeId : string)
    (rows : list job) (w : world) (tores : bool)
    (resplist : list (rec_info_t * bool)) : world * list (rec_info_t * bool) :=
  match rows with
  | [] => (w, resplist)
  | j :: rows' =>
      let tores := row_toresident j tores in
      let recinfo := recinfo_of_row j tores in
      let '(w1, r) := recall e g w recinfo tapeId (row_state j) (j_target_state j) in
      let succeeded := is_ok r in
      process_rows e g tapeId rows' w1 tores (resplist ++ [(recinfo, succeeded)])
  end.

Definition respond_all (resplist : list (rec_info_t * bool)) (w : world) : world :=
  fold_left (fun w r => respondRecallEvent (fst r) (snd r) w) resplist w.

Definition processFiles (e : env) (g : garbage) (w : world) (reqNum : Z)
    (tapeId : string) : world :=
  let w1 :=
    set_jobs (SET_RECALLING (w_jobs w) RECALLING_MIG reqNum MIGRATED tapeId) w in
  let w2 :=
    set_jobs (SET_RECALLING (w_jobs w1) RECALLING_PREMIG reqNum PREMIGRATED tapeId)
      w1 in
  let rows :=
    SELECT_JOBS (w_jobs w2) reqNum RECALLING_MIG RECALLING_PREMIG tapeId in
  let '(w3, resplist) := process_rows e g tapeId rows w2 (g_toresident g) [] in
  let w4 :=
    set_jobs (DELETE_JOBS (w_jobs w3) reqNum RECALLING_MIG RECALLING_PREMIG tapeId)
      w3 in
  respond_all resplist w4.

(** *** execRequest *)

(** The block under the inventory lock; [None] when the cartridge is not
    in the inventory or [assert(found == true)] fails. *)
Definition release_tape (inv : Inventory.t) (tapeId : string) : option Inventory.t :=
  match Inventory.getCartridge inv tapeId with
  | None => None
  | Some c =>
      let cs := Inventory.setState (Inventory.cartridges inv) tapeId
                  Inventory.TAPE_MOUNTED in
      let '(ds, found) := Inventory.free_drive (Inventory.drives inv)
                            (Inventory.c_slot c) in
      if found then Some {| Inventory.cartridges := cs; Inventory.drives := ds |}
      else None
  end.

(** [int remaining]: the count as a 32-bit two's complement value. *)
Definition to_int (z : Z) : Z := (z + 2 ^ 31) mod 2 ^ 32 - 2 ^ 31.

(** [execRequest(reqNum, tapeId)]; [None] when the process stops in the
    inventory block. *)
Definition execRequest (e : env) (g : garbage) (w : world) (reqNum : Z)
    (tapeId : string) : option world :=
  let w1 := processFiles e g w reqNum tapeId in
  match release_tape (w_inventory w1) tapeId with
  | None => None
  | Some inv =>
      let w2 := set_inventory inv w1 in
      let remaining := to_int (COUNT_REMAINING_JOBS (w_jobs w2) reqNum tapeId) in
      let w3 :=
        if negb (remaining =? 0) then
          set_requests
            (CHANGE_REQUEST_TO_NEW (w_requests w2) REQ_NEW reqNum tapeId) w2
        else
          set_requests (DELETE_REQUEST (w_requests w2) reqNum tapeId) w2 in
      Some (emit Notify w3)
  end.

End TransRecall.

(** ** The event receiver and the process as a whole *)

Module Receiver.

Import DataBase SQL.

(** Of [TransRecall::run] the loop and what follows it are embedded; its
    start ([initTransRecalls] and the registration of the managed file
    systems) is left out. *)

(** The two handlers of the loop body of [TransRecall::run]. *)
Definition run_catch (x : exn) (recinfo : rec_info_t) (w : world) : world :=
  match x with
  | LTFSDMException err _ =>
      respondRecallEvent recinfo false
        (emit (Msg (match err with
                    | ATTR_FORMAT => LTFSDMS0037W
                    | _ => LTFSDMS0038W
                    end)) w)
  | StdException => respondRecallEvent recinfo false w
  end.

(** [wqr.enqueue(Const::UNSET, TransRecall(), recinfo, tapeId, reqNum)] *)
Definition enqueue (recinfo : rec_info_t) (tapeId : string) (reqNum : Z)
    (w : world) : world :=
  set_queue (w_queue w ++ [{| tk_recinfo := recinfo; tk_tapeId := tapeId;
                              tk_reqNum := reqNum |}]) w.

(** One turn of [while (Connector::connectorTerminate == false)] in
    [TransRecall::run].  [ev] is what [connector->getEvents()] answers;
    when it throws, [recinfo] keeps its value.  [terminate] is the value
    of [Server::terminate] the turn reads. *)
Definition run_iteration (w : world) (ev : result rec_info_t) (terminate : bool)
    : world :=
  let w :=
    match ev with
    | Ok r => set_recinfo r w
    | Raise _ => emit (Msg LTFSDMS0036W) w
    end in
  let recinfo := w_recinfo w in
  if conn_info recinfo =? 0 then w
  else if terminate then respondRecallEvent recinfo false w
  else if inum (fuid recinfo) =? 0 then w
  else
    match w_fs w (fuid recinfo) with
    | Raise x => run_catch x recinfo w
    | Ok fso =>
        match FsObj.getMigState fso with
        | Raise x => run_catch x recinfo w
        | Ok st =>
            if file_state_eqb st RESIDENT then
              let w1 := update_file (fuid recinfo)
                          (FsObj.finishRecall RESIDENT fso) w in
              let w2 := emit (FinishRecall (fuid recinfo) RESIDENT) w1 in
              respondRecallEvent recinfo true (emit (Msg LTFSDMS0039I) w2)
            else
              match FsObj.getAttribute fso with
              | Raise x => run_catch x recinfo w
              | Ok attr =>
                  let tapeId := first_tape attr in
                  let w1 :=
                    match w_reqmap w !! tapeId with
                    | Some _ => w
                    | None =>
                        let n := w_globalReqNumber w + 1 in
                        set_reqmap (<[tapeId := n]> (w_reqmap w)) n w
                    end in
                  let reqNum := default 0 (w_reqmap w1 !! tapeId) in
                  enqueue recinfo tapeId reqNum w1
              end
        end
    end.

(** What happens in the process, one thread at a time: a turn of the
    receiver loop, a pool thread running the queued task number [i], the
    scheduler running [execRequest], and the world outside changing the
    files. *)
Inductive action : Type :=
| Receive (ev : result rec_info_t) (terminate : bool)
| Worker (i : nat) (g : garbage)
| Execute (g : garbage) (reqNum : Z) (tapeId : string)
| External (fs : fuid_t -> result FsObj.t).

Definition step (e : env) (a : action) (w : world) : option world :=
  match a with
  | Receive ev terminate => Some (run_iteration w ev terminate)
  | Worker i g =>
      match w_queue w !! i with
      | None => Some w
      | Some tk =>
          Some (TransRecall.addJob e g (set_queue (delete i (w_queue w)) w)
                  (tk_recinfo tk) (tk_tapeId tk) (tk_reqNum tk))
      end
  | Execute g reqNum tapeId => TransRecall.execRequest e g w reqNum tapeId
  | External fs => Some (set_fs fs w)
  end.

(** A schedule gives every step the environment it runs in. *)
Fixpoint run_schedule (sched : list (env * action)) (w : world) : option world :=
  match sched with
  | [] => Some w
  | (e, a) :: sched' =>
      match step e a w with
      | None => None
      | Some w' => run_schedule sched' w'
      end
  end.

(** [wqr.waitCompletion]: the pool takes the queued tasks, oldest first,
    and runs them. *)
Definition waitCompletion (e : env) (g : garbage) (w : world) : world :=
  fold_left
    (fun w tk =>
       TransRecall.addJob e g w (tk_recinfo tk) (tk_tapeId tk) (tk_reqNum tk))
    (w_queue w) (set_queue [] w).

(** The end of [TransRecall::run], after the loop; the call of
    [connector->endTransRecalls()] is left out. *)
Definition run_shutdown (e : env) (g : garbage) (w : world) : world :=
  let w1 := emit (Msg LTFSDMS0083I) w in
  let w2 := waitCompletion e g w1 in
  let w3 := TransRecall.cleanupEvents g w2 in
  emit (Msg LTFSDMS0084I) w3.

(** The process from its start: nothing queued, nothing logged. *)
Definition start (fs : fuid_t -> result FsObj.t) (inv : Inventory.t)
    (recinfo : rec_info_t) : world :=
  {| w_fs := fs; w_jobs := []; w_requests := []; w_log := [];
     w_inventory := inv; w_recinfo := recinfo; w_reqmap := ∅;
     w_globalReqNumber := 0; w_queue := []; w_dropped := [] |}.

(** The number of responses delivered for the connection handle [c]. *)
Definition responses (c : Z) (log : list effect) : nat :=
  length (List.filter
            (fun x => match x with
                      | Respond ri _ => conn_info ri =? c
                      | _ => false
                      end) log).

Definition dropped (c : Z) (w : world) : nat :=
  length (List.filter (fun x => x =? c) (w_dropped w)).

End Receiver.

Import DataBase SQL TransRecall Receiver.

(** ** The store: opening, tables, transactions

    SQLite is outside this file set.  What a call of the library answers
    is up to the library: [answer e h c] is the result code of the call
    [c] made after the calls [h].  The calls the code makes are logged,
    newest first.  [DB_FILE] is [Const::DB_FILE] and
    [LTFSDM_GENERAL_ERROR] is [Error::LTFSDM_GENERAL_ERROR], both defined
    outside this file set. *)

Module Sqlite.

(** Result codes and open flags of [sqlite3.h]. *)
Definition SQLITE_OK : Z := 0.
Definition SQLITE_DONE : Z := 101.
Definition SQLITE_OPEN_READWRITE : Z := 2.
Definition SQLITE_OPEN_CREATE : Z := 4.
Definition SQLITE_OPEN_EXCLUSIVE : Z := 16.
Definition SQLITE_OPEN_FULLMUTEX : Z := 65536.
Definition SQLITE_OPEN_SHAREDCACHE : Z := 131072.

Inductive call : Type :=
| sqlite3_config
| sqlite3_initialize
| sqlite3_open_v2 (uri : string) (flags : Z)
| sqlite3_extended_result_codes
| sqlite3_create_function (name : string) (nArg : Z)
| sqlite3_close
| sqlite3_shutdown
| sqlite3_exec (sql : string)
| sqlite3_prepare_v2 (sql : string)
| sqlite3_step (stmt : nat)
| sqlite3_finalize (stmt : nat).

Record lib : Type := {
  answer : list call -> call -> Z;
  DB_FILE : string;
  LTFSDM_GENERAL_ERROR : Z
}.

(** The [DataBase] object [DB] with the static [trans_mutex] ([true]: the
    mutex is held) and the calls made so far. *)
Record db : Type := {
  dbNeedsClosed : bool;
  trans_mutex : bool;
  calls : list call
}.

(** How a function of the store is left: by its end or by a [throw] of an
    integer. *)
Inductive outcome : Type :=
| Normal
| Thrown (v : Z).

Definition invoke (e : lib) (c : call) (s : db) : Z * db :=
  (answer e (calls s) c,
   {| dbNeedsClosed := dbNeedsClosed s; trans_mutex := trans_mutex s;
      calls := c :: calls s |}).

Definition set_dbNeedsClosed (b : bool) (s : db) : db :=
  {| dbNeedsClosed := b; trans_mutex := trans_mutex s; calls := calls s |}.

Definition set_trans_mutex (b : bool) (s : db) : db :=
  {| dbNeedsClosed := dbNeedsClosed s; trans_mutex := b; calls := calls s |}.

End Sqlite.

Module sqlite3_statement.

Import Sqlite.

Definition is_prepare (c : call) : bool :=
  match c with sqlite3_prepare_v2 _ => true | _ => false end.

(** The statement handle [sqlite3_prepare_v2] stores into [*stmt]: the
    number of statements prepared before. *)
Definition next_handle (s : db) : nat :=
  length (List.filter is_prepare (calls s)).

Definition prepare (e : lib) (sql : string) (s : db) : db * outcome * nat :=
  let stmt := next_handle s in
  let '(rc, s) := invoke e (sqlite3_prepare_v2 sql) s in
  if negb (rc =? SQLITE_OK) then (s, Thrown rc, stmt) else (s, Normal, stmt).

Definition step (e : lib) (stmt : nat) (s : db) : Z * db :=
  invoke e (sqlite3_step stmt) s.

Definition checkRcAndFinalize (e : lib) (stmt : nat) (rc expected : Z) (s : db)
    : db * outcome :=
  if negb (rc =? expected) then (s, Thrown rc)
  else
    let '(rc, s) := invoke e (sqlite3_finalize stmt) s in
    if negb (rc =? SQLITE_OK) then (s, Thrown rc) else (s, Normal).

End sqlite3_statement.

Module DB.

Import Sqlite.

(** [DataBase::~DataBase] *)
Definition DataBase_destructor (e : lib) (s : db) : db :=
  let s := if dbNeedsClosed s then snd (invoke e sqlite3_close s) else s in
  snd (invoke e sqlite3_shutdown s).

Definition open_flags : Z :=
  Z.lor SQLITE_OPEN_READWRITE
    (Z.lor SQLITE_OPEN_CREATE
       (Z.lor SQLITE_OPEN_FULLMUTEX
          (Z.lor SQLITE_OPEN_SHAREDCACHE SQLITE_OPEN_EXCLUSIVE))).

Definition open_uri (e : lib) (dbUseMemory : bool) : string :=
  if dbUseMemory then "file::memory:"%string
  else ("file:" ++ DB_FILE e)%string.

(** [DataBase::open(dbUseMemory)] *)
Definition open (e : lib) (dbUseMemory : bool) (s : db) : db * outcome :=
  let uri := open_uri e dbUseMemory in
  let '(rc, s) := invoke e sqlite3_config s in
  if negb (rc =? SQLITE_OK) then (s, Thrown (LTFSDM_GENERAL_ERROR e))
  else
    let '(rc, s) := invoke e sqlite3_initialize s in
    if negb (rc =? SQLITE_OK) then (s, Thrown (LTFSDM_GENERAL_ERROR e))
    else
      let '(rc, s) := invoke e (sqlite3_open_v2 uri open_flags) s in
      if negb (rc =? SQLITE_OK) then (s, Thrown (LTFSDM_GENERAL_ERROR e))
      else
        let '(rc, s) := invoke e sqlite3_extended_result_codes s in
        if negb (rc =? SQLITE_OK) then (s, Thrown (LTFSDM_GENERAL_ERROR e))
        else
          let s := set_dbNeedsClosed true s in
          let '(_, s) := invoke e (sqlite3_create_function "FITS" 5) s in
          (s, Normal).

(** The two statements of [DataBase::createTables]. *)
Definition CREATE_JOB_QUEUE : string :=
  ("CREATE TABLE JOB_QUEUE("
   ++ "OPERATION INT NOT NULL, "
   ++ "FILE_NAME CHAR(4096), "
   ++ "REQ_NUM INT NOT NULL, "
   ++ "TARGET_STATE INT NOT NULL, "
   ++ "REPL_NUM INT, "
   ++ "TAPE_POOL VARCHAR, "
   ++ "FILE_SIZE BIGINT NOT NULL, "
   ++ "FS_ID BIGINT NOT NULL, "
   ++ "I_GEN INT NOT NULL, "
   ++ "I_NUM BIGINT NOT NULL, "
   ++ "MTIME_SEC BIGINT NOT NULL, "
   ++ "MTIME_NSEC BIGINT NOT NULL, "
   ++ "LAST_UPD INT NOT NULL, "
   ++ "TAPE_ID CHAR(9), "
   ++ "FILE_STATE INT NOT NULL, "
   ++ "START_BLOCK INT, "
   ++ "CONN_INFO BIGINT, "
   ++ "CONSTRAINT JOB_QUEUE_UNIQUE_FILE_NAME UNIQUE (FILE_NAME, REPL_NUM), "
   ++ "CONSTRAINT JOB_QUEUE_UNIQUE_UID UNIQUE (FS_ID, I_GEN, I_NUM, REPL_NUM));")%string.

Definition CREATE_REQUEST_QUEUE : string :=
  ("CREATE TABLE REQUEST_QUEUE("
   ++ "OPERATION INT NOT NULL, "
   ++ "REQ_NUM INT NOT NULL, "
   ++ "TARGET_STATE INT, "
   ++ "NUM_REPL, "
   ++ "REPL_NUM INT, "
   ++ "TAPE_POOL VARCHAR, "
   ++ "TAPE_ID CHAR(9), "
   ++ "TIME_ADDED INT NOT NULL, "
   ++ "STATE INT NOT NULL, "
   ++ "CONSTRAINT REQUEST_QUEUE_UNIQUE UNIQUE(REQ_NUM, REPL_NUM, TAPE_POOL, TAPE_ID));")%string.

(** [prepare], [step], [checkRcAndFinalize(stmt, rc, SQLITE_DONE)]: the
    three calls [createTables] makes for each of its statements. *)
Definition run_statement (e : lib) (sql : string) (s : db) : db * outcome :=
  let '(s, r, stmt) := sqlite3_statement.prepare e sql s in
  match r with
  | Thrown v => (s, Thrown v)
  | Normal =>
      let '(rc, s) := sqlite3_statement.step e stmt s in
      sqlite3_statement.checkRcAndFinalize e stmt rc SQLITE_DONE s
  end.

(** [DataBase::createTables] *)
Definition createTables (e : lib) (s : db) : db * outcome :=
  match run_statement e CREATE_JOB_QUEUE s with
  | (s, Thrown v) => (s, Thrown v)
  | (s, Normal) => run_statement e CREATE_REQUEST_QUEUE s
  end.

(** [DataBase::beginTransaction]; [None] when [trans_mutex] is held and
    the caller waits. *)
Definition beginTransaction (e : lib) (s : db) : option (db * outcome) :=
  if trans_mutex s then None
  else
    let s := set_trans_mutex true s in
    let '(rc, s) := invoke e (sqlite3_exec "BEGIN TRANSACTION;") s in
    if negb (rc =? SQLITE_OK) then Some (set_trans_mutex false s, Thrown rc)
    else Some (s, Normal).

(** [DataBase::endTransaction] *)
Definition endTransaction (e : lib) (s : db) : db * outcome :=
  let '(rc, s) := invoke e (sqlite3_exec "END TRANSACTION;") s in
  let s := set_trans_mutex false s in
  if negb (rc =? SQLITE_OK) then (s, Thrown rc) else (s, Normal).

End DB.

(** ** The threads of the process

    [addJob] and [execRequest] do not run in one piece.  A job writer
    leaves its [try] block, executes ADD_JOB and only then takes
    [Scheduler::mtx]; an executor holds no lock while [processFiles] runs
    and takes [Scheduler::mtx] after it.  Here every statement on the
    store, every turn of a loop and every block under a lock is a step of
    its own, and the steps of the threads come in any order: the receiver
    ([TransRecall::run]), the threads of the pool inside [addJob], the
    threads the scheduler starts for [execRequest], and the world
    outside.  One call of [recall] is one step: it holds the lock of its
    file and touches neither the tables nor the queue.  A turn of the
    loop of [run] is one step: it works on the locals of [run], reads the
    file of the event, and answers or queues the event.  [cleanupEvents]
    is one step.  A cursor gives the rows its statement selected when it
    was prepared. *)

Module Threads.

Import DataBase SQL TransRecall Receiver.

(** A thread of the pool inside [addJob], after the [try] block: the
    arguments, the locals, and whether ADD_JOB is done. *)
Record writer : Type := {
  jw_recinfo : rec_info_t;
  jw_tapeId : string;
  jw_reqNum : Z;
  jw_statbuf : stat_t;
  jw_state : file_state;
  jw_attr : mig_attr_t;
  jw_tapeName : string;
  jw_inserted : bool
}.

Definition inserted (jw : writer) : writer :=
  {| jw_recinfo := jw_recinfo jw; jw_tapeId := jw_tapeId jw;
     jw_reqNum := jw_reqNum jw; jw_statbuf := jw_statbuf jw;
     jw_state := jw_state jw; jw_attr := jw_attr jw;
     jw_tapeName := jw_tapeName jw; jw_inserted := true |}.

(** The statement a thread inside [execRequest] executes next: the two
    SET_RECALLING, SELECT_JOBS, a turn of the loop over the cursor,
    DELETE_JOBS and a turn of the loop over [resplist] are
    [processFiles]; the block from the lock of [Scheduler::mtx] to the end
    of the inventory block, COUNT_REMAINING_JOBS, and the update of the
    request row with the signal are the rest of [execRequest]. *)
Inductive exec_pc : Type :=
| AtSetRecallingMig
| AtSetRecallingPremig
| AtSelectJobs
| InLoop
| AtDeleteJobs
| AtRespond
| AtSchedulerMtx
| AtCountRemaining
| AtUpdateRequest.

(** A thread inside [execRequest(reqNum, tapeId)]: its arguments, where
    it stands, and the locals of [processFiles] and [execRequest]:
    the rows the cursor has still to give, [recinfo.toresident],
    [resplist] and [remaining]. *)
Record executor : Type := {
  ex_garbage : garbage;
  ex_reqNum : Z;
  ex_tapeId : string;
  ex_pc : exec_pc;
  ex_cursor : list job;
  ex_toresident : bool;
  ex_resplist : list (rec_info_t * bool);
  ex_remaining : Z
}.

Definition new_executor (g : garbage) (reqNum : Z) (tapeId : string) : executor :=
  {| ex_garbage := g; ex_reqNum := reqNum; ex_tapeId := tapeId;
     ex_pc := AtSetRecallingMig; ex_cursor := [];
     ex_toresident := g_toresident g; ex_resplist := []; ex_remaining := 0 |}.

Definition at_pc (pc : exec_pc) (x : executor) : executor :=
  {| ex_garbage := ex_garbage x; ex_reqNum := ex_reqNum x;
     ex_tapeId := ex_tapeId x; ex_pc := pc; ex_cursor := ex_cursor x;
     ex_toresident := ex_toresident x; ex_resplist := ex_resplist x;
     ex_remaining := ex_remaining x |}.

Definition with_cursor (rows : list job) (x : executor) : executor :=
  {| ex_garbage := ex_garbage x; ex_reqNum := ex_reqNum x;
     ex_tapeId := ex_tapeId x; ex_pc := ex_pc x; ex_cursor := rows;
     ex_toresident := ex_toresident x; ex_resplist := ex_resplist x;
     ex_remaining := ex_remaining x |}.

Definition with_resplist (tores : bool) (resplist : list (rec_info_t * bool))
    (x : executor) : executor :=
  {| ex_garbage := ex_garbage x; ex_reqNum := ex_reqNum x;
     ex_tapeId := ex_tapeId x; ex_pc := ex_pc x; ex_cursor := ex_cursor x;
     ex_toresident := tores; ex_resplist := resplist;
     ex_remaining := ex_remaining x |}.

Definition with_remaining (n : Z) (x : executor) : executor :=
  {| ex_garbage := ex_garbage x; ex_reqNum := ex_reqNum x;
     ex_tapeId := ex_tapeId x; ex_pc := ex_pc x; ex_cursor := ex_cursor x;
     ex_toresident := ex_toresident x; ex_resplist := ex_resplist x;
     ex_remaining := n |}.

(** Where [TransRecall::run] stands: in its loop; after the loop, waiting
    for the pool ([waitCompletion]); after [cleanupEvents]; returned. *)
Inductive run_phase : Type :=
| Receiving
| Draining
| Cleaned
| Ended.

(** The process: the world of the sequential model, where [run] stands,
    the threads inside [addJob] and inside [execRequest], and whether
    [Scheduler::mtx] is held. *)
Record system : Type := {
  sys_world : world;
  sys_phase : run_phase;
  sys_writers : list writer;
  sys_executors : list executor;
  sys_mtx : bool
}.

Definition with_world (w : world) (s : system) : system :=
  {| sys_world := w; sys_phase := sys_phase s; sys_writers := sys_writers s;
     sys_executors := sys_executors s; sys_mtx := sys_mtx s |}.

Definition with_phase (p : run_phase) (s : system) : system :=
  {| sys_world := sys_world s; sys_phase := p; sys_writers := sys_writers s;
     sys_executors := sys_executors s; sys_mtx := sys_mtx s |}.

Definition with_writers (l : list writer) (s : system) : system :=
  {| sys_world := sys_world s; sys_phase := sys_phase s; sys_writers := l;
     sys_executors := sys_executors s; sys_mtx := sys_mtx s |}.

Definition with_executors (l : list executor) (mtx : bool) (s : system) : system :=
  {| sys_world := sys_world s; sys_phase := sys_phase s;
     sys_writers := sys_writers s; sys_executors := l; sys_mtx := mtx |}.

(** The next statement of a thread inside [execRequest]: the world after
    it, the thread after it ([None] when [execRequest] has returned) and
    whether [Scheduler::mtx] is held after it.  The answer is [None] when
    the thread cannot go on: it waits for [Scheduler::mtx], or the process
    stops in the inventory block. *)
Definition advance (e : env) (x : executor) (w : world) (mtx : bool)
    : option (world * option executor * bool) :=
  let reqNum := ex_reqNum x in
  let tapeId := ex_tapeId x in
  match ex_pc x with
  | AtSetRecallingMig =>
      Some (set_jobs (SET_RECALLING (w_jobs w) RECALLING_MIG reqNum MIGRATED tapeId) w,
            Some (at_pc AtSetRecallingPremig x), mtx)
  | AtSetRecallingPremig =>
      Some (set_jobs
              (SET_RECALLING (w_jobs w) RECALLING_PREMIG reqNum PREMIGRATED tapeId) w,
            Some (at_pc AtSelectJobs x), mtx)
  | AtSelectJobs =>
      Some (w,
            Some (at_pc InLoop
                    (with_cursor
                       (SELECT_JOBS (w_jobs w) reqNum RECALLING_MIG RECALLING_PREMIG
                          tapeId) x)),
            mtx)
  | InLoop =>
      match ex_cursor x with
      | [] => Some (w, Some (at_pc AtDeleteJobs x), mtx)
      | j :: rows =>
          let tores := row_toresident j (ex_toresident x) in
          let recinfo := recinfo_of_row j tores in
          let '(w1, r) :=
            recall e (ex_garbage x) w recinfo tapeId (row_state j) (j_target_state j) in
          Some (w1,
                Some (with_cursor rows
                        (with_resplist tores
                           (ex_resplist x ++ [(recinfo, is_ok r)]) x)),
                mtx)
      end
  | AtDeleteJobs =>
      Some (set_jobs
              (DELETE_JOBS (w_jobs w) reqNum RECALLING_MIG RECALLING_PREMIG tapeId) w,
            Some (at_pc AtRespond x), mtx)
  | AtRespond =>
      match ex_resplist x with
      | [] => Some (w, Some (at_pc AtSchedulerMtx x), mtx)
      | r :: resplist =>
          Some (respondRecallEvent (fst r) (snd r) w,
                Some (with_resplist (ex_toresident x) resplist x), mtx)
      end
  | AtSchedulerMtx =>
      if mtx then None
      else
        match release_tape (w_inventory w) tapeId with
        | None => None
        | Some inv =>
            Some (set_inventory inv w, Some (at_pc AtCountRemaining x), true)
        end
  | AtCountRemaining =>
      Some (w,
            Some (at_pc AtUpdateRequest
                    (with_remaining
                       (to_int (COUNT_REMAINING_JOBS (w_jobs w) reqNum tapeId)) x)),
            mtx)
  | AtUpdateRequest =>
      let w3 :=
        if negb (ex_remaining x =? 0) then
          set_requests
            (CHANGE_REQUEST_TO_NEW (w_requests w) REQ_NEW reqNum tapeId) w
        else
          set_requests (DELETE_REQUEST (w_requests w) reqNum tapeId) w in
      Some (emit Notify w3, None, false)
  end.

(** What a thread does next.  [Turn]: a turn of the loop of [run].
    [LeaveLoop]: [run] leaves its loop and logs LTFSDMS0083I.  [Take i g]:
    a thread of the pool takes the queued task number [i] and runs
    [addJob] to the end of its [try] block.  [Store k]: the thread number
    [k] inside [addJob] executes ADD_JOB, or, that done, the block under
    [Scheduler::mtx].  [Dispatch]: the scheduler starts a thread for
    [execRequest].  [Advance k]: the thread number [k] inside
    [execRequest] executes its next statement.  [Cleanup]:
    [waitCompletion] has returned, the pool being idle, and [run] calls
    [cleanupEvents].  [EndRun]: [run] logs LTFSDMS0084I and returns.
    [Outside]: the files change. *)
Inductive move : Type :=
| Turn (ev : result rec_info_t) (terminate : bool)
| LeaveLoop
| Take (i : nat) (g : garbage)
| Store (k : nat)
| Dispatch (g : garbage) (reqNum : Z) (tapeId : string)
| Advance (k : nat)
| Cleanup (g : garbage)
| EndRun
| Outside (fs : fuid_t -> result FsObj.t).

(** One step of one thread; [None] when the thread cannot make the step
    (there is no such thread or task, it waits for a lock or for the
    pool, [run] is elsewhere) or the process stops. *)
Definition thread_step (e : env) (m : move) (s : system) : option system :=
  let w := sys_world s in
  match m with
  | Turn ev terminate =>
      match sys_phase s with
      | Receiving => Some (with_world (run_iteration w ev terminate) s)
      | _ => None
      end
  | LeaveLoop =>
      match sys_phase s with
      | Receiving =>
          Some (with_phase Draining (with_world (emit (Msg LTFSDMS0083I) w) s))
      | _ => None
      end
  | Take i g =>
      match w_queue w !! i with
      | None => None
      | Some tk =>
          let w0 := set_queue (delete i (w_queue w)) w in
          match addJob_try e g w0 (tk_recinfo tk) (tk_tapeId tk)
                  (sql_name (tk_recinfo tk)) with
          | Returned w1 => Some (with_world w1 s)
          | Continue w1 statbuf state attr tapeName =>
              Some (with_writers
                      (sys_writers s
                       ++ [{| jw_recinfo := tk_recinfo tk; jw_tapeId := tk_tapeId tk;
                              jw_reqNum := tk_reqNum tk; jw_statbuf := statbuf;
                              jw_state := state; jw_attr := attr;
                              jw_tapeName := tapeName; jw_inserted := false |}])
                      (with_world w1 s))
          end
      end
  | Store k =>
      match sys_writers s !! k with
      | None => None
      | Some jw =>
          if jw_inserted jw then
            if sys_mtx s then None
            else
              Some (with_writers (delete k (sys_writers s))
                      (with_world
                         (upsert_request e w (jw_tapeId jw) (jw_reqNum jw)
                            (jw_attr jw)) s))
          else
            match ADD_JOB (w_jobs w)
                    (job_row e (jw_recinfo jw) (jw_tapeId jw) (jw_reqNum jw)
                       (jw_statbuf jw) (jw_state jw) (jw_tapeName jw)) with
            | Raise _ =>
                Some (with_writers (delete k (sys_writers s))
                        (with_world (drop (conn_info (jw_recinfo jw)) w) s))
            | Ok jobs' =>
                Some (with_writers (<[k := inserted jw]> (sys_writers s))
                        (with_world (set_jobs jobs' w) s))
            end
      end
  | Dispatch g reqNum tapeId =>
      Some (with_executors (sys_executors s ++ [new_executor g reqNum tapeId])
              (sys_mtx s) s)
  | Advance k =>
      match sys_executors s !! k with
      | None => None
      | Some x =>
          match advance e x w (sys_mtx s) with
          | None => None
          | Some (w', Some x', mtx) =>
              Some (with_executors (<[k := x']> (sys_executors s)) mtx
                      (with_world w' s))
          | Some (w', None, mtx) =>
              Some (with_executors (delete k (sys_executors s)) mtx
                      (with_world w' s))
          end
      end
  | Cleanup g =>
      match sys_phase s, w_queue w, sys_writers s with
      | Draining, [], [] =>
          Some (with_phase Cleaned (with_world (cleanupEvents g w) s))
      | _, _, _ => None
      end
  | EndRun =>
      match sys_phase s with
      | Cleaned =>
          Some (with_phase Ended (with_world (emit (Msg LTFSDMS0084I) w) s))
      | _ => None
      end
  | Outside fs => Some (with_world (set_fs fs w) s)
  end.

(** A schedule gives every step the environment it runs in. *)
Fixpoint run_threads (sched : list (env * move)) (s : system) : option system :=
  match sched with
  | [] => Some s
  | (e, m) :: sched' =>
      match thread_step e m s with
      | None => None
      | Some s' => run_threads sched' s'
      end
  end.

(** The process from its start: [run] in its loop, no other thread. *)
Definition boot (fs : fuid_t -> result FsObj.t) (inv : Inventory.t)
    (recinfo : rec_info_t) : system :=
  {| sys_world := start fs inv recinfo; sys_phase := Receiving;
     sys_writers := []; sys_executors := []; sys_mtx := false |}.

End Threads.

Import Threads.

(** * What the properties speak of *)

(** ** DataBase::fits *)

Definition mem0 : memory :=
  fun p => if p =? 8 then 100 else if p =? 16 then 7 else if p =? 24 then 9 else 0.

(** ** What a recall leaves alone *)

Definition is_respond (x : effect) : bool :=
  match x with Respond _ _ => true | _ => false end.

(** [quiet w w']: from [w] to [w'] only files and the log changed, and
    the log gained no response. *)
Definition quiet (w w' : world) : Prop :=
  w_jobs w' = w_jobs w /\ w_requests w' = w_requests w
  /\ w_inventory w' = w_inventory w /\ w_recinfo w' = w_recinfo w
  /\ w_reqmap w' = w_reqmap w /\ w_globalReqNumber w' = w_globalReqNumber w
  /\ w_queue w' = w_queue w /\ w_dropped w' = w_dropped w
  /\ List.filter is_respond (w_log w') = List.filter is_respond (w_log w).

(** ** processFiles: the rows it works on and the responses it sends *)

Definition to_effect (r : rec_info_t * bool) : effect := Respond (fst r) (snd r).

Definition answers (j : job) (r : rec_info_t * bool) : Prop :=
  exists tores, fst r = recinfo_of_row j tores.

(** [calm w w']: only the log changed. *)
Definition calm (w w' : world) : Prop :=
  w_fs w' = w_fs w /\ w_jobs w' = w_jobs w /\ w_requests w' = w_requests w
  /\ w_inventory w' = w_inventory w /\ w_recinfo w' = w_recinfo w
  /\ w_reqmap w' = w_reqmap w /\ w_globalReqNumber w' = w_globalReqNumber w
  /\ w_queue w' = w_queue w /\ w_dropped w' = w_dropped w.

(** The jobs table once [processFiles] has claimed the jobs of a
    request. *)
Definition claimed (jobs : list job) (reqNum : Z) (tapeId : string) : list job :=
  SET_RECALLING (SET_RECALLING jobs RECALLING_MIG reqNum MIGRATED tapeId)
    RECALLING_PREMIG reqNum PREMIGRATED tapeId.

(** ** The order of the recalls *)

Definition start_block_le (a b : job) : Prop := j_start_block a <= j_start_block b.

(** The file a job row is for. *)
Definition fuid_of (j : job) : fuid_t :=
  {| fsid_h := j_fsid_h j; fsid_l := j_fsid_l j;
     igen := j_i_gen j; inum := j_i_num j |}.

(** [concerns e tapeId fu x]: the effect [x] is on the file [fu] or on
    the tape object of that file on the tape [tapeId], or it is a message
    or a poll of the forced-terminate flag; it is neither a response nor a
    signal. *)
Definition concerns (e : env) (tapeId : string) (fu : fuid_t) (x : effect) : Prop :=
  match x with
  | Lock f | Unlock f | PrepareRecall f | FileWrite f _ _ _
  | FinishRecall f _ | RemAttribute f => f = fu
  | TapeOpen tn _ | TapeRead tn _ | TapeClose tn =>
      getTapeName e fu tapeId = Ok tn
  | Msg _ | Poll _ _ => True
  | Respond _ _ | Notify => False
  end.

(** [recall_segment e tapeId fs j seg]: [seg], oldest entry first, is what
    the recall of the file of the job row [j] logs.  Every entry concerns
    that file.  When the file object can be made, the segment begins with
    the lock on the file and gives the lock back; when it cannot, nothing
    is logged. *)
Definition recall_segment (e : env) (tapeId : string)
    (fs : fuid_t -> result FsObj.t) (j : job) (seg : list effect) : Prop :=
  Forall (concerns e tapeId (fuid_of j)) seg
  /\ if is_ok (fs (fuid_of j))
     then exists rest, seg = Lock (fuid_of j) :: rest /\ In (Unlock (fuid_of j)) rest
     else seg = [].

(** ** The end of a request execution *)

Definition same_request (reqNum : Z) (tapeId : string) (j : job) : bool :=
  (j_req_num j =? reqNum) && String.eqb (j_tape_id j) tapeId.

Definition reset_to_new (r : request) : request :=
  {| r_operation := r_operation r; r_req_num := r_req_num r;
     r_tape_id := r_tape_id r; r_time_added := r_time_added r;
     r_state := REQ_NEW |}.

(** ** The tape copy *)

Definition is_tape_read (x : effect) : bool :=
  match x with TapeRead _ _ => true | _ => false end.

(** The bytes written to the file [fu], summed over the log. *)
Fixpoint copied (fu : fuid_t) (log : list effect) : Z :=
  match log with
  | [] => 0
  | FileWrite f _ _ wsize :: log' =>
      (if fuid_eqb f fu then wsize else 0) + copied fu log'
  | _ :: log' => copied fu log'
  end.

(** The bytes read from tape, summed over the log. *)
Fixpoint tape_bytes (log : list effect) : Z :=
  match log with
  | [] => 0
  | TapeRead _ rsize :: log' => Z.max 0 rsize + tape_bytes log'
  | _ :: log' => tape_bytes log'
  end.

Definition size_warnings (log : list effect) : nat :=
  length (List.filter
            (fun x => match x with Msg id => is_size_warning id | _ => false end)
            log).

(** ** recall on a migrated file *)

(** The effects of [finish], newest first. *)
Definition finish_effects (fu : fuid_t) (toState : file_state) : list effect :=
  if file_state_eqb toState RESIDENT
  then [RemAttribute fu; FinishRecall fu toState]
  else [FinishRecall fu toState].

(** ** The job writer when the [try] block throws *)

Definition new_request (e : env) (reqNum : Z) (tapeId : string) : request :=
  {| r_operation := TRARECALL; r_req_num := reqNum; r_tape_id := tapeId;
     r_time_added := now e; r_state := REQ_NEW |}.

(** ** Worked scenarios *)

Definition fu42 : fuid_t := {| fsid_h := 1; fsid_l := 1; igen := 1; inum := 42 |}.
Definition fu43 : fuid_t := {| fsid_h := 1; fsid_l := 1; igen := 1; inum := 43 |}.

Definition ri42 : rec_info_t :=
  {| conn_info := 1001; toresident := false; fuid := fu42; filename := "a.dat" |}.
Definition ri43 : rec_info_t :=
  {| conn_info := 1002; toresident := false; fuid := fu43; filename := "" |}.

(** A regular file whose methods all answer and whose writes are
    complete. *)
Definition regular_file (st : file_state) (size : Z) (tapes : list string) : FsObj.t :=
  {| fo_stat := Ok {| st_isreg := true; st_size := size; st_mtime := 7 |};
     fo_migState := Ok st;
     fo_attr := Ok {| tapeId := tapes |};
     fo_write := fun _ n => n |}.

Definition files (l : list (fuid_t * FsObj.t)) : fuid_t -> result FsObj.t :=
  fun k =>
    match List.find (fun p => fuid_eqb (fst p) k) l with
    | Some p => Ok (snd p)
    | None => Raise (LTFSDMException GENERAL_ERROR 2)
    end.

Definition tape_name (fu : fuid_t) (tapeId : string) : string :=
  String.append tapeId
    (if (inum fu =? 42)%Z then "/42"%string
     else if (inum fu =? 43)%Z then "/43"%string else "/0"%string).

Definition blocks_two (n : string) : Z :=
  if String.eqb n "T00001/42" then 200
  else if String.eqb n "T00001/43" then 50 else -1.

Definition plain_env (blocks : string -> Z) (tapes : list (string * tape_obj))
    (forced : nat -> bool) : env :=
  {| getTapeName := fun fu t => Ok (tape_name fu t);
     getStartBlock := blocks;
     tape :=
       fun n => option_map snd (List.find (fun p => String.eqb (fst p) n) tapes);
     forcedTerminate := forced;
     now := 1700000000;
     UNSET := -1 |}.

Definition g0 : garbage :=
  {| g_statbuf := {| st_isreg := false; st_size := 123456; st_mtime := -9 |};
     g_state := RECALLING_MIG;
     g_attr := {| tapeId := ["?????????"%string] |};
     g_toresident := false |}.

Definition inventory0 : Inventory.t :=
  {| Inventory.cartridges :=
       [{| Inventory.c_id := "T00001"; Inventory.c_slot := 256;
           Inventory.c_state := Inventory.TAPE_OTHER 3 |}];
     Inventory.drives :=
       [{| Inventory.d_id := "D1"; Inventory.d_slot := 256;
           Inventory.d_busy := true |}] |}.

Definition chunk (n : nat) : list Byte.byte := repeat Byte.x2a n.

(** Scenario 5 of the specification in small: a file of 10 bytes whose
    tape object has 8. *)
Definition tape8 : tape_obj :=
  {| t_fstat := Some 8; t_reads := [RData (chunk 5); RData (chunk 3)] |}.

Definition env_mismatch : env :=
  plain_env blocks_two [("T00001/42"%string, tape8)] (fun _ => false).

Definition world_mismatch : world :=
  start (files [(fu42, regular_file MIGRATED 10 ["T00001"%string])]) inventory0 ri42.

(** A migrated file of size zero. *)
Definition tape_empty : tape_obj := {| t_fstat := Some 0; t_reads := [] |}.

Definition env_empty : env :=
  plain_env blocks_two [("T00001/42"%string, tape_empty)] (fun _ => false).

Definition world_empty : world :=
  start (files [(fu42, regular_file MIGRATED 0 ["T00001"%string])]) inventory0 ri42.

(** The specification on files of size zero (C9), as it stands, for the
    recalls nothing disturbs: the file is there and migrated, the tape
    object opens and answers with non-empty chunks, the forced-terminate
    flag stays clear and every write is complete.  Then no byte is read
    from tape, the recall succeeds and the file ends in the target
    state. *)
Definition zero_size_file_reads_no_tape_byte : Prop :=
  forall e g w recinfo tapeId state toState target tn tp sb chunks,
    w_fs w (fuid recinfo) = Ok target ->
    getMigState target = Ok MIGRATED ->
    getTapeName e (fuid recinfo) tapeId = Ok tn ->
    tape e tn = Some tp ->
    FsObj.stat target = Ok sb ->
    st_size sb = 0 ->
    (forall k, forcedTerminate e k = false) ->
    (forall off n, fo_write target off n = n) ->
    t_reads tp = map RData chunks ->
    Forall (fun c => c <> []) chunks ->
    exists w' d,
      recall e g w recinfo tapeId state toState = (w', Ok 0)
      /\ w_log w' = d ++ w_log w
      /\ List.filter is_tape_read d = []
      /\ exists f, w_fs w' (fuid recinfo) = Ok f /\ getMigState f = Ok toState.

(** A migrated file of size zero whose tape object has five bytes. *)
Definition tape_five : tape_obj := {| t_fstat := Some 5; t_reads := [RData (chunk 5)] |}.

Definition env_zero_five : env :=
  plain_env blocks_two [("T00001/42"%string, tape_five)] (fun _ => false).

(** A file of 10 bytes whose tape object reports 8 and ends after 5. *)
Definition tape_short : tape_obj :=
  {| t_fstat := Some 8; t_reads := [RData (chunk 5)] |}.

Definition env_short : env :=
  plain_env blocks_two [("T00001/42"%string, tape_short)] (fun _ => false).

(** Scenario 4 of the specification: an event for a resident file. *)
Definition world_resident : world :=
  start (files [(fu42, regular_file RESIDENT 4096 [])]) inventory0 ri43.

(** Scenario 2 of the specification: two events for files on the same
    tape, inode 42 at block 200 and inode 43 at block 50. *)
Definition tape_8 : tape_obj := {| t_fstat := Some 8; t_reads := [RData (chunk 8)] |}.

Definition env_two : env :=
  plain_env blocks_two [("T00001/42"%string, tape_8); ("T00001/43"%string, tape_8)]
    (fun _ => false).

Definition world_two : world :=
  start (files [(fu42, regular_file MIGRATED 8 ["T00001"%string]);
                (fu43, regular_file MIGRATED 8 ["T00001"%string])])
    inventory0 ri42.

Definition after (sched : list (env * action)) (w : world) : world :=
  default w (run_schedule sched w).

Definition world_two_queued : world :=
  after [(env_two, Receive (Ok ri42) false); (env_two, Receive (Ok ri43) false);
         (env_two, Worker 0 g0); (env_two, Worker 0 g0)] world_two.

Definition world_two_done : world :=
  after [(env_two, Execute g0 1 "T00001"%string)] world_two_queued.

(** The failing input of C3: the file of the event cannot be
    [stat]ed when the job writer runs. *)
Definition file_stat_fails : FsObj.t :=
  {| fo_stat := Raise (LTFSDMException GENERAL_ERROR 2);
     fo_migState := Ok MIGRATED;
     fo_attr := Ok {| tapeId := ["T00001"%string] |};
     fo_write := fun _ n => n |}.

Definition world_stat_fails : world :=
  start (files [(fu42, file_stat_fails)]) inventory0 ri42.

(** The failing input of C5: the attribute of the file lists T00002
    first when the job writer reads it, and the event was queued with
    T00001. *)
Definition world_other_tape : world :=
  start (files [(fu42, regular_file MIGRATED 8 ["T00002"%string; "T00001"%string])])
    inventory0 ri42.

(** ** Forced termination *)

Definition is_lock (x : effect) : bool :=
  match x with Lock _ => true | _ => false end.

Definition is_poll (x : effect) : bool :=
  match x with Poll _ _ => true | _ => false end.

(** The entries logged from [w] to [w'], newest first. *)
Definition logged (w w' : world) : list effect :=
  take (length (w_log w') - length (w_log w)) (w_log w').

(** An entry that is neither a poll of the flag nor a tape read. *)
Definition plain (x : effect) : Prop := is_poll x = false /\ is_tape_read x = false.

(** [idle w w']: from [w] to [w'] the log has grown, the flag was not
    polled and nothing was read from tape. *)
Definition idle (w w' : world) : Prop :=
  exists d, w_log w' = d ++ w_log w /\ Forall plain d.

(** The shape of a [recall]: it either never comes to the copy loop, or
    runs it once, from offset 0; around the loop nothing polls the flag and
    nothing reads from tape. *)
Definition around_copy_loop (e : env) (w w1 : world) (ok : bool) : Prop :=
  idle w w1
  \/ exists wd fu target tn size reads,
       idle w wd
       /\ idle (fst (copy_loop e wd fu target tn size reads 0)) w1
       /\ ok = is_ok (snd (copy_loop e wd fu target tn size reads 0)).

(** [poll_in e lo hi x]: when [x] is a poll, it saw the flag as it was at
    its instant, and its instant lies between [lo] and [hi]. *)
Definition poll_in (e : env) (lo hi : nat) (x : effect) : Prop :=
  match x with
  | Poll t b => b = forcedTerminate e t /\ (lo <= t < hi)%nat
  | _ => True
  end.

Definition clear_poll (x : effect) : Prop :=
  match x with
  | Poll _ true => False
  | _ => True
  end.

Definition flag_stays_set (e : env) : Prop :=
  forall t t', (t <= t')%nat -> forcedTerminate e t = true -> forcedTerminate e t' = true.

Definition flag_set_from (e : env) (t0 : nat) : Prop :=
  forall t, (t0 <= t)%nat -> forcedTerminate e t = true.

(** The specification on forced termination (C6), in the reading most
    favourable to it: the flag, clear when the recall of a job begins, becomes set while
    that recall is under way; then that job fails and no byte is read from
    tape for any later job of the loop. *)
Definition forced_terminate_stops_request : Prop :=
  forall e g tapeId j rows w tores resplist,
    flag_stays_set e ->
    let recinfo := recinfo_of_row j (row_toresident j tores) in
    let w1 := fst (recall e g w recinfo tapeId (row_state j) (j_target_state j)) in
    let w2 := fst (process_rows e g tapeId (j :: rows) w tores resplist) in
    forcedTerminate e (length (w_log w)) = false ->
    (exists t, (length (w_log w) <= t < length (w_log w1))%nat
               /\ forcedTerminate e t = true) ->
    snd (recall e g w recinfo tapeId (row_state j) (j_target_state j))
    = Raise general_error
    /\ List.filter is_tape_read (logged w1 w2) = [].

(** The other reading: no later job of the loop is started, so that none
    even locks its file. *)
Definition forced_terminate_starts_no_job : Prop :=
  forall e g tapeId j rows w tores resplist,
    flag_stays_set e ->
    let recinfo := recinfo_of_row j (row_toresident j tores) in
    let w1 := fst (recall e g w recinfo tapeId (row_state j) (j_target_state j)) in
    let w2 := fst (process_rows e g tapeId (j :: rows) w tores resplist) in
    (exists t, In (Poll t true) (logged w w1)) ->
    List.filter is_lock (logged w1 w2) = [].

(** Scenario 6 of the specification: inode 42 at block 50 is being
    streamed when the flag is set; inode 43 at block 200 is premigrated. *)
Definition blocks_six (n : string) : Z :=
  if String.eqb n "T00001/42" then 50
  else if String.eqb n "T00001/43" then 200 else -1.

Definition tape_4_4 : tape_obj :=
  {| t_fstat := Some 8; t_reads := [RData (chunk 4); RData (chunk 4)] |}.

Definition env_forced : env :=
  plain_env blocks_six
    [("T00001/42"%string, tape_4_4); ("T00001/43"%string, tape_8)]
    (fun t => Nat.leb 5 t).

(** The flag is set while the only chunk of inode 42 is being written. *)
Definition env_forced_late : env :=
  plain_env blocks_six
    [("T00001/42"%string, tape_8); ("T00001/43"%string, tape_8)]
    (fun t => Nat.leb 5 t).

Definition world_forced : world :=
  start (files [(fu42, regular_file MIGRATED 8 ["T00001"%string]);
                (fu43, regular_file PREMIGRATED 8 ["T00001"%string])])
    inventory0 ri42.

Definition stat_8 : stat_t := {| st_isreg := true; st_size := 8; st_mtime := 7 |}.

Definition row42 : job :=
  job_row env_forced ri42 "T00001" 1 stat_8 RECALLING_MIG "T00001/42".
Definition row43 : job :=
  job_row env_forced ri43 "T00001" 1 stat_8 RECALLING_PREMIG "T00001/43".

(** ** Responses over the life of the process *)

Definition count {A : Type} (p : A -> bool) (l : list A) : nat :=
  length (List.filter p l).

Definition responds_to (c : Z) (x : effect) : bool :=
  match x with
  | Respond ri _ => conn_info ri =? c
  | _ => false
  end.

Definition job_of (c : Z) (j : job) : bool := j_conn_info j =? c.

Definition task_of (c : Z) (tk : task) : bool := conn_info (tk_recinfo tk) =? c.

Definition handle_is (c x : Z) : bool := x =? c.

(** Where an event can be: answered, in a job row, in the queue of the
    pool, or dropped by a job writer. *)
Definition account (c : Z) (w : world) : nat :=
  (count (responds_to c) (w_log w) + count (job_of c) (w_jobs w)
   + count (task_of c) (w_queue w) + count (handle_is c) (w_dropped w))%nat.

Definition all_trarecall (jobs : list job) : Prop :=
  Forall (fun j => j_operation j = TRARECALL) jobs.

Definition indicator (b : bool) : nat := if b then 1%nat else 0%nat.

(** [taken recinfo terminate]: the turn of the receiver does not skip the
    event. *)
Definition taken (recinfo : rec_info_t) (terminate : bool) : bool :=
  negb (conn_info recinfo =? 0) && (terminate || negb (inum (fuid recinfo) =? 0)).

Definition mine (c : Z) (recinfo : rec_info_t) : nat :=
  indicator (conn_info recinfo =? c).

Definition hits (c : Z) (recinfo : rec_info_t) (terminate : bool) : nat :=
  indicator (taken recinfo terminate && (conn_info recinfo =? c)).

(** A migrated directory: [S_ISREG] does not hold. *)
Definition directory : FsObj.t :=
  {| fo_stat := Ok {| st_isreg := false; st_size := 4096; st_mtime := 7 |};
     fo_migState := Ok MIGRATED;
     fo_attr := Ok {| tapeId := ["T00001"%string] |};
     fo_write := fun _ n => n |}.

(** ** The store *)

Import Sqlite.

(** A library that answers every call with success. *)
Definition lib_ok : lib :=
  {| answer := fun _ c => match c with
                          | sqlite3_step _ => SQLITE_DONE
                          | _ => SQLITE_OK
                          end;
     DB_FILE := "/var/run/ltfsdm/ltfsdm.db";
     LTFSDM_GENERAL_ERROR := 1 |}.

(** A library in which [sqlite3_extended_result_codes] fails. *)
Definition lib_extended_fails : lib :=
  {| answer := fun _ c => match c with
                          | sqlite3_extended_result_codes => 21
                          | sqlite3_step _ => SQLITE_DONE
                          | _ => SQLITE_OK
                          end;
     DB_FILE := "/var/run/ltfsdm/ltfsdm.db";
     LTFSDM_GENERAL_ERROR := 1 |}.

(** A library in which the first BEGIN fails with SQLITE_BUSY and the
    later ones succeed. *)
Definition lib_busy_once : lib :=
  {| answer := fun h c => match h, c with
                          | [], sqlite3_exec _ => 5
                          | _, sqlite3_step _ => SQLITE_DONE
                          | _, _ => SQLITE_OK
                          end;
     DB_FILE := "/var/run/ltfsdm/ltfsdm.db";
     LTFSDM_GENERAL_ERROR := 1 |}.

(** The store object before [open]. *)
Definition db0 : db := {| dbNeedsClosed := false; trans_mutex := false; calls := [] |}.

Definition is_create_function (c : call) : bool :=
  match c with sqlite3_create_function _ _ => true | _ => false end.

Definition is_close (c : call) : bool :=
  match c with sqlite3_close => true | _ => false end.

Definition is_finalize_of (stmt : nat) (c : call) : bool :=
  match c with sqlite3_finalize k => Nat.eqb k stmt | _ => false end.

(** The result code a call must not have for the code to go on. *)
Definition expected_of (c : call) : Z :=
  match c with sqlite3_step _ => SQLITE_DONE | _ => SQLITE_OK end.

(** ** FITS over the rows of a query *)

(** FITS called once for each row of a query, with the same three
    pointers; a row is an inode and a size. *)
Fixpoint fits_rows (m : memory) (free num_found total : Z) (rows : list (Z * Z))
    : option (memory * list Z) :=
  match rows with
  | [] => Some (m, [])
  | (inode, size) :: rows' =>
      match fits m [inode; size; free; num_found; total] with
      | None => None
      | Some (m1, r) =>
          match fits_rows m1 free num_found total rows' with
          | None => None
          | Some (m2, rs) => Some (m2, r :: rs)
          end
      end
  end.

(** The sizes of the rows for which FITS answered 1, summed. *)
Fixpoint accepted (rows : list (Z * Z)) (rs : list Z) : Z :=
  match rows, rs with
  | (_, size) :: rows', r :: rs' =>
      (if r =? 1 then u64 size else 0) + accepted rows' rs'
  | _, _ => 0
  end.

Definition sum_of (rs : list Z) : Z := fold_right Z.add 0 rs.

(** ** Request numbers *)

Definition is_notify (x : effect) : bool :=
  match x with Notify => true | _ => false end.

Definition is_msg (x : effect) : bool :=
  match x with Msg _ => true | _ => false end.

(** [steady w w']: the files, the receiver's [reqmap] and [recinfo], the
    request counter, the queue of the pool and the inventory are as they
    were. *)
Definition steady (w w' : world) : Prop :=
  w_fs w' = w_fs w /\ w_reqmap w' = w_reqmap w
  /\ w_globalReqNumber w' = w_globalReqNumber w /\ w_queue w' = w_queue w
  /\ w_inventory w' = w_inventory w /\ w_recinfo w' = w_recinfo w.

(** The request table after the part of [addJob] under [Scheduler::mtx]. *)
Definition upserted (e : env) (reqs : list request) (tapeId : string) (reqNum : Z)
    (attr : mig_attr_t) : list request :=
  match CHECK_REQUEST_EXISTS reqs reqNum with
  | [] => ADD_REQUEST reqs TRARECALL reqNum (first_tape attr) (now e) REQ_NEW
  | _ :: _ => CHANGE_REQUEST_TO_NEW reqs REQ_NEW reqNum tapeId
  end.

(** [numbered w]: the request counter is not negative; every tape of
    [reqmap] has a number between 1 and the counter; no two tapes have the
    same number; every queued task and every job row carries the number
    [reqmap] has for its tape. *)
Definition numbered (w : world) : Prop :=
  0 <= w_globalReqNumber w
  /\ (forall t n, w_reqmap w !! t = Some n -> 1 <= n <= w_globalReqNumber w)
  /\ (forall t1 t2 n,
        w_reqmap w !! t1 = Some n -> w_reqmap w !! t2 = Some n -> t1 = t2)
  /\ Forall (fun tk => w_reqmap w !! tk_tapeId tk = Some (tk_reqNum tk)) (w_queue w)
  /\ Forall (fun j => w_reqmap w !! j_tape_id j = Some (j_req_num j)) (w_jobs w).

(** ** What a recall logs *)

Definition is_unlock (x : effect) : bool :=
  match x with Unlock _ => true | _ => false end.

(** A tape object was opened: [open] answered a descriptor. *)
Definition is_tape_open (x : effect) : bool :=
  match x with TapeOpen _ true => true | _ => false end.

Definition is_tape_close (x : effect) : bool :=
  match x with TapeClose _ => true | _ => false end.

Definition is_finish_recall (x : effect) : bool :=
  match x with FinishRecall _ _ => true | _ => false end.

Definition is_rem_attribute (x : effect) : bool :=
  match x with RemAttribute _ => true | _ => false end.

(** An effect on the tape or on the data of a file. *)
Definition is_transfer (x : effect) : bool :=
  match x with
  | TapeOpen _ _ | TapeRead _ _ | TapeClose _ | PrepareRecall _
  | FileWrite _ _ _ _ => true
  | _ => false
  end.

(** The writes to files in a piece of the log, oldest first: offset and
    data. *)
Fixpoint file_writes (d : list effect) : list (Z * list Byte.byte) :=
  match d with
  | [] => []
  | FileWrite _ offset data _ :: d' => file_writes d' ++ [(offset, data)]
  | _ :: d' => file_writes d'
  end.

(** Every write begins where the one before it ended. *)
Fixpoint contiguous (offset : Z) (ws : list (Z * list Byte.byte)) : Prop :=
  match ws with
  | [] => True
  | (o, data) :: ws' =>
      o = offset /\ contiguous (offset + Z.of_nat (length data)) ws'
  end.

(** The data the tape object hands out before its first failing read. *)
Fixpoint data_of (reads : list read_result) : list Byte.byte :=
  match reads with
  | RData bytes :: reads' => bytes ++ data_of reads'
  | _ => []
  end.

(** A file whose writes come out one byte short. *)
Definition file_short_write : FsObj.t :=
  {| fo_stat := Ok {| st_isreg := true; st_size := 8; st_mtime := 7 |};
     fo_migState := Ok MIGRATED;
     fo_attr := Ok {| tapeId := ["T00001"%string] |};
     fo_write := fun _ n => n - 1 |}.

Definition world_short_write : world :=
  start (files [(fu42, file_short_write)]) inventory0 ri42.

(** A file whose write at offset 4 comes out one byte short, and a tape
    object that hands out two chunks of four bytes. *)
Definition file_short_later : FsObj.t :=
  {| fo_stat := Ok {| st_isreg := true; st_size := 8; st_mtime := 7 |};
     fo_migState := Ok MIGRATED;
     fo_attr := Ok {| tapeId := ["T00001"%string] |};
     fo_write := fun off n => if off =? 4 then n - 1 else n |}.

Definition world_short_later : world :=
  start (files [(fu42, file_short_later)]) inventory0 ri42.

Definition env_4_4 : env :=
  plain_env blocks_six [("T00001/42"%string, tape_4_4)] (fun _ => false).

(** A premigrated file and a file found resident. *)
Definition world_premigrated : world :=
  start (files [(fu42, regular_file PREMIGRATED 8 ["T00001"%string])]) inventory0 ri42.

(** ** The jobs a request execution leaves *)

(** [stays reqNum tapeId j]: the job is of another request or tape, or
    its file state is RESIDENT. *)
Definition stays (reqNum : Z) (tapeId : string) (j : job) : bool :=
  negb (same_request reqNum tapeId j) || file_state_eqb (j_file_state j) RESIDENT.

(** The failure response of the shutdown pass for a job row. *)
Definition failure_of (g : garbage) (j : job) : effect :=
  Respond (recinfo_of_row j (g_toresident g)) false.

Definition is_trarecall (j : job) : bool := operation_eqb (j_operation j) TRARECALL.

Definition set_free (d : Inventory.drive) : Inventory.drive :=
  {| Inventory.d_id := Inventory.d_id d; Inventory.d_slot := Inventory.d_slot d;
     Inventory.d_busy := false |}.

Definition in_slot (slot : Z) (d : Inventory.drive) : bool :=
  Inventory.d_slot d =? slot.

(** Two drives in the slot of the cartridge, both busy. *)
Definition inventory_two_drives : Inventory.t :=
  {| Inventory.cartridges :=
       [{| Inventory.c_id := "T00001"; Inventory.c_slot := 256;
           Inventory.c_state := Inventory.TAPE_OTHER 3 |}];
     Inventory.drives :=
       [{| Inventory.d_id := "D0"; Inventory.d_slot := 255;
           Inventory.d_busy := true |};
        {| Inventory.d_id := "D1"; Inventory.d_slot := 256;
           Inventory.d_busy := true |};
        {| Inventory.d_id := "D2"; Inventory.d_slot := 256;
           Inventory.d_busy := true |}] |}.

(** ** What the job row keeps of an event

    [addJob] writes the file name into the text of ADD_JOB between two
    quote characters, and the uid in decimal.  The row holds what the
    event had for a name without a quote character and for uid components
    that fit the 64-bit signed INTEGER of the store. *)

Definition quote_free (s : string) : bool :=
  match String.index 0 "'" s with
  | Some _ => false
  | None => true
  end.

Definition in_integer_range (fu : fuid_t) : Prop :=
  0 <= fsid_h fu < 2 ^ 63 /\ 0 <= fsid_l fu < 2 ^ 63
  /\ 0 <= igen fu < 2 ^ 63 /\ 0 <= inum fu < 2 ^ 63.

(** ** The responses of a request execution *)

(** [recinfo.toresident] over the rows of [processFiles]: set when a row
    asks for RESIDENT and never cleared. *)
Fixpoint sticky (tores : bool) (targets : list file_state) : list bool :=
  match targets with
  | [] => []
  | st :: targets' =>
      let tores := if file_state_eqb st RESIDENT then true else tores in
      tores :: sticky tores targets'
  end.

(** ** Responses when the threads interleave *)

(** The job writer leaves the event at its guard: the file object is
    made, [stat] answers, and the file is not a regular file. *)
Definition at_guard (w : world) (recinfo : rec_info_t) : bool :=
  match w_fs w (fuid recinfo) with
  | Ok fso =>
      match FsObj.stat fso with
      | Ok statbuf => negb (st_isreg statbuf)
      | Raise _ => false
      end
  | Raise _ => false
  end.

(** The store refuses the job row of the writer: the table has a row with
    the same file name or the same file uid, and the same replica
    number. *)
Definition refused (e : env) (jobs : list job) (jw : writer) : bool :=
  existsb
    (job_conflict
       (job_row e (jw_recinfo jw) (jw_tapeId jw) (jw_reqNum jw) (jw_statbuf jw)
          (jw_state jw) (jw_tapeName jw))) jobs.

(** The step leaves an event with the connection handle [c] without a
    response and without a job row: a job writer takes its task and
    returns at the guard, or executes ADD_JOB and is refused. *)
Definition leaves_unanswered (c : Z) (e : env) (m : move) (s : system) : bool :=
  match m with
  | Take i _ =>
      match w_queue (sys_world s) !! i with
      | Some tk =>
          task_of c tk
          && at_guard (set_queue (delete i (w_queue (sys_world s))) (sys_world s))
               (tk_recinfo tk)
      | None => false
      end
  | Store k =>
      match sys_writers s !! k with
      | Some jw =>
          (conn_info (jw_recinfo jw) =? c) && negb (jw_inserted jw)
          && refused e (w_jobs (sys_world s)) jw
      | None => false
      end
  | _ => false
  end.

(** The number of such steps in a schedule. *)
Fixpoint left_unanswered (c : Z) (sched : list (env * move)) (s : system) : nat :=
  match sched with
  | [] => 0%nat
  | (e, m) :: sched' =>
      (indicator (leaves_unanswered c e m s)
       + match thread_step e m s with
         | Some s' => left_unanswered c sched' s'
         | None => 0
         end)%nat
  end.

Definition same_key (reqNum : Z) (tapeId : string) (x : executor) : bool :=
  (ex_reqNum x =? reqNum) && String.eqb (ex_tapeId x) tapeId.

Definition recalling_state (st : file_state) : bool :=
  file_state_eqb st RECALLING_MIG || file_state_eqb st RECALLING_PREMIG.

(** Modelled from the spec: the scheduler and the shutdown of the server
    are not part of this file set.  The scheduler "guarantees at most one
    in-flight execution per (req_num, tape_id)", and a graceful shutdown
    is to "finish in-flight requests, then run Event Cleanup".  So a step
    is [permitted] unless it starts an execution for a request number and
    tape that has one in flight, starts one after [cleanupEvents], or runs
    [cleanupEvents] while an execution is in flight; [TransRecall::run]
    itself waits for the job writers only.  One more step is not
    [permitted]: a job writer writing the job row of the event with the
    handle [c] with a RECALLING state, which takes a throw in the [try]
    block of [addJob] and an indeterminate [state]. *)
Definition permitted (c : Z) (m : move) (s : system) : bool :=
  match m with
  | Dispatch _ reqNum tapeId =>
      match sys_phase s with
      | Receiving | Draining =>
          negb (existsb (same_key reqNum tapeId) (sys_executors s))
      | _ => false
      end
  | Cleanup _ =>
      match sys_executors s with
      | [] => true
      | _ :: _ => false
      end
  | Store k =>
      match sys_writers s !! k with
      | Some jw =>
          negb (negb (jw_inserted jw) && (conn_info (jw_recinfo jw) =? c)
                && recalling_state (jw_state jw))
      | None => true
      end
  | _ => true
  end.

Fixpoint orderly (c : Z) (sched : list (env * move)) (s : system) : bool :=
  match sched with
  | [] => true
  | (e, m) :: sched' =>
      permitted c m s
      && match thread_step e m s with
         | Some s' => orderly c sched' s'
         | None => true
         end
  end.

(** [other_move c x]: the step [x] of a schedule is not a turn of the
    receiver loop in which [getEvents] throws, and not one that delivers an
    event with the connection handle [c]. *)
Definition other_move (c : Z) (x : env * move) : Prop :=
  match snd x with
  | Turn (Ok r) _ => conn_info r <> c
  | Turn (Raise _) _ => False
  | _ => True
  end.

(** The turns of the receiver loop of a schedule that handle an event with
    the connection handle [c]; [prev] is [recinfo] before the schedule. *)
Fixpoint turns (c : Z) (prev : rec_info_t) (sched : list (env * move)) : nat :=
  match sched with
  | [] => 0%nat
  | (_, Turn ev terminate) :: sched' =>
      let recinfo := match ev with Ok r => r | Raise _ => prev end in
      (hits c recinfo terminate + turns c recinfo sched')%nat
  | _ :: sched' => turns c prev sched'
  end.

(** An entry of [resplist] for the handle [c]. *)
Definition answer_of (c : Z) (r : rec_info_t * bool) : bool := conn_info (fst r) =? c.

(** The responses an executor has still to send for the handle [c], its
    rows being deleted. *)
Definition pending (c : Z) (x : executor) : nat :=
  match ex_pc x with
  | AtRespond => count (answer_of c) (ex_resplist x)
  | _ => 0%nat
  end.

Definition in_flight (c : Z) (l : list executor) : nat :=
  list_sum (map (pending c) l).

(** The events with the handle [c] in the hands of a job writer that has
    not executed ADD_JOB. *)
Definition unwritten (c : Z) (l : list writer) : nat :=
  count (fun jw => negb (jw_inserted jw) && (conn_info (jw_recinfo jw) =? c)) l.

(** The rows of the handle [c] that an execution for [reqNum] and
    [tapeId] has claimed. *)
Definition claimed_count (c : Z) (reqNum : Z) (tapeId : string) (jobs : list job)
    : nat :=
  count (job_of c)
    (List.filter (recalling_job reqNum RECALLING_MIG RECALLING_PREMIG tapeId) jobs).

(** [exec_ok c jobs x]: from SELECT_JOBS to DELETE_JOBS the executor has,
    in its cursor and in [resplist], the rows of [c] it has claimed in the
    table. *)
Definition exec_ok (c : Z) (jobs : list job) (x : executor) : Prop :=
  match ex_pc x with
  | AtSetRecallingMig | AtSetRecallingPremig | AtSelectJobs => ex_resplist x = []
  | InLoop =>
      claimed_count c (ex_reqNum x) (ex_tapeId x) jobs
      = (count (answer_of c) (ex_resplist x)
         + count (job_of c) (ex_cursor x))%nat
  | AtDeleteJobs =>
      claimed_count c (ex_reqNum x) (ex_tapeId x) jobs
      = count (answer_of c) (ex_resplist x)
  | _ => True
  end.

Definition exec_key (x : executor) : Z * string := (ex_reqNum x, ex_tapeId x).

(** [conserved c handled unanswered s]: where the events with the handle
    [c] are.  Until [cleanupEvents] each is answered, in a job row, in
    the queue of the pool, in the hands of a job writer, left unanswered
    by one, or about to be answered by an executor.  After it each is
    answered or was left unanswered. *)
Definition conserved (c : Z) (handled unanswered : nat) (s : system) : Prop :=
  count (handle_is c) (w_dropped (sys_world s)) = unanswered
  /\ match sys_phase s with
     | Receiving | Draining =>
         (account c (sys_world s) + unwritten c (sys_writers s)
          + in_flight c (sys_executors s))%nat = handled
         /\ all_trarecall (w_jobs (sys_world s))
         /\ Forall (exec_ok c (w_jobs (sys_world s))) (sys_executors s)
         /\ NoDup (map exec_key (sys_executors s))
     | Cleaned | Ended =>
         (count (responds_to c) (w_log (sys_world s))
          + count (handle_is c) (w_dropped (sys_world s)))%nat = handled
         /\ sys_executors s = [] /\ sys_writers s = []
         /\ w_queue (sys_world s) = []
     end.

(** The specification on responses (C1) with the threads interleaving,
    for the runs in which [getEvents] never throws, the process does not
    stop, the threads keep to [permitted], the event is delivered once,
    its file name and uid are such as the job row keeps, and [run]
    returns: every accepted event has exactly one response. *)
Definition every_accepted_event_has_one_response : Prop :=
  forall fs inv recinfo0 s1 e1 ev terminate s2 s,
    conn_info ev <> 0 ->
    inum (fuid ev) <> 0 ->
    quote_free (filename ev) = true ->
    in_integer_range (fuid ev) ->
    Forall (other_move (conn_info ev)) s1 ->
    Forall (other_move (conn_info ev)) s2 ->
    run_threads (s1 ++ (e1, Turn (Ok ev) terminate) :: s2) (boot fs inv recinfo0)
    = Some s ->
    orderly (conn_info ev) (s1 ++ (e1, Turn (Ok ev) terminate) :: s2)
      (boot fs inv recinfo0) = true ->
    sys_phase s = Ended ->
    responses (conn_info ev) (w_log (sys_world s)) = 1%nat.

(** ** Worked interleavings *)

(** The system a schedule leaves. *)
Definition after_threads (sched : list (env * move)) (s : system) : system :=
  default s (run_threads sched s).

(** Scenario 2 with the threads interleaving: both job writers execute
    ADD_JOB before either takes [Scheduler::mtx], and the execution of
    request 1 starts before the second writer has touched the request
    row. *)
Definition boot_two : system :=
  boot (files [(fu42, regular_file MIGRATED 8 ["T00001"%string]);
               (fu43, regular_file MIGRATED 8 ["T00001"%string])]) inventory0 ri42.

Definition sched_two_tail : list (env * move) :=
  [(env_two, Take 0%nat g0); (env_two, Take 0%nat g0);
   (env_two, Store 0%nat); (env_two, Store 1%nat); (env_two, Store 0%nat);
   (env_two, Dispatch g0 1 "T00001"%string);
   (env_two, Advance 0%nat); (env_two, Advance 0%nat); (env_two, Advance 0%nat);
   (env_two, Store 0%nat);
   (env_two, Advance 0%nat); (env_two, Advance 0%nat); (env_two, Advance 0%nat);
   (env_two, Advance 0%nat); (env_two, Advance 0%nat); (env_two, Advance 0%nat);
   (env_two, Advance 0%nat);
   (env_two, Advance 0%nat); (env_two, Advance 0%nat); (env_two, Advance 0%nat);
   (env_two, LeaveLoop); (env_two, Cleanup g0); (env_two, EndRun)].

Definition sched_two : list (env * move) :=
  [(env_two, Turn (Ok ri42) false)]
  ++ (env_two, Turn (Ok ri43) false) :: sched_two_tail.

(** An event for a directory. *)
Definition boot_directory : system := boot (files [(fu42, directory)]) inventory0 ri43.

Definition sched_directory_tail : list (env * move) :=
  [(env_two, Take 0%nat g0); (env_two, LeaveLoop); (env_two, Cleanup g0);
   (env_two, EndRun)].

Definition sched_directory : list (env * move) :=
  [] ++ (env_two, Turn (Ok ri42) false) :: sched_directory_tail.

(** One event; [run] comes to [cleanupEvents] while the execution of the
    request is in its loop. *)
Definition boot_one : system :=
  boot (files [(fu42, regular_file MIGRATED 8 ["T00001"%string])]) inventory0 ri43.

Definition sched_cleanup_early : list (env * move) :=
  [(env_two, Turn (Ok ri42) false); (env_two, Take 0%nat g0);
   (env_two, Store 0%nat); (env_two, Store 0%nat);
   (env_two, Dispatch g0 1 "T00001"%string);
   (env_two, Advance 0%nat); (env_two, Advance 0%nat); (env_two, Advance 0%nat);
   (env_two, Advance 0%nat);
   (env_two, LeaveLoop); (env_two, Cleanup g0); (env_two, EndRun);
   (env_two, Advance 0%nat); (env_two, Advance 0%nat); (env_two, Advance 0%nat)].

(** One event; [run] returns when the execution has executed DELETE_JOBS
    and not yet sent its responses. *)
Definition sched_return_early : list (env * move) :=
  [(env_two, Turn (Ok ri42) false); (env_two, Take 0%nat g0);
   (env_two, Store 0%nat); (env_two, Store 0%nat);
   (env_two, Dispatch g0 1 "T00001"%string);
   (env_two, Advance 0%nat); (env_two, Advance 0%nat); (env_two, Advance 0%nat);
   (env_two, Advance 0%nat); (env_two, Advance 0%nat); (env_two, Advance 0%nat);
   (env_two, LeaveLoop); (env_two, Cleanup g0); (env_two, EndRun)].

(** Two events for one tape.  The file of the second cannot be [stat]ed,
    its job writer goes on with the indeterminate [state], here
    RECALLING_MIG, and writes the job row while the execution of the
    request is between SELECT_JOBS and DELETE_JOBS. *)
Definition boot_stat_fails : system :=
  boot (files [(fu42, regular_file MIGRATED 8 ["T00001"%string]);
               (fu43, file_stat_fails)]) inventory0 ri42.

Definition sched_row_recalling : list (env * move) :=
  [(env_two, Turn (Ok ri42) false); (env_two, Take 0%nat g0);
   (env_two, Store 0%nat); (env_two, Store 0%nat);
   (env_two, Dispatch g0 1 "T00001"%string);
   (env_two, Advance 0%nat); (env_two, Advance 0%nat); (env_two, Advance 0%nat);
   (env_two, Turn (Ok ri43) false); (env_two, Take 0%nat g0); (env_two, Store 0%nat);
   (env_two, Advance 0%nat); (env_two, Advance 0%nat); (env_two, Advance 0%nat);
   (env_two, Advance 0%nat); (env_two, Advance 0%nat);
   (env_two, Advance 0%nat); (env_two, Advance 0%nat); (env_two, Advance 0%nat);
   (env_two, Store 0%nat);
   (env_two, LeaveLoop); (env_two, Cleanup g0); (env_two, EndRun)].

(** What is to be seen of a system: the log, oldest entry first, where
    [run] stands, and the handles of the job rows. *)
Definition seen (s : system) : list effect * run_phase * list Z :=
  (rev (w_log (sys_world s)), sys_phase s, map j_conn_info (w_jobs (sys_world s))).

(** * Properties *)

(** ** File uids and pieces of the log *)

Lemma fuid_eqb_refl fu : fuid_eqb fu fu = true.
Proof. unfold fuid_eqb. now rewrite !Z.eqb_refl. Qed.

Lemma fuid_eqb_eq a b : fuid_eqb a b = true <-> a = b.
Proof.
  unfold fuid_eqb. destruct a, b. cbn.
  rewrite !andb_true_iff, !Z.eqb_eq. split.
  - intros [[[-> ->] ->] ->]. reflexivity.
  - intros H. injection H as -> -> -> ->. tauto.
Qed.

(** [log_ext] writes a log that has grown as what was added, put before
    what was there. *)
Lemma ext_nil {A} (b : list A) : b = [] ++ b.
Proof. reflexivity. Qed.

Lemma ext_cons {A} (x : A) rest d b : rest = d ++ b -> x :: rest = (x :: d) ++ b.
Proof. intros ->. reflexivity. Qed.

Lemma ext_app {A} (l rest d b : list A) : rest = d ++ b -> l ++ rest = (l ++ d) ++ b.
Proof. intros ->. now rewrite app_assoc. Qed.

Ltac log_ext := repeat first [apply ext_nil | apply ext_cons | apply ext_app].

(** ** DataBase::fits *)

Lemma u64_range z : 0 <= u64 z < 2 ^ 64.
Proof. unfold u64. apply Z.mod_pos_bound. lia. Qed.

Lemma u64_idem z : u64 (u64 z) = u64 z.
Proof. unfold u64. apply Z.mod_mod. lia. Qed.

Lemma u64_small z : 0 <= z < 2 ^ 64 -> u64 z = z.
Proof. intros H. unfold u64. apply Z.mod_small. exact H. Qed.

Lemma load_store_same m p v : load (store m p v) p = u64 v.
Proof. unfold load, store. rewrite Z.eqb_refl. apply u64_idem. Qed.

Lemma load_store_other m p q v : q <> p -> load (store m p v) q = load m q.
Proof.
  intros H. unfold load, store.
  destruct (Z.eqb_spec q p) as [->|_]; [contradiction|reflexivity].
Qed.

Lemma load_range m p : 0 <= load m p < 2 ^ 64.
Proof. apply u64_range. Qed.

(** C10.  FITS, called with an inode, a size and pointers to [free],
    [num_found] and [total], the three pointers naming three different
    words: the call increments [*total]
    by one (in [unsigned long]) in either case; when [*free >= size] it
    lowers [*free] by [size], increments [*num_found] by one and answers
    1; otherwise it leaves [*free] and [*num_found] as they are and
    answers 0. *)
Theorem fits_spec (m : memory) (inode size free num_found total : Z) :
  u64 free <> u64 num_found ->
  u64 free <> u64 total ->
  u64 num_found <> u64 total ->
  exists m' r,
    fits m [inode; size; free; num_found; total] = Some (m', r)
    /\ load m' (u64 total) = u64 (load m (u64 total) + 1)
    /\ (u64 size <= load m (u64 free) ->
          load m' (u64 free) = load m (u64 free) - u64 size
          /\ load m' (u64 num_found) = u64 (load m (u64 num_found) + 1)
          /\ r = 1)
    /\ (load m (u64 free) < u64 size ->
          load m' (u64 free) = load m (u64 free)
          /\ load m' (u64 num_found) = load m (u64 num_found)
          /\ r = 0).
Proof.
  intros Hfn Hft Hnt. unfold fits.
  destruct (Z.leb_spec (u64 size) (load m (u64 free))) as [Hle|Hlt].
  - eexists _, _. split; [reflexivity|].
    repeat split.
    + rewrite load_store_other by congruence.
      rewrite load_store_same.
      rewrite load_store_other by congruence. reflexivity.
    + rewrite load_store_other by congruence.
      rewrite load_store_other by congruence.
      rewrite load_store_same. apply u64_small.
      pose proof (load_range m (u64 free)). pose proof (u64_range size). lia.
    + rewrite load_store_same.
      rewrite load_store_other by congruence.
      rewrite load_store_other by congruence. reflexivity.
    + lia.
    + lia.
    + lia.
  - eexists _, _. split; [reflexivity|].
    repeat split; try lia.
    + apply load_store_same.
    + apply load_store_other. congruence.
    + apply load_store_other. congruence.
Qed.

Lemma fits_spec_witness :
  exists m' r,
    fits mem0 [42; 30; 8; 16; 24] = Some (m', r)
    /\ load m' (u64 24) = u64 (load mem0 (u64 24) + 1)
    /\ (u64 30 <= load mem0 (u64 8) ->
          load m' (u64 8) = load mem0 (u64 8) - u64 30
          /\ load m' (u64 16) = u64 (load mem0 (u64 16) + 1)
          /\ r = 1)
    /\ (load mem0 (u64 8) < u64 30 ->
          load m' (u64 8) = load mem0 (u64 8)
          /\ load m' (u64 16) = load mem0 (u64 16)
          /\ r = 0).
Proof.
  apply (fits_spec mem0 42 30 8 16 24); vm_compute; discriminate.
Defined.

Example fits_enough :
  option_map (fun '(m', r) => (load m' 8, load m' 16, load m' 24, r))
    (fits mem0 [42; 30; 8; 16; 24]) = Some (70, 8, 10, 1).
Proof. reflexivity. Qed.

Example fits_short :
  option_map (fun '(m', r) => (load m' 8, load m' 16, load m' 24, r))
    (fits mem0 [42; 101; 8; 16; 24]) = Some (100, 7, 10, 0).
Proof. reflexivity. Qed.

(** ** What a recall leaves alone *)

Lemma quiet_refl w : quiet w w.
Proof. unfold quiet. tauto. Qed.

Lemma quiet_trans w1 w2 w3 : quiet w1 w2 -> quiet w2 w3 -> quiet w1 w3.
Proof. unfold quiet. intuition congruence. Qed.

Lemma quiet_emit x w : is_respond x = false -> quiet w (emit x w).
Proof.
  intros H. unfold quiet. cbn. rewrite H. tauto.
Qed.

Lemma quiet_poll e w : quiet w (snd (poll e w)).
Proof. unfold poll. cbn [snd]. apply quiet_emit. reflexivity. Qed.

Lemma quiet_update_file fu f w : quiet w (update_file fu f w).
Proof. unfold quiet. cbn. tauto. Qed.

Ltac quiet_step :=
  first
    [ apply quiet_refl
    | eapply quiet_trans; [|apply quiet_emit; reflexivity]
    | eapply quiet_trans; [|apply quiet_update_file] ].

Lemma quiet_copy_loop e fu target tapeName size reads :
  forall w offset,
    quiet w (fst (copy_loop e w fu target tapeName size reads offset)).
Proof.
  induction reads as [|r reads IH]; intros w offset; cbn [copy_loop];
    destruct (offset <? size); cbn [fst]; try apply quiet_refl;
    pose proof (quiet_poll e w) as Hp; unfold poll in *; cbn [snd] in Hp;
    destruct (forcedTerminate e (length (w_log w))); cbn [fst]; try exact Hp.
  destruct r as [bytes|].
  - destruct (Z.of_nat (length bytes) =? 0).
    + cbn [fst]. eapply quiet_trans; [exact Hp|].
      apply quiet_emit. reflexivity.
    + destruct (negb (_ =? _)).
      * cbn [fst]. eapply quiet_trans; [exact Hp|].
        repeat quiet_step.
      * eapply quiet_trans; [|apply IH].
        eapply quiet_trans; [exact Hp|].
        repeat quiet_step.
  - cbn [fst]. eapply quiet_trans; [exact Hp|].
    repeat quiet_step.
Qed.

Lemma quiet_finish w fu target toState : quiet w (finish w fu target toState).
Proof.
  unfold finish. destruct (file_state_eqb toState RESIDENT); repeat quiet_step.
Qed.

Lemma quiet_recall_tape e g w recinfo tapeId state toState target :
  quiet w (fst (fst (recall_try e g w recinfo tapeId state toState target))).
Proof.
  unfold recall_try.
  destruct (getMigState target) as [curstate|x]; [|apply quiet_refl].
  destruct (negb (file_state_eqb curstate state));
    match goal with
    | |- context [if file_state_eqb ?s RESIDENT then _ else _] =>
        destruct (file_state_eqb s RESIDENT); [cbn; repeat quiet_step|];
        destruct (file_state_eqb s MIGRATED);
        [|cbn [fst]; eapply quiet_trans; [|apply quiet_finish]; repeat quiet_step]
    end.
  all: destruct (getTapeName e (fuid recinfo) tapeId) as [tn|x];
    [|cbn; repeat quiet_step].
  all: destruct (tape e tn) as [tp|]; [|cbn; repeat quiet_step].
  all: destruct (stat target) as [sb|x]; [|cbn; repeat quiet_step].
  all: destruct (size_mismatch tp sb) as [tsize|].
  all: match goal with
       | |- context [copy_loop ?e ?w ?fu ?t ?tn ?sz ?rs ?o] =>
           pose proof (quiet_copy_loop e fu t tn sz rs w o) as Hq;
           destruct (copy_loop e w fu t tn sz rs o) as [wl [u|x]]
       end; cbn [fst] in *.
  all: try (eapply quiet_trans; [|apply quiet_finish];
            eapply quiet_trans; [|apply quiet_emit; reflexivity]).
  all: eapply quiet_trans; [|exact Hq]; repeat quiet_step.
Qed.

Lemma quiet_recall e g w recinfo tapeId state toState :
  quiet w (fst (recall e g w recinfo tapeId state toState)).
Proof.
  unfold recall. destruct (w_fs w (fuid recinfo)) as [target|x]; [|apply quiet_refl].
  match goal with
  | |- context [recall_try ?e ?g ?w0 ?ri ?t ?s ?ts ?tg] =>
      pose proof (quiet_recall_tape e g w0 ri t s ts tg) as Hq;
      destruct (recall_try e g w0 ri t s ts tg) as [[w1 r] fd]
  end; cbn [fst] in *.
  assert (quiet w w1) as Hq1.
  { eapply quiet_trans; [|exact Hq]. apply quiet_emit. reflexivity. }
  destruct r as [n|x]; cbn [fst].
  - eapply quiet_trans; [exact Hq1|]. apply quiet_emit. reflexivity.
  - destruct fd; repeat quiet_step; exact Hq1.
Qed.

(** ** processFiles: the rows it works on and the responses it sends *)

Lemma process_rows_spec e g tapeId rows :
  forall w tores resplist,
    quiet w (fst (process_rows e g tapeId rows w tores resplist))
    /\ exists new,
         snd (process_rows e g tapeId rows w tores resplist) = resplist ++ new
         /\ Forall2 answers rows new.
Proof.
  induction rows as [|j rows IH]; intros w tores resplist; cbn [process_rows].
  - split; [apply quiet_refl|]. exists []. split; [now rewrite app_nil_r|constructor].
  - match goal with
    | |- context [recall ?e ?g ?w ?ri ?t ?s ?ts] =>
        pose proof (quiet_recall e g w ri t s ts) as Hq;
        destruct (recall e g w ri t s ts) as [w1 r]
    end; cbn [fst] in Hq.
    match goal with
    | |- context [process_rows e g tapeId rows w1 ?t ?rl] =>
        destruct (IH w1 t rl) as [Hq' [new [Hnew Hall]]]
    end.
    split; [eapply quiet_trans; eassumption|].
    eexists (_ :: new). split.
    + rewrite Hnew. rewrite <- app_assoc. reflexivity.
    + constructor; [|exact Hall]. eexists. reflexivity.
Qed.

Lemma respond_all_log resplist :
  forall w, w_log (respond_all resplist w) = rev (map to_effect resplist) ++ w_log w.
Proof.
  unfold respond_all.
  induction resplist as [|r rl IH]; intros w; cbn [fold_left map rev].
  - reflexivity.
  - rewrite IH. cbn. rewrite <- app_assoc. reflexivity.
Qed.

Lemma calm_respond_all resplist : forall w, calm w (respond_all resplist w).
Proof.
  unfold respond_all.
  induction resplist as [|r rl IH]; intros w; cbn [fold_left].
  - unfold calm. tauto.
  - specialize (IH (respondRecallEvent (fst r) (snd r) w)).
    unfold calm in *. cbn in *. tauto.
Qed.

Lemma filter_respond_to_effect l : List.filter is_respond (map to_effect l) = map to_effect l.
Proof.
  induction l as [|r l IH]; cbn; [reflexivity|]. now rewrite IH.
Qed.

Lemma processFiles_spec e g w reqNum tapeId :
  let w' := processFiles e g w reqNum tapeId in
  let jobs2 := claimed (w_jobs w) reqNum tapeId in
  exists resplist,
    Forall2 answers
      (SELECT_JOBS jobs2 reqNum RECALLING_MIG RECALLING_PREMIG tapeId) resplist
    /\ w_jobs w' = DELETE_JOBS jobs2 reqNum RECALLING_MIG RECALLING_PREMIG tapeId
    /\ w_requests w' = w_requests w
    /\ w_inventory w' = w_inventory w /\ w_recinfo w' = w_recinfo w
    /\ w_reqmap w' = w_reqmap w /\ w_globalReqNumber w' = w_globalReqNumber w
    /\ w_queue w' = w_queue w /\ w_dropped w' = w_dropped w
    /\ List.filter is_respond (w_log w')
       = rev (map to_effect resplist) ++ List.filter is_respond (w_log w).
Proof.
  cbn zeta. unfold processFiles, claimed.
  match goal with
  | |- context [process_rows ?e ?g ?t ?rows ?w2 ?tr ?rl] =>
      destruct (process_rows_spec e g t rows w2 tr rl) as [Hq [new [Hnew Hall]]];
      destruct (process_rows e g t rows w2 tr rl) as [w3 resplist]
  end.
  cbn [fst snd] in *. rewrite app_nil_l in Hnew. subst resplist.
  exists new. split; [exact Hall|].
  match goal with
  | |- context [respond_all new ?w4] =>
      pose proof (calm_respond_all new w4) as Hc;
      pose proof (respond_all_log new w4) as Hl
  end.
  unfold calm, quiet in *. cbn in *.
  destruct Hq as (Hj & Hr & Hi & Hri & Hm & Hn & Hqu & Hd & Hlog).
  destruct Hc as (_ & Hj' & Hr' & Hi' & Hri' & Hm' & Hn' & Hqu' & Hd').
  rewrite Hl, List.filter_app, List.filter_rev, filter_respond_to_effect.
  rewrite Hj', Hr', Hi', Hri', Hm', Hn', Hqu', Hd', Hj, Hlog.
  repeat split; congruence.
Qed.

(** ** The end of a request execution *)

Lemma to_int_zero z : 0 <= z < 2 ^ 32 -> (to_int z =? 0) = (z =? 0).
Proof.
  intros Hz. unfold to_int.
  change (2 ^ 32) with 4294967296 in *. change (2 ^ 31) with 2147483648.
  destruct (Z.eqb_spec z 0) as [->|Hnz]; [reflexivity|].
  apply Z.eqb_neq.
  pose proof (Z.mod_pos_bound (z + 2147483648) 4294967296 ltac:(lia)) as Hm.
  pose proof (Z.div_mod (z + 2147483648) 4294967296 ltac:(lia)) as Hd.
  assert ((z + 2147483648) / 4294967296 = 0 \/ (z + 2147483648) / 4294967296 = 1)
    as [Hq|Hq] by nia; rewrite Hq in Hd; lia.
Qed.

(** C8.  When [execRequest] comes to its end, fewer than [2^32] jobs being
    left for the request number and tape: the jobs table holds no
    RECALLING job of the request and tape any more; with at least one job
    left for that request number and tape, every request row of that number
    and tape is set to REQ_NEW and no row is removed; with none left, the
    request rows of that number and tape are deleted and the others kept;
    the condition is signalled after that and is the last thing done. *)
Theorem execRequest_requeue_or_delete e g w reqNum tapeId w' :
  execRequest e g w reqNum tapeId = Some w' ->
  let w1 := processFiles e g w reqNum tapeId in
  let remaining := length (List.filter (same_request reqNum tapeId) (w_jobs w')) in
  Z.of_nat remaining < 2 ^ 32 ->
  w_jobs w' = w_jobs w1
  /\ (forall j, In j (w_jobs w') ->
        recalling_job reqNum RECALLING_MIG RECALLING_PREMIG tapeId j = false)
  /\ ((0 < remaining)%nat ->
        w_requests w'
        = map (fun r => if request_matches reqNum tapeId r then reset_to_new r else r)
            (w_requests w1))
  /\ (remaining = 0%nat ->
        w_requests w'
        = List.filter (fun r => negb (request_matches reqNum tapeId r)) (w_requests w1))
  /\ w_log w' = Notify :: w_log w1.
Proof.
  unfold execRequest. intros H. cbn zeta.
  destruct (release_tape _ tapeId) as [inv|]; [|discriminate].
  injection H as <-.
  assert (forall j, In j (w_jobs (processFiles e g w reqNum tapeId)) ->
            recalling_job reqNum RECALLING_MIG RECALLING_PREMIG tapeId j = false)
    as Hdel.
  { intros j Hj.
    destruct (processFiles_spec e g w reqNum tapeId) as [rl [_ [Hjobs _]]].
    rewrite Hjobs in Hj. unfold DELETE_JOBS in Hj.
    apply List.filter_In in Hj. destruct Hj as [_ Hj].
    now apply negb_true_iff in Hj. }
  unfold COUNT_REMAINING_JOBS. cbn [w_jobs set_inventory].
  fold (same_request reqNum tapeId).
  set (n := length (List.filter (same_request reqNum tapeId)
                      (w_jobs (processFiles e g w reqNum tapeId)))).
  assert (forall b : bool,
            w_jobs (emit Notify
                      (if b
                       then set_requests
                              (CHANGE_REQUEST_TO_NEW
                                 (w_requests
                                    (set_inventory inv
                                       (processFiles e g w reqNum tapeId)))
                                 REQ_NEW reqNum tapeId)
                              (set_inventory inv (processFiles e g w reqNum tapeId))
                       else set_requests
                              (DELETE_REQUEST
                                 (w_requests
                                    (set_inventory inv
                                       (processFiles e g w reqNum tapeId)))
                                 reqNum tapeId)
                              (set_inventory inv (processFiles e g w reqNum tapeId))))
            = w_jobs (processFiles e g w reqNum tapeId)) as Hjobs
    by (intros []; reflexivity).
  rewrite Hjobs. fold n. intros Hsmall.
  rewrite to_int_zero by lia.
  destruct (Z.eqb_spec (Z.of_nat n) 0) as [Hz|Hnz]; cbn.
  - repeat split; try assumption; try reflexivity. lia.
  - repeat split; try assumption; try reflexivity. lia.
Qed.

(** ** The tape copy *)

Lemma copied_app fu l1 l2 : copied fu (l1 ++ l2) = copied fu l1 + copied fu l2.
Proof.
  induction l1 as [|x l1 IH]; cbn [copied app]; [lia|].
  destruct x; try exact IH. rewrite IH. lia.
Qed.

Lemma tape_bytes_app l1 l2 : tape_bytes (l1 ++ l2) = tape_bytes l1 + tape_bytes l2.
Proof.
  induction l1 as [|x l1 IH]; cbn [tape_bytes app]; [lia|].
  destruct x; try exact IH. rewrite IH. lia.
Qed.

Lemma size_warnings_app l1 l2 :
  size_warnings (l1 ++ l2) = (size_warnings l1 + size_warnings l2)%nat.
Proof. unfold size_warnings. now rewrite List.filter_app, length_app. Qed.

(** A copy nothing disturbs: the flag stays clear, the tape object answers
    with non-empty chunks that add up to what is still to copy, and every
    write is complete.  The loop then runs to its condition. *)
Lemma copy_loop_complete e fu target tapeName size chunks :
  (forall t, forcedTerminate e t = false) ->
  (forall off n, fo_write target off n = n) ->
  Forall (fun c => c <> []) chunks ->
  forall w offset,
    offset + Z.of_nat (length (concat chunks)) = size ->
    exists w' d,
      copy_loop e w fu target tapeName size (map RData chunks) offset = (w', Ok tt)
      /\ w_log w' = d ++ w_log w
      /\ w_fs w' = w_fs w
      /\ copied fu d = Z.of_nat (length (concat chunks))
      /\ tape_bytes d = Z.of_nat (length (concat chunks))
      /\ size_warnings d = 0%nat.
Proof.
  intros Hflag Hwrite Hne.
  induction Hne as [|c chunks Hc Hne IH]; intros w offset Hsize;
    cbn [copy_loop map concat] in *.
  - cbn in Hsize. replace (offset <? size) with false by (symmetry; apply Z.ltb_ge; lia).
    exists w, []. cbn. tauto.
  - rewrite length_app in Hsize.
    assert (0 < length c)%nat as Hlen by (destruct c; [contradiction|cbn; lia]).
    replace (offset <? size) with true by (symmetry; apply Z.ltb_lt; lia).
    unfold poll. rewrite Hflag.
    replace (Z.of_nat (length c) =? 0) with false by (symmetry; apply Z.eqb_neq; lia).
    unfold FsObj.write. rewrite Hwrite, Z.eqb_refl. cbn [negb].
    match goal with
    | |- context [copy_loop e ?w3 fu target tapeName size _ ?o] =>
        destruct (IH w3 o) as (w' & d & Hrun & Hlog & Hfs & Hcp & Htb & Hsw); [lia|]
    end.
    exists w', (d ++ [FileWrite fu offset c (Z.of_nat (length c));
                      TapeRead tapeName (Z.of_nat (length c));
                      Poll (length (w_log w)) false]).
    split; [exact Hrun|]. split; [rewrite Hlog; cbn; now rewrite <- app_assoc|].
    split; [rewrite Hfs; reflexivity|].
    rewrite copied_app, tape_bytes_app, size_warnings_app, Hcp, Htb, Hsw, length_app.
    cbn. rewrite fuid_eqb_refl. repeat split; lia.
Qed.

(** A read that answers zero bytes ends the loop without a throw. *)
Lemma copy_loop_eof e w fu target tapeName size reads offset :
  offset < size ->
  forcedTerminate e (length (w_log w)) = false ->
  (reads = [] \/ exists reads', reads = RData [] :: reads') ->
  copy_loop e w fu target tapeName size reads offset
  = (emit (TapeRead tapeName 0) (snd (poll e w)), Ok tt).
Proof.
  intros Hlt Hflag Hreads.
  assert ((offset <? size) = true) as Hltb by (apply Z.ltb_lt; exact Hlt).
  destruct Hreads as [->|[reads' ->]]; cbn [copy_loop]; rewrite Hltb;
    unfold poll; rewrite Hflag; reflexivity.
Qed.

(** ** recall on a migrated file *)

Lemma finish_log w fu target toState :
  w_log (finish w fu target toState) = finish_effects fu toState ++ w_log w.
Proof.
  unfold finish, finish_effects.
  destruct (file_state_eqb toState RESIDENT); reflexivity.
Qed.

Lemma finish_state w fu target toState :
  exists f, w_fs (finish w fu target toState) fu = Ok f
            /\ getMigState f = Ok toState.
Proof.
  unfold finish.
  destruct (file_state_eqb toState RESIDENT); cbn; rewrite fuid_eqb_refl;
    eexists; split; reflexivity.
Qed.

(** [recall] when the file is there, its state reads MIGRATED, the tape
    name resolves, the tape object opens and [stat] answers: what is left
    is the size test, the copy loop and the end of the function. *)
Lemma recall_migrated e g w recinfo tapeId state toState target tn tp sb :
  w_fs w (fuid recinfo) = Ok target ->
  getMigState target = Ok MIGRATED ->
  getTapeName e (fuid recinfo) tapeId = Ok tn ->
  tape e tn = Some tp ->
  FsObj.stat target = Ok sb ->
  recall e g w recinfo tapeId state toState
  = let fu := fuid recinfo in
    let w0 := emit (Lock fu) w in
    let wa := if negb (file_state_eqb MIGRATED state)
              then emit (Msg LTFSDMS0034I) w0 else w0 in
    let wb := emit (TapeOpen tn true) wa in
    let wc := match size_mismatch tp sb with
              | Some _ => emit (Msg (if negb (String.eqb (filename recinfo) "")
                                     then LTFSDMS0097W else LTFSDMS0098W)) wb
              | None => wb
              end in
    let size := match size_mismatch tp sb with
                | Some tsize => tsize
                | None => st_size sb
                end in
    let toState' := match size_mismatch tp sb with
                    | Some _ => RESIDENT
                    | None => toState
                    end in
    let wd := emit (PrepareRecall fu) wc in
    match copy_loop e wd fu target tn size (t_reads tp) 0 with
    | (wl, Ok _) =>
        (emit (Unlock fu) (finish (emit (TapeClose tn) wl) fu target toState'),
         Ok size)
    | (wl, Raise _) =>
        (emit (TapeClose tn) (emit (Unlock fu) wl), Raise general_error)
    end.
Proof.
  intros Hfs Hmig Hname Htape Hstat.
  unfold recall, recall_try. rewrite Hfs. cbn [w_fs emit].
  rewrite Hmig, Hname, Htape, Hstat.
  destruct state; cbn [file_state_eqb negb];
    destruct (size_mismatch tp sb); cbn zeta;
    match goal with
    | |- context [copy_loop ?e ?w ?fu ?t ?tn ?sz ?rs ?o] =>
        destruct (copy_loop e w fu t tn sz rs o) as [wl [u|x]]
    end; reflexivity.
Qed.

(** ** The order of the recalls *)

Lemma insert_by_start_block_perm j l :
  Permutation (insert_by_start_block j l) (j :: l).
Proof.
  induction l as [|k l IH]; cbn [insert_by_start_block].
  - apply Permutation_refl.
  - destruct (j_start_block j <=? j_start_block k).
    + apply Permutation_refl.
    + eapply perm_trans; [apply perm_skip, IH|apply perm_swap].
Qed.

Lemma order_by_start_block_perm l : Permutation (order_by_start_block l) l.
Proof.
  induction l as [|j l IH]; cbn; [constructor|].
  eapply perm_trans; [apply insert_by_start_block_perm|].
  apply perm_skip, IH.
Qed.

Lemma insert_by_start_block_sorted j l :
  StronglySorted start_block_le l ->
  StronglySorted start_block_le (insert_by_start_block j l).
Proof.
  induction 1 as [|k l Hs IH Hk]; cbn [insert_by_start_block].
  - constructor; constructor.
  - destruct (Z.leb_spec (j_start_block j) (j_start_block k)) as [Hle|Hgt].
    + constructor; [constructor; assumption|].
      constructor; [exact Hle|].
      eapply List.Forall_impl; [|exact Hk].
      unfold start_block_le. intros a Ha. lia.
    + constructor; [exact IH|].
      eapply Permutation_Forall.
      * apply Permutation_sym, insert_by_start_block_perm.
      * constructor; [unfold start_block_le; lia|exact Hk].
Qed.

Lemma order_by_start_block_sorted l :
  StronglySorted start_block_le (order_by_start_block l).
Proof.
  induction l as [|j l IH]; cbn; [constructor|].
  apply insert_by_start_block_sorted, IH.
Qed.

Lemma forall_concerns_app e tapeId fu l1 l2 :
  Forall (concerns e tapeId fu) l1 -> Forall (concerns e tapeId fu) l2 ->
  Forall (concerns e tapeId fu) (l1 ++ l2).
Proof. intros H1 H2. apply Forall_app. split; assumption. Qed.

Ltac concerns_all :=
  repeat first
    [ assumption
    | apply List.Forall_nil
    | apply List.Forall_cons; [first [reflexivity | assumption | exact I]|]
    | apply forall_concerns_app ].

(** What the copy loop logs is on the file being recalled and on its tape
    object. *)
Lemma copy_loop_concerns e tapeId fu target tn size reads :
  getTapeName e fu tapeId = Ok tn ->
  forall w offset,
    w_fs (fst (copy_loop e w fu target tn size reads offset)) = w_fs w
    /\ exists d,
         w_log (fst (copy_loop e w fu target tn size reads offset)) = d ++ w_log w
         /\ Forall (concerns e tapeId fu) d.
Proof.
  intros Hname.
  induction reads as [|r reads IH]; intros w offset; cbn [copy_loop];
    destruct (offset <? size); cbn [fst snd];
    try (split; [reflexivity|]; exists []; split; [reflexivity|constructor]);
    unfold poll; destruct (forcedTerminate e (length (w_log w))); cbn [fst snd];
    try (split; [reflexivity|]; eexists; (split; [cbn [w_log emit]; solve [log_ext]|]);
         solve [concerns_all]).
  destruct r as [bytes|].
  - destruct (Z.of_nat (length bytes) =? 0).
    + cbn [fst snd]. split; [reflexivity|].
      eexists. split; [cbn [w_log emit]; log_ext|]. concerns_all.
    + destruct (negb (_ =? _)).
      * cbn [fst snd]. split; [reflexivity|].
        eexists. split; [cbn [w_log emit]; log_ext|]. concerns_all.
      * match goal with
        | |- context [copy_loop e ?w3 fu target tn size reads ?o] =>
            destruct (IH w3 o) as (Hfs & d & Hl & Hd)
        end.
        split; [rewrite Hfs; reflexivity|].
        eexists (d ++ [_; _; _]).
        split; [rewrite Hl; cbn [w_log emit]; rewrite <- app_assoc; reflexivity|].
        concerns_all.
  - cbn [fst snd]. split; [reflexivity|].
    eexists. split; [cbn [w_log emit]; log_ext|]. concerns_all.
Qed.

Lemma finish_concerns e tapeId fu toState :
  Forall (concerns e tapeId fu) (finish_effects fu toState).
Proof.
  unfold finish_effects. destruct (file_state_eqb toState RESIDENT); concerns_all.
Qed.

Lemma finish_present w fu target toState :
  w_fs w fu = Ok target ->
  forall k, is_ok (w_fs (finish w fu target toState) k) = is_ok (w_fs w k).
Proof.
  intros Hfs k. unfold finish.
  destruct (file_state_eqb toState RESIDENT); cbn [w_fs emit update_file set_fs];
    destruct (fuid_eqb k fu) eqn:Hk; try reflexivity;
    apply fuid_eqb_eq in Hk; subst k; rewrite Hfs; reflexivity.
Qed.

Ltac segment_leaf :=
  cbn [fst snd w_log w_fs emit];
  split; [intros k; reflexivity|];
  eexists; (split; [solve [log_ext]|]);
  split; [concerns_all|cbn [In]; tauto].

(** What one [recall] logs: nothing when the file object cannot be made;
    otherwise the lock on the file, then entries on that file and its
    tape object, the unlock among them. *)
Lemma recall_concerns e g w recinfo tapeId state toState :
  let w' := fst (recall e g w recinfo tapeId state toState) in
  (forall k, is_ok (w_fs w' k) = is_ok (w_fs w k))
  /\ if is_ok (w_fs w (fuid recinfo))
     then exists d,
            w_log w' = d ++ Lock (fuid recinfo) :: w_log w
            /\ Forall (concerns e tapeId (fuid recinfo)) d
            /\ In (Unlock (fuid recinfo)) d
     else w_log w' = w_log w.
Proof.
  cbn zeta. unfold recall.
  destruct (w_fs w (fuid recinfo)) as [target|x] eqn:Hfs; cbn [is_ok fst];
    [|split; [intros k|]; reflexivity].
  assert (forall w1, w_fs w1 = w_fs w ->
            forall st k, is_ok (w_fs (finish w1 (fuid recinfo) target st) k)
                         = is_ok (w_fs w k)) as Hfin.
  { intros w1 H1 st k. rewrite finish_present by (rewrite H1; exact Hfs).
    now rewrite H1. }
  unfold recall_try.
  destruct (getMigState target) as [curstate|x]; [|segment_leaf].
  destruct (negb (file_state_eqb curstate state));
    match goal with
    | |- context [if file_state_eqb ?s RESIDENT then _ else _] =>
        destruct (file_state_eqb s RESIDENT); [segment_leaf|];
        destruct (file_state_eqb s MIGRATED)
    end.
  2, 4: cbn [fst snd w_log w_fs emit]; (split; [apply Hfin; reflexivity|]);
    rewrite finish_log; cbn [w_log emit];
    eexists; (split; [solve [log_ext]|]);
    (split; [pose proof (finish_concerns e tapeId (fuid recinfo) toState);
             concerns_all|cbn [In]; tauto]).
  all: destruct (getTapeName e (fuid recinfo) tapeId) as [tn|x] eqn:Hname;
    [|segment_leaf].
  all: destruct (tape e tn) as [tp|]; [|segment_leaf].
  all: destruct (stat target) as [sb|x]; [|segment_leaf].
  all: destruct (size_mismatch tp sb) as [tsize|].
  all: match goal with
       | |- context [copy_loop ?e ?w ?fu ?t ?tn ?sz ?rs ?o] =>
           destruct (copy_loop_concerns e tapeId fu t tn sz rs Hname w o)
             as (Hwfs & dl & Hl & Hd);
           destruct (copy_loop e w fu t tn sz rs o) as [wl [u|x]]
       end; cbn [fst snd] in *.
  all: cbn [w_fs emit] in Hwfs.
  all: cbn [fst snd w_log w_fs emit].
  all: split;
    [first [apply Hfin; cbn [w_fs emit]; exact Hwfs
           |intros k; rewrite Hwfs; reflexivity]|].
  all: rewrite ?finish_log; cbn [w_log emit]; rewrite Hl; cbn [w_log emit].
  all: eexists; (split; [solve [log_ext]|]).
  all: split;
    [pose proof (finish_concerns e tapeId (fuid recinfo) toState);
     pose proof (finish_concerns e tapeId (fuid recinfo) RESIDENT);
     concerns_all
    |cbn [In]; tauto].
Qed.

Lemma recall_segment_present e tapeId fs fs' j seg :
  (forall k, is_ok (fs' k) = is_ok (fs k)) ->
  recall_segment e tapeId fs' j seg -> recall_segment e tapeId fs j seg.
Proof. unfold recall_segment. intros H. now rewrite H. Qed.

(** The loop of [processFiles] logs the recalls of its rows one after the
    other, in the order of the rows. *)
Lemma process_rows_segments e g tapeId rows :
  forall w tores resplist,
    let w' := fst (process_rows e g tapeId rows w tores resplist) in
    (forall k, is_ok (w_fs w' k) = is_ok (w_fs w k))
    /\ exists segs,
         Forall2 (recall_segment e tapeId (w_fs w)) rows segs
         /\ rev (w_log w') = rev (w_log w) ++ concat segs.
Proof.
  induction rows as [|j rows IH]; intros w tores resplist; cbn zeta;
    cbn [process_rows].
  - split; [reflexivity|]. exists []. split; [constructor|].
    cbn. now rewrite app_nil_r.
  - match goal with
    | |- context [recall ?e ?g ?w ?ri ?t ?s ?ts] =>
        pose proof (recall_concerns e g w ri t s ts) as [Hp Hseg];
        destruct (recall e g w ri t s ts) as [w1 r]
    end; cbn [fst] in *.
    match goal with
    | |- context [process_rows e g tapeId rows w1 ?t ?rl] =>
        destruct (IH w1 t rl) as [Hp' [segs [Hall Hlog]]]
    end.
    split; [intros k; rewrite Hp', Hp; reflexivity|].
    change (fuid (recinfo_of_row j (row_toresident j tores))) with (fuid_of j) in Hseg.
    assert (exists seg, recall_segment e tapeId (w_fs w) j seg
                        /\ rev (w_log w1) = rev (w_log w) ++ seg)
      as (seg & Hs & Hl).
    { unfold recall_segment.
      destruct (is_ok (w_fs w (fuid_of j))).
      - destruct Hseg as (d & Hl & Hd & Hu).
        exists (Lock (fuid_of j) :: rev d). split; [split|].
        + constructor; [reflexivity|]. apply Forall_rev. exact Hd.
        + eexists. split; [reflexivity|]. apply (proj1 (in_rev _ _)). exact Hu.
        + rewrite Hl, rev_app_distr. cbn [rev]. rewrite <- app_assoc. reflexivity.
      - exists []. split; [split; [constructor|reflexivity]|].
        rewrite Hseg. now rewrite app_nil_r. }
    exists (seg :: segs). split.
    + constructor; [exact Hs|].
      eapply Forall2_impl; [exact Hall|].
      intros a b. apply recall_segment_present. exact Hp.
    + rewrite Hlog, Hl. cbn [concat]. now rewrite <- app_assoc.
Qed.

(** C2.  One call of [processFiles] for a request number and a tape works
    on the claimed jobs of that request, each once, in nondecreasing order
    of start block.  Between what was logged before and the responses, its
    log is the recalls of these jobs one after the other in that order:
    the segment of a job holds only entries on the file of that job and on
    its tape object, and begins with the lock on the file whenever the
    file object can be made.  The responses come after all the recalls
    and, in the order they are sent, answer the jobs one by one. *)
Theorem processFiles_start_block_order e g w reqNum tapeId :
  exists rows resplist segs,
    Permutation rows
      (List.filter (recalling_job reqNum RECALLING_MIG RECALLING_PREMIG tapeId)
         (claimed (w_jobs w) reqNum tapeId))
    /\ StronglySorted start_block_le rows
    /\ Forall2 answers rows resplist
    /\ Forall2 (recall_segment e tapeId (w_fs w)) rows segs
    /\ rev (w_log (processFiles e g w reqNum tapeId))
       = rev (w_log w) ++ concat segs ++ map to_effect resplist
    /\ List.filter is_respond (w_log (processFiles e g w reqNum tapeId))
       = rev (map to_effect resplist) ++ List.filter is_respond (w_log w).
Proof.
  unfold processFiles, claimed.
  match goal with
  | |- context [process_rows ?e ?g ?t ?rows ?w2 ?tr ?rl] =>
      destruct (process_rows_spec e g t rows w2 tr rl) as [Hq [new [Hnew Hall]]];
      destruct (process_rows_segments e g t rows w2 tr rl) as [_ [segs [Hsegs Hlog]]];
      destruct (process_rows e g t rows w2 tr rl) as [w3 resplist]
  end.
  cbn [fst snd] in *. rewrite app_nil_l in Hnew. subst resplist.
  destruct Hq as (_ & _ & _ & _ & _ & _ & _ & _ & Hresp).
  eexists _, new, segs.
  split; [apply order_by_start_block_perm|].
  split; [apply order_by_start_block_sorted|].
  split; [exact Hall|].
  split; [exact Hsegs|].
  rewrite respond_all_log. cbn [w_log w_fs set_jobs] in *.
  split.
  - rewrite rev_app_distr, rev_involutive, Hlog, <- app_assoc. reflexivity.
  - rewrite List.filter_app, List.filter_rev, filter_respond_to_effect, Hresp.
    reflexivity.
Qed.

(** A copy that ends at a read of zero bytes: the flag stays clear, the
    tape object answers with non-empty chunks that add up to less than is
    asked for, every write is complete, and the next read answers zero
    bytes.  The loop is then left without a throw. *)
Lemma copy_loop_until_eof e fu target tapeName size chunks rest :
  (forall t, forcedTerminate e t = false) ->
  (forall off n, fo_write target off n = n) ->
  Forall (fun c => c <> []) chunks ->
  (rest = [] \/ exists reads', rest = RData [] :: reads') ->
  forall w offset,
    offset + Z.of_nat (length (concat chunks)) < size ->
    exists w' d,
      copy_loop e w fu target tapeName size (map RData chunks ++ rest) offset
      = (w', Ok tt)
      /\ w_log w' = d ++ w_log w
      /\ w_fs w' = w_fs w
      /\ copied fu d = Z.of_nat (length (concat chunks))
      /\ tape_bytes d = Z.of_nat (length (concat chunks)).
Proof.
  intros Hflag Hwrite Hne Hrest.
  induction Hne as [|c chunks Hc Hne IH]; intros w offset Hsize.
  - cbn [map concat length app] in *.
    rewrite copy_loop_eof by (try apply Hflag; try assumption; lia).
    eexists _, [TapeRead tapeName 0; Poll (length (w_log w)) (forcedTerminate e (length (w_log w)))].
    split; [reflexivity|]. cbn. repeat split; reflexivity.
  - cbn [map concat app copy_loop] in *. rewrite length_app in Hsize.
    assert (0 < length c)%nat as Hlen by (destruct c; [contradiction|cbn; lia]).
    replace (offset <? size) with true by (symmetry; apply Z.ltb_lt; lia).
    unfold poll. rewrite Hflag.
    replace (Z.of_nat (length c) =? 0) with false by (symmetry; apply Z.eqb_neq; lia).
    unfold FsObj.write. rewrite Hwrite, Z.eqb_refl. cbn [negb].
    match goal with
    | |- context [copy_loop e ?w3 fu target tapeName size _ ?o] =>
        destruct (IH w3 o) as (w' & d & Hrun & Hlog & Hfs & Hcp & Htb); [lia|]
    end.
    exists w', (d ++ [FileWrite fu offset c (Z.of_nat (length c));
                      TapeRead tapeName (Z.of_nat (length c));
                      Poll (length (w_log w)) false]).
    split; [exact Hrun|]. split; [rewrite Hlog; cbn; now rewrite <- app_assoc|].
    split; [rewrite Hfs; reflexivity|].
    rewrite copied_app, tape_bytes_app, Hcp, Htb, length_app.
    cbn. rewrite fuid_eqb_refl. repeat split; lia.
Qed.

(** C9 (as amended).  In the copy loop of [recall] a read that answers
    zero bytes, at whatever turn of the loop, ends the copy without a
    throw; and a recall whose copy comes to such a read after any number of
    chunks, otherwise undisturbed, succeeds and finalises the file, with
    the chunks read so far written to it.  For a migrated file of size
    zero whose tape object opens and does not report another size, no byte
    is read from tape, [recall] succeeds and the file ends in the target
    state.  When the tape object of a file of size zero reports another
    size and the copy is undisturbed, that many bytes are read and written
    and the file ends RESIDENT. *)
Theorem recall_zero_read_and_zero_size :
  (forall e w fu target tapeName size reads offset,
      offset < size ->
      forcedTerminate e (length (w_log w)) = false ->
      (reads = [] \/ exists reads', reads = RData [] :: reads') ->
      snd (copy_loop e w fu target tapeName size reads offset) = Ok tt)
  /\ (forall e g w recinfo tapeId state toState target tn tp sb chunks rest,
        w_fs w (fuid recinfo) = Ok target ->
        getMigState target = Ok MIGRATED ->
        getTapeName e (fuid recinfo) tapeId = Ok tn ->
        tape e tn = Some tp ->
        FsObj.stat target = Ok sb ->
        (forall t, forcedTerminate e t = false) ->
        (forall off n, fo_write target off n = n) ->
        t_reads tp = map RData chunks ++ rest ->
        Forall (fun c => c <> []) chunks ->
        (rest = [] \/ exists reads', rest = RData [] :: reads') ->
        let size := match size_mismatch tp sb with
                    | Some tsize => tsize
                    | None => st_size sb
                    end in
        let toState' := match size_mismatch tp sb with
                        | Some _ => RESIDENT
                        | None => toState
                        end in
        Z.of_nat (length (concat chunks)) < size ->
        exists w' d,
          recall e g w recinfo tapeId state toState = (w', Ok size)
          /\ w_log w' = d ++ w_log w
          /\ copied (fuid recinfo) d = Z.of_nat (length (concat chunks))
          /\ tape_bytes d = Z.of_nat (length (concat chunks))
          /\ In (FinishRecall (fuid recinfo) toState') d
          /\ exists f, w_fs w' (fuid recinfo) = Ok f /\ getMigState f = Ok toState')
  /\ (forall e g w recinfo tapeId state toState target tn tp sb,
        w_fs w (fuid recinfo) = Ok target ->
        getMigState target = Ok MIGRATED ->
        getTapeName e (fuid recinfo) tapeId = Ok tn ->
        tape e tn = Some tp ->
        FsObj.stat target = Ok sb ->
        st_size sb = 0 ->
        size_mismatch tp sb = None ->
        exists w' d,
          recall e g w recinfo tapeId state toState = (w', Ok 0)
          /\ w_log w' = d ++ w_log w
          /\ List.filter is_tape_read d = []
          /\ In (FinishRecall (fuid recinfo) toState) d
          /\ exists f, w_fs w' (fuid recinfo) = Ok f /\ getMigState f = Ok toState)
  /\ (forall e g w recinfo tapeId state toState target tn tp sb tsize chunks,
        w_fs w (fuid recinfo) = Ok target ->
        getMigState target = Ok MIGRATED ->
        getTapeName e (fuid recinfo) tapeId = Ok tn ->
        tape e tn = Some tp ->
        FsObj.stat target = Ok sb ->
        st_size sb = 0 ->
        t_fstat tp = Some tsize ->
        tsize <> 0 ->
        (forall k, forcedTerminate e k = false) ->
        (forall off n, fo_write target off n = n) ->
        t_reads tp = map RData chunks ->
        Forall (fun c => c <> []) chunks ->
        Z.of_nat (length (concat chunks)) = tsize ->
        exists w' d,
          recall e g w recinfo tapeId state toState = (w', Ok tsize)
          /\ w_log w' = d ++ w_log w
          /\ tape_bytes d = tsize
          /\ copied (fuid recinfo) d = tsize
          /\ exists f, w_fs w' (fuid recinfo) = Ok f /\ getMigState f = Ok RESIDENT).
Proof.
  split; [|split; [|split]].
  - intros e w fu target tapeName size reads offset Hlt Hflag Hreads.
    now rewrite copy_loop_eof.
  - intros e g w recinfo tapeId state toState target tn tp sb chunks rest
      Hfs Hmig Hname Htape Hstat Hflag Hwrite Hreads Hchunks Hrest size toState' Hlt.
    rewrite (recall_migrated e g w recinfo tapeId state toState target tn tp sb)
      by assumption.
    cbn zeta. fold size toState'. rewrite Hreads.
    match goal with
    | |- context [copy_loop ?e ?wd ?fu ?t ?tn ?sz ?rs ?o] =>
        destruct (copy_loop_until_eof e fu t tn sz chunks rest Hflag Hwrite Hchunks
                    Hrest wd o)
          as (wl & d & Hrun & Hlog & Hwfs & Hcp & Htb); [lia|]
    end.
    rewrite Hrun.
    eexists _, (Unlock (fuid recinfo) :: finish_effects (fuid recinfo) toState'
                ++ TapeClose tn :: d ++ _).
    split; [reflexivity|].
    split; [|split; [|split; [|split]]].
    + cbn [w_log emit]. rewrite finish_log. cbn [w_log emit]. rewrite Hlog.
      cbn [w_log emit].
      instantiate (1 :=
        PrepareRecall (fuid recinfo)
        :: match size_mismatch tp sb with
           | Some _ => [Msg (if negb (String.eqb (filename recinfo) "")
                             then LTFSDMS0097W else LTFSDMS0098W)]
           | None => []
           end
        ++ TapeOpen tn true
        :: (if negb (file_state_eqb MIGRATED state)
            then [Msg LTFSDMS0034I; Lock (fuid recinfo)]
            else [Lock (fuid recinfo)])).
      destruct (size_mismatch tp sb);
        destruct (negb (file_state_eqb MIGRATED state)); cbn;
        rewrite <- !app_assoc; cbn; rewrite <- ?app_assoc; reflexivity.
    + cbn [copied]. rewrite !copied_app. cbn [copied]. rewrite !copied_app, Hcp.
      assert (copied (fuid recinfo) (finish_effects (fuid recinfo) toState') = 0) as ->
        by (unfold finish_effects; destruct (file_state_eqb toState' RESIDENT);
            reflexivity).
      destruct (size_mismatch tp sb);
        destruct (negb (file_state_eqb MIGRATED state)); cbn; lia.
    + cbn [tape_bytes]. rewrite !tape_bytes_app. cbn [tape_bytes].
      rewrite !tape_bytes_app, Htb.
      assert (tape_bytes (finish_effects (fuid recinfo) toState') = 0) as ->
        by (unfold finish_effects; destruct (file_state_eqb toState' RESIDENT);
            reflexivity).
      destruct (size_mismatch tp sb);
        destruct (negb (file_state_eqb MIGRATED state)); cbn; lia.
    + right. apply in_or_app. left. unfold finish_effects.
      destruct (file_state_eqb toState' RESIDENT); cbn; tauto.
    + cbn [w_fs emit]. apply finish_state.
  - intros e g w recinfo tapeId state toState target tn tp sb
      Hfs Hmig Hname Htape Hstat Hsize Hmm.
    rewrite (recall_migrated e g w recinfo tapeId state toState target tn tp sb)
      by assumption.
    cbn zeta. rewrite Hmm, Hsize.
    assert (forall w1 rs, copy_loop e w1 (fuid recinfo) target tn 0 rs 0 = (w1, Ok tt))
      as Hloop by (intros w1 [|r rs]; reflexivity).
    rewrite Hloop.
    eexists _, _. split; [reflexivity|].
    split; [|split; [|split]].
    + cbn [w_log emit]. rewrite finish_log. cbn [w_log emit].
      instantiate (1 :=
        Unlock (fuid recinfo) :: finish_effects (fuid recinfo) toState
          ++ TapeClose tn :: PrepareRecall (fuid recinfo) :: TapeOpen tn true
          :: (if negb (file_state_eqb MIGRATED state)
              then [Msg LTFSDMS0034I; Lock (fuid recinfo)]
              else [Lock (fuid recinfo)])).
      destruct (negb (file_state_eqb MIGRATED state)); cbn;
        rewrite <- app_assoc; reflexivity.
    + unfold finish_effects.
      destruct (negb (file_state_eqb MIGRATED state));
        destruct (file_state_eqb toState RESIDENT); reflexivity.
    + unfold finish_effects. right. apply in_or_app. left.
      destruct (file_state_eqb toState RESIDENT); cbn; tauto.
    + cbn [w_fs emit]. apply finish_state.
  - intros e g w recinfo tapeId state toState target tn tp sb tsize chunks
      Hfs Hmig Hname Htape Hstat Hzero Hfstat Hne Hflag Hwrite Hreads Hchunks Htotal.
    rewrite (recall_migrated e g w recinfo tapeId state toState target tn tp sb)
      by assumption.
    assert (size_mismatch tp sb = Some tsize) as Hmm.
    { unfold size_mismatch. rewrite Hfstat, Hzero.
      destruct (Z.eqb_spec tsize 0); [contradiction|reflexivity]. }
    cbn zeta. rewrite Hmm, Hreads.
    match goal with
    | |- context [copy_loop e ?wd ?fu target tn tsize _ 0] =>
        destruct (copy_loop_complete e fu target tn tsize chunks
                    Hflag Hwrite Hchunks wd 0)
          as (wl & dl & Hrun & Hlog & _ & Hcp & Htb & _); [lia|]
    end.
    rewrite Hrun.
    exists (emit (Unlock (fuid recinfo))
              (finish (emit (TapeClose tn) wl) (fuid recinfo) target RESIDENT)).
    exists ([Unlock (fuid recinfo); RemAttribute (fuid recinfo);
             FinishRecall (fuid recinfo) RESIDENT; TapeClose tn]
            ++ dl
            ++ [PrepareRecall (fuid recinfo);
                Msg (if negb (String.eqb (filename recinfo) "")
                     then LTFSDMS0097W else LTFSDMS0098W);
                TapeOpen tn true]
            ++ (if negb (file_state_eqb MIGRATED state)
                then [Msg LTFSDMS0034I; Lock (fuid recinfo)]
                else [Lock (fuid recinfo)])).
    split; [reflexivity|].
    split; [|split; [|split]].
    + cbn [w_log emit]. rewrite finish_log. cbn [w_log emit]. rewrite Hlog.
      cbn [w_log emit finish_effects file_state_eqb].
      destruct state; cbn; rewrite <- !app_assoc; reflexivity.
    + rewrite !tape_bytes_app, Htb. destruct state; cbn; lia.
    + rewrite !copied_app, Hcp. destruct state; cbn; lia.
    + cbn [w_fs emit]. apply finish_state.
Qed.

(** C4.  [recall] on a migrated file whose tape object reports a size
    other than the file's, the copy undisturbed (the forced-terminate flag
    clear, the tape object answering with chunks that add up to its size,
    every write complete): as many bytes as the tape object has are read
    and written, one size warning is logged, the file ends RESIDENT
    whatever target state was asked for, and [recall] succeeds. *)
Theorem recall_size_mismatch e g w recinfo tapeId state toState target tn tp sb
    tsize chunks :
  w_fs w (fuid recinfo) = Ok target ->
  getMigState target = Ok MIGRATED ->
  getTapeName e (fuid recinfo) tapeId = Ok tn ->
  tape e tn = Some tp ->
  FsObj.stat target = Ok sb ->
  t_fstat tp = Some tsize ->
  tsize <> st_size sb ->
  (forall k, forcedTerminate e k = false) ->
  (forall off n, fo_write target off n = n) ->
  t_reads tp = map RData chunks ->
  Forall (fun c => c <> []) chunks ->
  Z.of_nat (length (concat chunks)) = tsize ->
  exists w' d,
    recall e g w recinfo tapeId state toState = (w', Ok tsize)
    /\ w_log w' = d ++ w_log w
    /\ tape_bytes d = tsize
    /\ copied (fuid recinfo) d = tsize
    /\ size_warnings d = 1%nat
    /\ exists f, w_fs w' (fuid recinfo) = Ok f /\ getMigState f = Ok RESIDENT.
Proof.
  intros Hfs Hmig Hname Htape Hstat Hfstat Hne Hflag Hwrite Hreads Hchunks Htotal.
  rewrite (recall_migrated e g w recinfo tapeId state toState target tn tp sb)
    by assumption.
  assert (size_mismatch tp sb = Some tsize) as Hmm.
  { unfold size_mismatch. rewrite Hfstat.
    destruct (Z.eqb_spec tsize (st_size sb)); [contradiction|reflexivity]. }
  cbn zeta. rewrite Hmm, Hreads.
  match goal with
  | |- context [copy_loop e ?wd ?fu target tn tsize _ 0] =>
      destruct (copy_loop_complete e fu target tn tsize chunks
                  Hflag Hwrite Hchunks wd 0)
        as (wl & dl & Hrun & Hlog & _ & Hcp & Htb & Hsw); [lia|]
  end.
  rewrite Hrun.
  exists (emit (Unlock (fuid recinfo))
            (finish (emit (TapeClose tn) wl) (fuid recinfo) target RESIDENT)).
  exists ([Unlock (fuid recinfo); RemAttribute (fuid recinfo);
           FinishRecall (fuid recinfo) RESIDENT; TapeClose tn]
          ++ dl
          ++ [PrepareRecall (fuid recinfo);
              Msg (if negb (String.eqb (filename recinfo) "")
                   then LTFSDMS0097W else LTFSDMS0098W);
              TapeOpen tn true]
          ++ (if negb (file_state_eqb MIGRATED state)
              then [Msg LTFSDMS0034I; Lock (fuid recinfo)]
              else [Lock (fuid recinfo)])).
  split; [reflexivity|].
  split; [|split; [|split; [|split]]].
  - cbn [w_log emit]. rewrite finish_log. cbn [w_log emit]. rewrite Hlog.
    cbn [w_log emit finish_effects file_state_eqb].
    destruct state; cbn;
      rewrite <- !app_assoc; reflexivity.
  - rewrite !tape_bytes_app, Htb.
    destruct state; cbn; lia.
  - rewrite !copied_app, Hcp.
    destruct state; cbn; lia.
  - rewrite !size_warnings_app, Hsw.
    destruct state;
      destruct (negb (String.eqb (filename recinfo) "")); reflexivity.
  - cbn [w_fs emit]. apply finish_state.
Qed.

(** ** The event receiver on a resident file *)

(** C7.  A turn of the receiver loop that reaches the file of an accepted
    event (a connection handle, an inode number other than zero,
    [Server::terminate] clear) and reads its state as RESIDENT finalises the
    file as resident, answers the event with success at once, and hands
    nothing to the job writers: no job row and no request row is made. *)
Theorem run_iteration_resident w ev fso :
  conn_info ev <> 0 ->
  inum (fuid ev) <> 0 ->
  w_fs w (fuid ev) = Ok fso ->
  getMigState fso = Ok RESIDENT ->
  let w' := run_iteration w (Ok ev) false in
  w_log w'
  = [Respond ev true; Msg LTFSDMS0039I; FinishRecall (fuid ev) RESIDENT] ++ w_log w
  /\ w_fs w' (fuid ev) = Ok (finishRecall RESIDENT fso)
  /\ w_jobs w' = w_jobs w
  /\ w_requests w' = w_requests w
  /\ w_queue w' = w_queue w.
Proof.
  intros Hconn Hinum Hfs Hmig. unfold run_iteration. cbn [w_recinfo set_recinfo].
  apply Z.eqb_neq in Hconn. apply Z.eqb_neq in Hinum.
  rewrite Hconn, Hinum. cbn [w_fs set_recinfo]. rewrite Hfs, Hmig.
  cbn. rewrite fuid_eqb_refl. tauto.
Qed.

(** The same in the job writer: a regular file that has become resident
    by the time [addJob] runs is answered with success, and neither table
    changes. *)
Lemma addJob_resident e g w recinfo tapeId reqNum fso sb :
  w_fs w (fuid recinfo) = Ok fso ->
  FsObj.stat fso = Ok sb ->
  st_isreg sb = true ->
  getMigState fso = Ok RESIDENT ->
  let w' := addJob e g w recinfo tapeId reqNum in
  w_log w' = [Respond recinfo true; Msg LTFSDMS0031I] ++ w_log w
  /\ w_jobs w' = w_jobs w
  /\ w_requests w' = w_requests w.
Proof.
  intros Hfs Hstat Hreg Hmig. unfold addJob, addJob_try.
  rewrite Hfs, Hstat, Hreg, Hmig. cbn. tauto.
Qed.

(** ** The job writer when the [try] block throws *)

(** C3 (what the code does).  When [stat] throws in [addJob], the handler
    logs and control goes on after the [try] block: with the store taking
    the row, a job row is inserted whose size, mtime and file state are the
    indeterminate contents of [statbuf] and [state], and a request row is
    created, with the indeterminate [attr.tapeId[0]], or re-activated.  No
    response is sent. *)
Theorem addJob_stat_failure_still_inserts e g w recinfo tapeId reqNum fso x :
  w_fs w (fuid recinfo) = Ok fso ->
  FsObj.stat fso = Raise x ->
  let row :=
    job_row e recinfo tapeId reqNum (g_statbuf g) (g_state g) "" in
  existsb (job_conflict row) (w_jobs w) = false ->
  let w' := addJob e g w recinfo tapeId reqNum in
  w_jobs w' = w_jobs w ++ [row]
  /\ (CHECK_REQUEST_EXISTS (w_requests w) reqNum = [] ->
        w_requests w'
        = w_requests w ++ [new_request e reqNum (first_tape (g_attr g))])
  /\ (CHECK_REQUEST_EXISTS (w_requests w) reqNum <> [] ->
        w_requests w' = CHANGE_REQUEST_TO_NEW (w_requests w) REQ_NEW reqNum tapeId)
  /\ List.filter is_respond (w_log w') = List.filter is_respond (w_log w).
Proof.
  intros Hfs Hstat row Hfree. cbn zeta.
  unfold addJob, addJob_try. rewrite Hfs, Hstat.
  unfold ADD_JOB.
  replace (w_jobs (addJob_catch (sql_name recinfo) w)) with (w_jobs w)
    by (unfold addJob_catch; destruct (negb _); reflexivity).
  fold row. rewrite Hfree. unfold upsert_request.
  cbn [w_requests set_jobs].
  replace (w_requests (addJob_catch (sql_name recinfo) w)) with (w_requests w)
    by (unfold addJob_catch; destruct (negb _); reflexivity).
  destruct (CHECK_REQUEST_EXISTS (w_requests w) reqNum) as [|r rs] eqn:Hchk;
    cbn [w_jobs w_requests w_log emit set_requests set_jobs List.filter is_respond];
    unfold addJob_catch; destruct (negb _); cbn; repeat split; congruence.
Qed.

(** The new request row of [addJob].  When [addJob] gets through its [try]
    block and no request row has the request number, the job row carries
    the tape id passed to [addJob], while the new request row carries the
    first tape id of the attribute [addJob] has read itself, with state
    REQ_NEW and the current time. *)
Theorem addJob_new_request_tape e g w recinfo tapeId reqNum fso sb st attr tn :
  w_fs w (fuid recinfo) = Ok fso ->
  FsObj.stat fso = Ok sb ->
  st_isreg sb = true ->
  getMigState fso = Ok st ->
  st <> RESIDENT ->
  getAttribute fso = Ok attr ->
  getTapeName e (fuid recinfo) tapeId = Ok tn ->
  let row := job_row e recinfo tapeId reqNum sb st tn in
  existsb (job_conflict row) (w_jobs w) = false ->
  CHECK_REQUEST_EXISTS (w_requests w) reqNum = [] ->
  let w' := addJob e g w recinfo tapeId reqNum in
  w_jobs w' = w_jobs w ++ [row]
  /\ j_tape_id row = tapeId
  /\ w_requests w' = w_requests w ++ [new_request e reqNum (first_tape attr)].
Proof.
  intros Hfs Hstat Hreg Hmig Hres Hattr Hname row Hfree Hchk. cbn zeta.
  unfold addJob, addJob_try. rewrite Hfs, Hstat, Hreg, Hmig.
  replace (file_state_eqb st RESIDENT) with false
    by (destruct st; try reflexivity; contradiction).
  cbn [negb]. rewrite Hattr, Hname. unfold ADD_JOB. fold row. rewrite Hfree.
  unfold upsert_request. cbn [w_requests set_jobs]. rewrite Hchk.
  cbn. tauto.
Qed.

(** ** Worked scenarios *)

Lemma recall_size_mismatch_witness :
  exists w' d,
    recall env_mismatch g0 world_mismatch ri42 "T00001" MIGRATED PREMIGRATED
    = (w', Ok 8)
    /\ w_log w' = d ++ w_log world_mismatch
    /\ tape_bytes d = 8
    /\ copied (fuid ri42) d = 8
    /\ size_warnings d = 1%nat
    /\ exists f, w_fs w' (fuid ri42) = Ok f /\ getMigState f = Ok RESIDENT.
Proof.
  apply (recall_size_mismatch env_mismatch g0 world_mismatch ri42 "T00001"
           MIGRATED PREMIGRATED (regular_file MIGRATED 10 ["T00001"%string])
           "T00001/42" tape8 {| st_isreg := true; st_size := 10; st_mtime := 7 |}
           8 [chunk 5; chunk 3]); try reflexivity.
  - discriminate.
  - repeat constructor; discriminate.
Defined.

Example size_mismatch_run :
  let '(w', r) :=
    recall env_mismatch g0 world_mismatch ri42 "T00001" MIGRATED PREMIGRATED in
  r = Ok 8
  /\ rev (w_log w')
     = [Lock fu42; TapeOpen "T00001/42" true; Msg LTFSDMS0097W; PrepareRecall fu42;
        Poll 4 false; TapeRead "T00001/42" 5; FileWrite fu42 0 (chunk 5) 5;
        Poll 7 false; TapeRead "T00001/42" 3; FileWrite fu42 5 (chunk 3) 3;
        TapeClose "T00001/42"; FinishRecall fu42 RESIDENT; RemAttribute fu42;
        Unlock fu42].
Proof. vm_compute. split; reflexivity. Qed.

Lemma recall_zero_read_and_zero_size_witness :
  snd (copy_loop env_empty world_empty fu42 (regular_file MIGRATED 10 [])
         "T00001/42" 10 [] 0) = Ok tt
  /\ (exists w' d,
        recall env_short g0 world_mismatch ri42 "T00001" MIGRATED PREMIGRATED
        = (w', Ok 8)
        /\ w_log w' = d ++ w_log world_mismatch
        /\ copied fu42 d = 5
        /\ tape_bytes d = 5
        /\ In (FinishRecall fu42 RESIDENT) d
        /\ exists f, w_fs w' fu42 = Ok f /\ getMigState f = Ok RESIDENT)
  /\ (exists w' d,
       recall env_empty g0 world_empty ri42 "T00001" MIGRATED PREMIGRATED = (w', Ok 0)
       /\ w_log w' = d ++ w_log world_empty
       /\ List.filter is_tape_read d = []
       /\ In (FinishRecall (fuid ri42) PREMIGRATED) d
       /\ exists f, w_fs w' (fuid ri42) = Ok f /\ getMigState f = Ok PREMIGRATED)
  /\ exists w' d,
       recall env_zero_five g0 world_empty ri42 "T00001" MIGRATED PREMIGRATED
       = (w', Ok 5)
       /\ w_log w' = d ++ w_log world_empty
       /\ tape_bytes d = 5
       /\ copied (fuid ri42) d = 5
       /\ exists f, w_fs w' (fuid ri42) = Ok f /\ getMigState f = Ok RESIDENT.
Proof.
  destruct recall_zero_read_and_zero_size as [Hread [Hturn [Hzero Hfive]]].
  split; [|split; [|split]].
  - apply Hread; [lia|reflexivity|left; reflexivity].
  - apply (Hturn env_short g0 world_mismatch ri42 "T00001"%string MIGRATED PREMIGRATED
             (regular_file MIGRATED 10 ["T00001"%string]) "T00001/42"%string
             tape_short {| st_isreg := true; st_size := 10; st_mtime := 7 |}
             [chunk 5] []);
      try reflexivity.
    + repeat constructor; discriminate.
    + left; reflexivity.
  - apply (Hzero env_empty g0 world_empty ri42 "T00001"%string MIGRATED PREMIGRATED
             (regular_file MIGRATED 0 ["T00001"%string]) "T00001/42"%string
             tape_empty {| st_isreg := true; st_size := 0; st_mtime := 7 |});
      reflexivity.
  - apply (Hfive env_zero_five g0 world_empty ri42 "T00001"%string MIGRATED
             PREMIGRATED (regular_file MIGRATED 0 ["T00001"%string])
             "T00001/42"%string tape_five
             {| st_isreg := true; st_size := 0; st_mtime := 7 |} 5 [chunk 5]);
      try reflexivity; try discriminate.
    repeat constructor. discriminate.
Defined.

(** The file of size zero whose tape object has five bytes: the five
    bytes are read and written, and the file ends RESIDENT although
    PREMIGRATED was asked for. *)
Example zero_size_mismatch_run :
  let '(w', r) :=
    recall env_zero_five g0 world_empty ri42 "T00001" MIGRATED PREMIGRATED in
  r = Ok 5
  /\ rev (w_log w')
     = [Lock fu42; TapeOpen "T00001/42" true; Msg LTFSDMS0097W; PrepareRecall fu42;
        Poll 4 false; TapeRead "T00001/42" 5; FileWrite fu42 0 (chunk 5) 5;
        TapeClose "T00001/42"; FinishRecall fu42 RESIDENT; RemAttribute fu42;
        Unlock fu42].
Proof. vm_compute. split; reflexivity. Qed.

(** The claim on files of size zero does not hold as it stands. *)
Lemma zero_size_file_read_from_tape : ~ zero_size_file_reads_no_tape_byte.
Proof.
  intros H.
  destruct (H env_zero_five g0 world_empty ri42 "T00001"%string MIGRATED PREMIGRATED
              (regular_file MIGRATED 0 ["T00001"%string]) "T00001/42"%string
              tape_five {| st_isreg := true; st_size := 0; st_mtime := 7 |}
              [chunk 5])
    as (w' & d & Hrun & _); try reflexivity.
  - repeat constructor; discriminate.
  - vm_compute in Hrun. discriminate Hrun.
Qed.

Example zero_size_run :
  let '(w', r) :=
    recall env_empty g0 world_empty ri42 "T00001" MIGRATED PREMIGRATED in
  r = Ok 0
  /\ rev (w_log w')
     = [Lock fu42; TapeOpen "T00001/42" true; PrepareRecall fu42;
        TapeClose "T00001/42"; FinishRecall fu42 PREMIGRATED; Unlock fu42].
Proof. vm_compute. split; reflexivity. Qed.

Lemma run_iteration_resident_witness :
  let w' := run_iteration world_resident (Ok ri42) false in
  w_log w'
  = [Respond ri42 true; Msg LTFSDMS0039I; FinishRecall (fuid ri42) RESIDENT]
    ++ w_log world_resident
  /\ w_fs w' (fuid ri42) = Ok (finishRecall RESIDENT (regular_file RESIDENT 4096 []))
  /\ w_jobs w' = w_jobs world_resident
  /\ w_requests w' = w_requests world_resident
  /\ w_queue w' = w_queue world_resident.
Proof.
  apply (run_iteration_resident world_resident ri42 (regular_file RESIDENT 4096 []));
    try reflexivity; discriminate.
Defined.

Example two_events_coalesce :
  map (fun j => (j_i_num j, j_req_num j, j_start_block j)) (w_jobs world_two_queued)
  = [(42, 1, 200); (43, 1, 50)]
  /\ w_requests world_two_queued = [new_request env_two 1 "T00001"]
  /\ List.filter is_respond (w_log world_two_queued) = [].
Proof. vm_compute. repeat split. Qed.

Example two_events_recalled_by_start_block :
  map (fun x => match x with
                | Respond ri ok => (inum (fuid ri), ok)
                | _ => (0, false)
                end)
    (rev (List.filter is_respond (w_log world_two_done)))
  = [(43, true); (42, true)]
  /\ w_jobs world_two_done = []
  /\ w_requests world_two_done = [].
Proof. vm_compute. repeat split. Qed.

Lemma execRequest_requeue_or_delete_witness :
  let w1 := processFiles env_two g0 world_two_queued 1 "T00001" in
  let remaining :=
    length (List.filter (same_request 1 "T00001") (w_jobs world_two_done)) in
  w_jobs world_two_done = w_jobs w1
  /\ (forall j, In j (w_jobs world_two_done) ->
        recalling_job 1 RECALLING_MIG RECALLING_PREMIG "T00001" j = false)
  /\ ((0 < remaining)%nat ->
        w_requests world_two_done
        = map (fun r => if request_matches 1 "T00001" r then reset_to_new r else r)
            (w_requests w1))
  /\ (remaining = 0%nat ->
        w_requests world_two_done
        = List.filter (fun r => negb (request_matches 1 "T00001" r)) (w_requests w1))
  /\ w_log world_two_done = Notify :: w_log w1.
Proof.
  apply (execRequest_requeue_or_delete env_two g0 world_two_queued 1
           "T00001"%string world_two_done).
  - vm_compute. reflexivity.
  - vm_compute. reflexivity.
Defined.

Lemma addJob_stat_failure_still_inserts_witness :
  let row := job_row env_two ri42 "T00001" 1 (g_statbuf g0) (g_state g0) "" in
  let w' := addJob env_two g0 world_stat_fails ri42 "T00001" 1 in
  w_jobs w' = w_jobs world_stat_fails ++ [row]
  /\ (CHECK_REQUEST_EXISTS (w_requests world_stat_fails) 1 = [] ->
        w_requests w'
        = w_requests world_stat_fails
          ++ [new_request env_two 1 (first_tape (g_attr g0))])
  /\ (CHECK_REQUEST_EXISTS (w_requests world_stat_fails) 1 <> [] ->
        w_requests w'
        = CHANGE_REQUEST_TO_NEW (w_requests world_stat_fails) REQ_NEW 1 "T00001")
  /\ List.filter is_respond (w_log w')
     = List.filter is_respond (w_log world_stat_fails).
Proof.
  apply (addJob_stat_failure_still_inserts env_two g0 world_stat_fails ri42
           "T00001"%string 1 file_stat_fails (LTFSDMException GENERAL_ERROR 2));
    reflexivity.
Defined.

Example stat_failure_run :
  let w' := addJob env_two g0 world_stat_fails ri42 "T00001" 1 in
  map (fun j => (j_i_num j, j_file_size j, j_file_state j, j_start_block j))
    (w_jobs w')
  = [(42, 123456, RECALLING_MIG, -1)]
  /\ map r_tape_id (w_requests w') = ["?????????"%string]
  /\ rev (w_log w') = [Msg LTFSDMS0073E; Notify].
Proof. vm_compute. repeat split. Qed.

Lemma addJob_new_request_tape_witness :
  let row := job_row env_two ri42 "T00001" 1
               {| st_isreg := true; st_size := 8; st_mtime := 7 |} MIGRATED
               "T00001/42" in
  let w' := addJob env_two g0 world_other_tape ri42 "T00001" 1 in
  w_jobs w' = w_jobs world_other_tape ++ [row]
  /\ j_tape_id row = "T00001"%string
  /\ w_requests w' = w_requests world_other_tape ++ [new_request env_two 1 "T00002"].
Proof.
  apply (addJob_new_request_tape env_two g0 world_other_tape ri42 "T00001"%string 1
           (regular_file MIGRATED 8 ["T00002"%string; "T00001"%string])
           {| st_isreg := true; st_size := 8; st_mtime := 7 |} MIGRATED
           {| tapeId := ["T00002"%string; "T00001"%string] |} "T00001/42"%string);
    try reflexivity.
  discriminate.
Defined.

Example other_tape_run :
  let w' := addJob env_two g0 world_other_tape ri42 "T00001" 1 in
  map j_tape_id (w_jobs w') = ["T00001"%string]
  /\ map r_tape_id (w_requests w') = ["T00002"%string].
Proof. vm_compute. repeat split. Qed.

(** ** Forced termination *)

Lemma logged_app w w' d : w_log w' = d ++ w_log w -> logged w w' = d.
Proof.
  intros H. unfold logged. rewrite H, length_app.
  replace (length d + length (w_log w) - length (w_log w))%nat with (length d) by lia.
  apply take_app_length.
Qed.

Lemma idle_refl w : idle w w.
Proof. exists []. split; [reflexivity|constructor]. Qed.

Lemma idle_trans w1 w2 w3 : idle w1 w2 -> idle w2 w3 -> idle w1 w3.
Proof.
  intros [d1 [H1 P1]] [d2 [H2 P2]]. exists (d2 ++ d1). split.
  - rewrite H2, H1. apply app_assoc.
  - apply Forall_app. split; assumption.
Qed.

Lemma idle_emit x w : plain x -> idle w (emit x w).
Proof. intros H. exists [x]. split; [reflexivity|]. constructor; [exact H|constructor]. Qed.

Lemma idle_update_file fu f w : idle w (update_file fu f w).
Proof. exists []. split; [reflexivity|constructor]. Qed.

Ltac idle_step :=
  first
    [ apply idle_refl
    | eapply idle_trans; [|apply idle_emit; split; reflexivity]
    | eapply idle_trans; [|apply idle_update_file] ].

Lemma idle_finish w fu target toState : idle w (finish w fu target toState).
Proof.
  unfold finish. destruct (file_state_eqb toState RESIDENT); repeat idle_step.
Qed.

Lemma idle_length w w' : idle w w' -> (length (w_log w) <= length (w_log w'))%nat.
Proof. intros [d [H _]]. rewrite H, length_app. lia. Qed.

Lemma poll_in_weaken e lo hi lo' hi' x :
  (lo' <= lo)%nat -> (hi <= hi')%nat -> poll_in e lo hi x -> poll_in e lo' hi' x.
Proof. destruct x; cbn; try tauto. intros ? ? [? ?]. split; [assumption|lia]. Qed.

Lemma plain_poll_in e lo hi x : plain x -> poll_in e lo hi x.
Proof. destruct x; cbn; try tauto. intros [H _]. discriminate. Qed.

Lemma plain_clear_poll x : plain x -> clear_poll x.
Proof. destruct x; cbn; try tauto. intros [H _]. discriminate. Qed.

Lemma plain_no_tape_read x : plain x -> is_tape_read x = false.
Proof. intros [_ H]. exact H. Qed.

(** What the copy loop logs: each poll at its instant; when the loop ends
    without a throw, no poll that saw the flag set; with the flag set from
    the start of the loop on, no tape read. *)
Lemma copy_loop_log e fu target tapeName size reads :
  forall w offset,
    exists d,
      w_log (fst (copy_loop e w fu target tapeName size reads offset)) = d ++ w_log w
      /\ Forall (poll_in e (length (w_log w)) (length (d ++ w_log w))) d
      /\ (is_ok (snd (copy_loop e w fu target tapeName size reads offset)) = true ->
          Forall clear_poll d)
      /\ (flag_set_from e (length (w_log w)) ->
          Forall (fun x => is_tape_read x = false) d).
Proof.
  induction reads as [|r reads IH]; intros w offset; cbn [copy_loop];
    (destruct (offset <? size);
     [|exists []; split; [reflexivity|split; [constructor|split; constructor]]]);
    unfold poll; destruct (forcedTerminate e (length (w_log w))) eqn:Hf;
    try (exists [Poll (length (w_log w)) true];
         split; [reflexivity|];
         split; [repeat constructor; cbn [length app]; auto; lia|];
         split; [discriminate|intros _; repeat constructor]).
  all: assert (flag_set_from e (length (w_log w)) -> False) as Hno
      by (intros Hset; rewrite (Hset (length (w_log w))) in Hf by lia; discriminate).
  - exists [TapeRead tapeName 0; Poll (length (w_log w)) false].
    split; [reflexivity|].
    split; [repeat constructor; cbn [length app]; auto; lia|].
    split; [intros _; repeat constructor|intros Hset; destruct (Hno Hset)].
  - destruct r as [bytes|].
    + destruct (Z.of_nat (length bytes) =? 0).
      * exists [TapeRead tapeName (Z.of_nat (length bytes));
                Poll (length (w_log w)) false].
        split; [reflexivity|].
        split; [repeat constructor; cbn [length app]; auto; lia|].
        split; [intros _; repeat constructor|intros Hset; destruct (Hno Hset)].
      * destruct (negb (_ =? _)).
        -- eexists [TapeClose tapeName; Msg LTFSDMS0033E; FileWrite _ _ _ _;
                    TapeRead tapeName _; Poll (length (w_log w)) false].
           split; [reflexivity|].
           split; [repeat constructor; cbn [length app]; auto; lia|].
           split; [discriminate|intros Hset; destruct (Hno Hset)].
        -- match goal with
           | |- context [copy_loop e ?w3 fu target tapeName size reads ?o] =>
               destruct (IH w3 o) as (d & Hlog & Hpoll & Hclear & _)
           end.
           cbn [w_log emit] in Hlog, Hpoll.
           eexists (d ++ [FileWrite _ _ _ _; TapeRead tapeName _;
                          Poll (length (w_log w)) false]).
           split; [rewrite Hlog, <- app_assoc; reflexivity|].
           split; [|split].
           ++ apply Forall_app. split.
              ** eapply List.Forall_impl; [|exact Hpoll].
                 intros x. apply poll_in_weaken; [cbn [length]; lia|].
                 rewrite <- app_assoc. cbn [length app]. lia.
              ** repeat constructor; auto; rewrite !length_app; cbn [length]; lia.
           ++ intros Hok. apply Forall_app. split; [apply Hclear, Hok|].
              repeat constructor.
           ++ intros Hset. destruct (Hno Hset).
    + exists [Msg LTFSDMS0023E; TapeRead tapeName (-1);
              Poll (length (w_log w)) false].
      split; [reflexivity|].
      split; [repeat constructor; cbn [length app]; auto; lia|].
      split; [discriminate|intros Hset; destruct (Hno Hset)].
Qed.

Lemma recall_try_shape e g w recinfo tapeId state toState target :
  around_copy_loop e w
    (fst (fst (recall_try e g w recinfo tapeId state toState target)))
    (is_ok (snd (fst (recall_try e g w recinfo tapeId state toState target)))).
Proof.
  unfold recall_try, around_copy_loop.
  destruct (getMigState target) as [curstate|x]; [|left; apply idle_refl].
  destruct (negb (file_state_eqb curstate state));
    match goal with
    | |- context [if file_state_eqb ?s RESIDENT then _ else _] =>
        destruct (file_state_eqb s RESIDENT); [left; cbn; repeat idle_step|];
        destruct (file_state_eqb s MIGRATED);
        [|left; cbn [fst]; eapply idle_trans; [|apply idle_finish]; repeat idle_step]
    end.
  all: destruct (getTapeName e (fuid recinfo) tapeId) as [tn|x];
    [|left; cbn; repeat idle_step].
  all: destruct (tape e tn) as [tp|]; [|left; cbn; repeat idle_step].
  all: destruct (FsObj.stat target) as [sb|x]; [|left; cbn; repeat idle_step].
  all: destruct (size_mismatch tp sb) as [tsize|].
  all: right.
  all: match goal with
       | |- context [copy_loop ?e ?wd ?fu ?t ?tn ?sz ?rs ?o] =>
           exists wd, fu, t, tn, sz, rs;
           destruct (copy_loop e wd fu t tn sz rs o) as [wl [u|x]]
       end; cbn [fst snd].
  all: split; [repeat idle_step|].
  all: split; [|reflexivity].
  all: try (eapply idle_trans; [|apply idle_finish]).
  all: repeat idle_step.
Qed.

Lemma recall_shape e g w recinfo tapeId state toState :
  around_copy_loop e w
    (fst (recall e g w recinfo tapeId state toState))
    (is_ok (snd (recall e g w recinfo tapeId state toState)))
  /\ (is_ok (snd (recall e g w recinfo tapeId state toState)) = false ->
      snd (recall e g w recinfo tapeId state toState) = Raise general_error).
Proof.
  unfold recall.
  destruct (w_fs w (fuid recinfo)) as [target|x];
    [|split; [left; apply idle_refl|reflexivity]].
  pose proof (recall_try_shape e g (emit (Lock (fuid recinfo)) w) recinfo tapeId
                state toState target) as Hs.
  destruct (recall_try e g (emit (Lock (fuid recinfo)) w) recinfo tapeId state
              toState target) as [[w1 r] fd].
  cbn [fst snd] in Hs.
  assert (forall w2, idle w1 w2 ->
            around_copy_loop e w w2 (is_ok r)) as Hwrap.
  { intros w2 H12. destruct Hs as [Hi|(wd & fu & tg & tn & sz & rs & Ha & Hb & Hc)].
    - left. eapply idle_trans; [|exact H12].
      eapply idle_trans; [|exact Hi]. apply idle_emit. split; reflexivity.
    - right. exists wd, fu, tg, tn, sz, rs. split; [|split].
      + eapply idle_trans; [|exact Ha]. apply idle_emit. split; reflexivity.
      + eapply idle_trans; [exact Hb|exact H12].
      + exact Hc. }
  destruct r as [n|x]; cbn [fst snd is_ok].
  - split; [|discriminate]. apply Hwrap. apply idle_emit. split; reflexivity.
  - split; [|reflexivity]. apply Hwrap.
    destruct fd; repeat idle_step.
Qed.

(** What a [recall] logs. *)
Lemma recall_log e g w recinfo tapeId state toState :
  exists d,
    w_log (fst (recall e g w recinfo tapeId state toState)) = d ++ w_log w
    /\ Forall (poll_in e (length (w_log w)) (length (d ++ w_log w))) d
    /\ (is_ok (snd (recall e g w recinfo tapeId state toState)) = true ->
        Forall clear_poll d)
    /\ (flag_set_from e (length (w_log w)) ->
        Forall (fun x => is_tape_read x = false) d).
Proof.
  destruct (recall_shape e g w recinfo tapeId state toState) as [Hshape _].
  destruct Hshape as [[d [Hd Hp]]
                     |(wd & fu & tg & tn & sz & rs & [d1 [Hd1 Hp1]] & [d3 [Hd3 Hp3]] & Hc)].
  - exists d. split; [exact Hd|].
    split; [|split]; intros; eapply List.Forall_impl; try exact Hp; intros x Hx.
    + now apply plain_poll_in.
    + now apply plain_clear_poll.
    + now apply plain_no_tape_read.
  - destruct (copy_loop_log e fu tg tn sz rs wd 0) as (d2 & Hd2 & Hpoll & Hclear & Hread).
    rewrite Hd2 in Hd3. rewrite Hd1 in Hd2, Hd3, Hpoll, Hread.
    exists (d3 ++ d2 ++ d1). split; [rewrite Hd3, <- !app_assoc; reflexivity|].
    split; [|split].
    + apply Forall_app. split; [|apply Forall_app; split].
      * eapply List.Forall_impl; [|exact Hp3]. intros x Hx. now apply plain_poll_in.
      * eapply List.Forall_impl; [|exact Hpoll].
        intros x. apply poll_in_weaken; rewrite !length_app; lia.
      * eapply List.Forall_impl; [|exact Hp1]. intros x Hx. now apply plain_poll_in.
    + intros Hok. rewrite Hc in Hok.
      apply Forall_app. split; [|apply Forall_app; split].
      * eapply List.Forall_impl; [|exact Hp3]. intros x Hx. now apply plain_clear_poll.
      * apply Hclear, Hok.
      * eapply List.Forall_impl; [|exact Hp1]. intros x Hx. now apply plain_clear_poll.
    + intros Hset.
      apply Forall_app. split; [|apply Forall_app; split].
      * eapply List.Forall_impl; [|exact Hp3]. intros x Hx. now apply plain_no_tape_read.
      * apply Hread. intros t Ht. apply Hset. rewrite length_app in Ht. lia.
      * eapply List.Forall_impl; [|exact Hp1]. intros x Hx. now apply plain_no_tape_read.
Qed.

Lemma process_rows_forced e g tapeId rows :
  forall w tores resplist,
    flag_set_from e (length (w_log w)) ->
    exists d,
      w_log (fst (process_rows e g tapeId rows w tores resplist)) = d ++ w_log w
      /\ Forall (fun x => is_tape_read x = false) d.
Proof.
  induction rows as [|j rows IH]; intros w tores resplist Hset; cbn [process_rows].
  - exists []. split; [reflexivity|constructor].
  - match goal with
    | |- context [recall ?e ?g ?w ?ri ?t ?s ?ts] =>
        destruct (recall_log e g w ri t s ts) as (d1 & Hd1 & _ & _ & Hread);
        destruct (recall e g w ri t s ts) as [w1 r]
    end; cbn [fst] in *.
    match goal with
    | |- context [process_rows e g tapeId rows w1 ?t ?rl] =>
        destruct (IH w1 t rl) as (d2 & Hd2 & Hread2)
    end.
    { intros t Ht. apply Hset. rewrite Hd1, length_app in Ht. lia. }
    exists (d2 ++ d1). split; [rewrite Hd2, Hd1, app_assoc; reflexivity|].
    apply Forall_app. split; [exact Hread2|apply Hread, Hset].
Qed.

Lemma filter_none {A} (p : A -> bool) l :
  Forall (fun x => p x = false) l -> List.filter p l = [].
Proof.
  induction 1 as [|x l Hx _ IH]; cbn [List.filter]; [reflexivity|].
  now rewrite Hx.
Qed.

(** C6 (as amended).  In the loop of [processFiles], when a poll during
    the recall of one job finds the forced-terminate flag set, that job
    fails and is recorded as failed; and, the flag staying set, no byte is
    read from tape for any later job of the loop. *)
Theorem forced_terminate_fails_job_and_stops_tape_reads
    e g tapeId j rows w tores resplist :
  flag_stays_set e ->
  let recinfo := recinfo_of_row j (row_toresident j tores) in
  let w1 := fst (recall e g w recinfo tapeId (row_state j) (j_target_state j)) in
  let w2 := fst (process_rows e g tapeId (j :: rows) w tores resplist) in
  (exists t, In (Poll t true) (logged w w1)) ->
  snd (recall e g w recinfo tapeId (row_state j) (j_target_state j))
  = Raise general_error
  /\ snd (process_rows e g tapeId (j :: rows) w tores resplist) !! length resplist
     = Some (recinfo, false)
  /\ List.filter is_tape_read (logged w1 w2) = [].
Proof.
  intros Hmono recinfo w1 w2 [t Hin].
  destruct (recall_log e g w recinfo tapeId (row_state j) (j_target_state j))
    as (d & Hd & Hpoll & Hclear & _).
  destruct (recall_shape e g w recinfo tapeId (row_state j) (j_target_state j))
    as [_ Hraise].
  fold w1 in Hd. rewrite (logged_app w w1 d Hd) in Hin.
  assert (forcedTerminate e t = true /\ (t < length (w_log w1))%nat) as [Hset Ht].
  { rewrite List.Forall_forall in Hpoll. specialize (Hpoll _ Hin). cbn in Hpoll.
    rewrite Hd. destruct Hpoll as [-> [_ ?]]. split; [reflexivity|assumption]. }
  assert (snd (recall e g w recinfo tapeId (row_state j) (j_target_state j))
          = Raise general_error) as Hfail.
  { apply Hraise.
    destruct (is_ok (snd (recall e g w recinfo tapeId (row_state j)
                            (j_target_state j)))) eqn:Hok; [|reflexivity].
    exfalso. specialize (Hclear eq_refl).
    rewrite List.Forall_forall in Hclear. exact (Hclear _ Hin). }
  split; [exact Hfail|].
  subst w2. cbn [process_rows]. fold recinfo.
  destruct (recall e g w recinfo tapeId (row_state j) (j_target_state j))
    as [w1' r] eqn:Hrec.
  cbn [fst snd] in *. subst w1 r. cbn [is_ok].
  split.
  - destruct (process_rows_spec e g tapeId rows w1' (row_toresident j tores)
                (resplist ++ [(recinfo, false)])) as [_ [new [Hnew _]]].
    rewrite Hnew. rewrite <- app_assoc.
    rewrite lookup_app_r by lia. now rewrite Nat.sub_diag.
  - destruct (process_rows_forced e g tapeId rows w1' (row_toresident j tores)
                (resplist ++ [(recinfo, false)])) as (d2 & Hd2 & Hread).
    { intros t' Ht'. apply (Hmono t t'); [lia|exact Hset]. }
    rewrite (logged_app _ _ d2 Hd2). apply filter_none, Hread.
Qed.

Lemma env_forced_stays_set : flag_stays_set env_forced.
Proof.
  intros t t' Hle Ht. unfold env_forced, plain_env in *.
  cbn [forcedTerminate] in *.
  apply Nat.leb_le in Ht. apply Nat.leb_le. lia.
Qed.

Lemma env_forced_late_stays_set : flag_stays_set env_forced_late.
Proof.
  intros t t' Hle Ht. unfold env_forced_late, plain_env in *.
  cbn [forcedTerminate] in *.
  apply Nat.leb_le in Ht. apply Nat.leb_le. lia.
Qed.

Lemma env_forced_polled :
  exists t,
    In (Poll t true)
      (logged world_forced
         (fst (recall env_forced g0 world_forced
                 (recinfo_of_row row42 (row_toresident row42 false))
                 "T00001" (row_state row42) (j_target_state row42)))).
Proof. exists 6%nat. vm_compute. tauto. Qed.

(** The flag is set while the only chunk of inode 42 is written; the loop
    does not poll again, and the recall of inode 42 succeeds. *)
Lemma forced_terminate_job_may_succeed : ~ forced_terminate_stops_request.
Proof.
  intros H.
  destruct (H env_forced_late g0 "T00001"%string row42 [row43] world_forced false []
              env_forced_late_stays_set eq_refl) as [Hfail _].
  - exists 5%nat. vm_compute. split; [lia|reflexivity].
  - vm_compute in Hfail. discriminate.
Qed.

(** The job after the one the flag stopped is locked, finalised and
    answered. *)
Lemma forced_terminate_later_job_started : ~ forced_terminate_starts_no_job.
Proof.
  intros H.
  specialize (H env_forced g0 "T00001"%string row42 [row43] world_forced false []
                env_forced_stays_set env_forced_polled).
  vm_compute in H. discriminate.
Qed.

Lemma forced_terminate_fails_job_and_stops_tape_reads_witness :
  let recinfo := recinfo_of_row row42 (row_toresident row42 false) in
  let w1 := fst (recall env_forced g0 world_forced recinfo "T00001"
                   (row_state row42) (j_target_state row42)) in
  let w2 := fst (process_rows env_forced g0 "T00001" [row42; row43]
                   world_forced false []) in
  snd (recall env_forced g0 world_forced recinfo "T00001"
         (row_state row42) (j_target_state row42))
  = Raise general_error
  /\ snd (process_rows env_forced g0 "T00001" [row42; row43] world_forced false [])
       !! length (@nil (rec_info_t * bool))
     = Some (recinfo, false)
  /\ List.filter is_tape_read (logged w1 w2) = [].
Proof.
  exact (forced_terminate_fails_job_and_stops_tape_reads env_forced g0
           "T00001"%string row42 [row43] world_forced false []
           env_forced_stays_set env_forced_polled).
Defined.

Example forced_shutdown_run :
  let w := process_rows env_forced g0 "T00001" [row42; row43] world_forced false [] in
  rev (w_log (fst w))
  = [Lock fu42; TapeOpen "T00001/42" true; PrepareRecall fu42;
     Poll 3 false; TapeRead "T00001/42" 4; FileWrite fu42 0 (chunk 4) 4;
     Poll 6 true;
     Unlock fu42; TapeClose "T00001/42";
     Lock fu43; FinishRecall fu43 PREMIGRATED; Unlock fu43]
  /\ snd w = [(recinfo_of_row row42 false, false); (recinfo_of_row row43 false, true)].
Proof. vm_compute. split; reflexivity. Qed.

Example forced_late_run :
  let w := process_rows env_forced_late g0 "T00001" [row42; row43] world_forced
             false [] in
  rev (w_log (fst w))
  = [Lock fu42; TapeOpen "T00001/42" true; PrepareRecall fu42;
     Poll 3 false; TapeRead "T00001/42" 8; FileWrite fu42 0 (chunk 8) 8;
     TapeClose "T00001/42"; FinishRecall fu42 PREMIGRATED; Unlock fu42;
     Lock fu43; FinishRecall fu43 PREMIGRATED; Unlock fu43]
  /\ snd w = [(recinfo_of_row row42 false, true); (recinfo_of_row row43 false, true)].
Proof. vm_compute. split; reflexivity. Qed.

(** ** Responses over the life of the process *)

Lemma count_app {A} (p : A -> bool) l1 l2 :
  count p (l1 ++ l2) = (count p l1 + count p l2)%nat.
Proof. unfold count. now rewrite List.filter_app, length_app. Qed.

Lemma count_nil {A} (p : A -> bool) : count p [] = 0%nat.
Proof. reflexivity. Qed.

Lemma count_cons {A} (p : A -> bool) x l :
  count p (x :: l) = ((if p x then 1 else 0) + count p l)%nat.
Proof. unfold count. cbn. destruct (p x); reflexivity. Qed.

Lemma count_perm {A} (p : A -> bool) l1 l2 :
  Permutation l1 l2 -> count p l1 = count p l2.
Proof.
  induction 1 as [|x l1 l2 _ IH|x y l|l1 l2 l3 _ IH1 _ IH2];
    rewrite ?count_cons; lia.
Qed.

Lemma count_rev {A} (p : A -> bool) l : count p (rev l) = count p l.
Proof. apply count_perm, Permutation_sym, Permutation_rev. Qed.

Lemma count_split {A} (p q : A -> bool) l :
  count p l = (count p (List.filter q l)
               + count p (List.filter (fun x => negb (q x)) l))%nat.
Proof.
  induction l as [|x l IH]; [reflexivity|].
  cbn [List.filter]. destruct (q x); cbn [negb]; rewrite !count_cons; lia.
Qed.

Lemma responses_count c log : responses c log = count (responds_to c) log.
Proof. reflexivity. Qed.

Lemma dropped_count c w : dropped c w = count (handle_is c) (w_dropped w).
Proof. reflexivity. Qed.

Ltac close_account :=
  cbn [indicator mine andb negb orb];
  split; [lia|split; reflexivity].

Lemma account_run_iteration c w ev terminate :
  let recinfo := match ev with Ok r => r | Raise _ => w_recinfo w end in
  account c (run_iteration w ev terminate)
  = (account c w + hits c recinfo terminate)%nat
  /\ w_jobs (run_iteration w ev terminate) = w_jobs w
  /\ w_recinfo (run_iteration w ev terminate) = recinfo.
Proof.
  cbn zeta. unfold run_iteration, hits, taken.
  set (w0 := match ev with
             | Ok r => set_recinfo r w
             | Raise _ => emit (Msg LTFSDMS0036W) w
             end).
  assert (account c w0 = account c w /\ w_jobs w0 = w_jobs w
          /\ w_recinfo w0 = match ev with Ok r => r | Raise _ => w_recinfo w end)
    as (Hacc & Hjobs & Hri) by (destruct ev; subst w0; cbn; tauto).
  rewrite <- Hri, <- Hacc, <- Hjobs. clearbody w0. clear Hacc Hjobs Hri.
  destruct (conn_info (w_recinfo w0) =? 0); [close_account|].
  destruct terminate.
  { unfold account, respondRecallEvent.
    cbn [w_log w_jobs w_queue w_dropped w_recinfo emit].
    rewrite count_cons. cbn [responds_to negb andb orb].
    destruct (conn_info (w_recinfo w0) =? c); close_account. }
  destruct (inum (fuid (w_recinfo w0)) =? 0); [close_account|].
  cbn [negb andb orb].
  assert (forall x,
            account c (run_catch x (w_recinfo w0) w0)
            = (account c w0 + mine c (w_recinfo w0))%nat
            /\ w_jobs (run_catch x (w_recinfo w0) w0) = w_jobs w0
            /\ w_recinfo (run_catch x (w_recinfo w0) w0) = w_recinfo w0) as Hcatch.
  { intros [err n|]; unfold run_catch, account, respondRecallEvent, mine;
      cbn [w_log w_jobs w_queue w_dropped w_recinfo emit];
      rewrite !count_cons; cbn [responds_to];
      destruct (conn_info (w_recinfo w0) =? c); close_account. }
  destruct (w_fs w0 (fuid (w_recinfo w0))) as [fso|x]; [|apply Hcatch].
  destruct (getMigState fso) as [st|x]; [|apply Hcatch].
  destruct (file_state_eqb st RESIDENT).
  { unfold account, respondRecallEvent, update_file.
    cbn [w_log w_jobs w_queue w_dropped w_recinfo emit set_fs].
    rewrite !count_cons. cbn [responds_to].
    destruct (conn_info (w_recinfo w0) =? c); close_account. }
  destruct (getAttribute fso) as [attr|x]; [|apply Hcatch].
  destruct (w_reqmap w0 !! first_tape attr);
    unfold account, enqueue;
    cbn [w_log w_jobs w_queue w_dropped w_recinfo set_queue set_reqmap];
    rewrite count_app, count_cons, count_nil; unfold task_of at 2;
    cbn [tk_recinfo];
    destruct (conn_info (w_recinfo w0) =? c); close_account.
Qed.

Lemma account_addJob_try c e g w recinfo tapeId sqlname :
  match addJob_try e g w recinfo tapeId sqlname with
  | Returned w1 =>
      account c w1 = (account c w + mine c recinfo)%nat
      /\ w_jobs w1 = w_jobs w /\ w_queue w1 = w_queue w
      /\ w_recinfo w1 = w_recinfo w
  | Continue w1 _ _ _ _ =>
      account c w1 = account c w
      /\ w_jobs w1 = w_jobs w /\ w_queue w1 = w_queue w
      /\ w_recinfo w1 = w_recinfo w
  end.
Proof.
  assert (account c (addJob_catch sqlname w) = account c w
          /\ w_jobs (addJob_catch sqlname w) = w_jobs w
          /\ w_queue (addJob_catch sqlname w) = w_queue w
          /\ w_recinfo (addJob_catch sqlname w) = w_recinfo w) as Hcatch.
  { unfold addJob_catch. destruct (negb _); cbn; tauto. }
  unfold addJob_try.
  destruct (w_fs w (fuid recinfo)) as [fso|x]; [|exact Hcatch].
  destruct (FsObj.stat fso) as [sb|x]; [|exact Hcatch].
  destruct (negb (st_isreg sb)).
  { unfold account, drop, mine.
    cbn [w_log w_jobs w_queue w_dropped w_recinfo emit].
    rewrite !count_cons. unfold handle_is at 1. cbn [responds_to].
    destruct (conn_info recinfo =? c); cbn [indicator];
      (split; [lia|repeat split]). }
  destruct (getMigState fso) as [st|x]; [|exact Hcatch].
  destruct (file_state_eqb st RESIDENT).
  { unfold account, respondRecallEvent, mine.
    cbn [w_log w_jobs w_queue w_dropped w_recinfo emit].
    rewrite !count_cons. cbn [responds_to].
    destruct (conn_info recinfo =? c); cbn [indicator];
      (split; [lia|repeat split]). }
  destruct (getAttribute fso) as [attr|x]; [|exact Hcatch].
  destruct (getTapeName e (fuid recinfo) tapeId) as [tn|x]; [|exact Hcatch].
  repeat split.
Qed.

Lemma account_upsert_request c e w tapeId reqNum attr :
  account c (upsert_request e w tapeId reqNum attr) = account c w
  /\ w_jobs (upsert_request e w tapeId reqNum attr) = w_jobs w
  /\ w_queue (upsert_request e w tapeId reqNum attr) = w_queue w
  /\ w_recinfo (upsert_request e w tapeId reqNum attr) = w_recinfo w.
Proof.
  unfold upsert_request.
  destruct (CHECK_REQUEST_EXISTS (w_requests w) reqNum); cbn; tauto.
Qed.

Lemma account_addJob c e g w recinfo tapeId reqNum :
  account c (addJob e g w recinfo tapeId reqNum)
  = (account c w + mine c recinfo)%nat
  /\ (all_trarecall (w_jobs w) ->
      all_trarecall (w_jobs (addJob e g w recinfo tapeId reqNum)))
  /\ w_queue (addJob e g w recinfo tapeId reqNum) = w_queue w
  /\ w_recinfo (addJob e g w recinfo tapeId reqNum) = w_recinfo w.
Proof.
  unfold addJob.
  pose proof (account_addJob_try c e g w recinfo tapeId (sql_name recinfo)) as Htry.
  destruct (addJob_try e g w recinfo tapeId (sql_name recinfo))
    as [w1|w1 sb st attr tn].
  - destruct Htry as (Ha & Hj & Hq & Hr). rewrite Hj. tauto.
  - destruct Htry as (Ha & Hj & Hq & Hr).
    unfold ADD_JOB.
    destruct (existsb _ (w_jobs w1)).
    + unfold account, drop, mine in *.
      cbn [w_log w_jobs w_queue w_dropped w_recinfo].
      rewrite count_cons. unfold handle_is at 1. rewrite Hj in Ha |- *.
      destruct (conn_info recinfo =? c); cbn [indicator];
        (split; [lia|split; [tauto|split; assumption]]).
    + match goal with
      | |- context [upsert_request e ?w2 tapeId reqNum attr] =>
          destruct (account_upsert_request c e w2 tapeId reqNum attr)
            as (Ha' & Hj' & Hq' & Hr')
      end.
      rewrite Ha', Hj', Hq', Hr'. cbn [w_jobs w_queue w_recinfo set_jobs].
      split; [|split; [|split; assumption]].
      * rewrite <- Ha. unfold account, mine.
        cbn [w_log w_jobs w_queue w_dropped set_jobs].
        rewrite count_app, count_cons, count_nil. unfold job_of at 2.
        cbn [j_conn_info job_row].
        destruct (conn_info recinfo =? c); cbn [indicator]; lia.
      * intros Hall. rewrite Hj. apply Forall_app. split; [exact Hall|].
        constructor; [reflexivity|constructor].
Qed.

Lemma count_responds_filter c log :
  count (responds_to c) (List.filter is_respond log) = count (responds_to c) log.
Proof.
  induction log as [|x log IH]; [reflexivity|].
  cbn [List.filter]. destruct x; cbn [is_respond]; rewrite ?count_cons;
    cbn [responds_to]; lia.
Qed.

Lemma count_answers c rows resplist :
  Forall2 answers rows resplist ->
  count (responds_to c) (map to_effect resplist) = count (job_of c) rows.
Proof.
  induction 1 as [|j r rows resplist [tores Hr] _ IH]; [reflexivity|].
  cbn [map]. rewrite !count_cons, IH. unfold to_effect, job_of. cbn [responds_to].
  rewrite Hr. reflexivity.
Qed.

Lemma count_job_of_set_recalling c jobs new reqNum old tapeId :
  count (job_of c) (SET_RECALLING jobs new reqNum old tapeId) = count (job_of c) jobs.
Proof.
  unfold SET_RECALLING.
  induction jobs as [|j jobs IH]; [reflexivity|].
  cbn [map]. rewrite !count_cons, IH.
  destruct (_ && _); reflexivity.
Qed.

Lemma all_trarecall_set_recalling jobs new reqNum old tapeId :
  all_trarecall jobs -> all_trarecall (SET_RECALLING jobs new reqNum old tapeId).
Proof.
  unfold all_trarecall, SET_RECALLING. intros H.
  induction H as [|j jobs Hj _ IH]; cbn [map]; constructor; [|exact IH].
  destruct (_ && _); exact Hj.
Qed.

Lemma all_trarecall_filter p jobs :
  all_trarecall jobs -> all_trarecall (List.filter p jobs).
Proof.
  unfold all_trarecall. intros H.
  induction H as [|j jobs Hj _ IH]; cbn [List.filter]; [constructor|].
  destruct (p j); [constructor; assumption|exact IH].
Qed.

Lemma account_processFiles c e g w reqNum tapeId :
  account c (processFiles e g w reqNum tapeId) = account c w
  /\ (all_trarecall (w_jobs w) ->
      all_trarecall (w_jobs (processFiles e g w reqNum tapeId)))
  /\ w_queue (processFiles e g w reqNum tapeId) = w_queue w
  /\ w_recinfo (processFiles e g w reqNum tapeId) = w_recinfo w
  /\ w_inventory (processFiles e g w reqNum tapeId) = w_inventory w.
Proof.
  destruct (processFiles_spec e g w reqNum tapeId)
    as (resplist & Hans & Hjobs & _ & Hinv & Hri & _ & _ & Hq & Hd & Hlog).
  cbn zeta in *.
  split; [|split; [|split; [|split]]]; try assumption.
  - unfold account. rewrite Hjobs, Hq, Hd.
    rewrite <- (count_responds_filter c (w_log (processFiles e g w reqNum tapeId))).
    rewrite Hlog, count_app, count_rev, count_responds_filter.
    rewrite (count_answers c _ _ Hans).
    unfold SELECT_JOBS.
    rewrite (count_perm _ _ _ (order_by_start_block_perm _)).
    unfold DELETE_JOBS.
    pose proof (count_split (job_of c)
                  (recalling_job reqNum RECALLING_MIG RECALLING_PREMIG tapeId)
                  (claimed (w_jobs w) reqNum tapeId)) as Hsplit.
    unfold claimed in Hsplit at 1.
    rewrite !count_job_of_set_recalling in Hsplit.
    lia.
  - intros Hall. rewrite Hjobs. unfold DELETE_JOBS, claimed.
    apply all_trarecall_filter.
    apply all_trarecall_set_recalling, all_trarecall_set_recalling, Hall.
Qed.

Lemma account_execRequest c e g w reqNum tapeId w' :
  execRequest e g w reqNum tapeId = Some w' ->
  account c w' = account c w
  /\ (all_trarecall (w_jobs w) -> all_trarecall (w_jobs w'))
  /\ w_recinfo w' = w_recinfo w.
Proof.
  unfold execRequest. intros H.
  destruct (account_processFiles c e g w reqNum tapeId) as (Ha & Hall & Hq & Hri & _).
  destruct (release_tape _ tapeId) as [inv|]; [|discriminate].
  injection H as <-.
  destruct (negb (_ =? 0)); cbn; (split; [exact Ha|split; assumption]).
Qed.

Lemma count_delete {A} (p : A -> bool) (l : list A) i x :
  l !! i = Some x ->
  count p l = (indicator (p x) + count p (delete i l))%nat.
Proof.
  intros Hi. rewrite <- (take_drop_middle l i x Hi) at 1.
  rewrite delete_take_drop, !count_app, count_cons. unfold indicator. lia.
Qed.

Lemma cleanupEvents_log g rows :
  forall w,
    let w' := fold_left
                (fun w j =>
                   respondRecallEvent (recinfo_of_row j (g_toresident g)) false w)
                rows w in
    w_log w'
    = rev (map (fun j => Respond (recinfo_of_row j (g_toresident g)) false) rows)
      ++ w_log w
    /\ w_dropped w' = w_dropped w.
Proof.
  induction rows as [|j rows IH]; intros w; cbn [fold_left map rev].
  - tauto.
  - destruct (IH (respondRecallEvent (recinfo_of_row j (g_toresident g)) false w))
      as [Hl Hd].
    cbn zeta in *. rewrite Hl, Hd. cbn. now rewrite <- app_assoc.
Qed.

Lemma remaining_all jobs : all_trarecall jobs -> REMAINING_JOBS jobs TRARECALL = jobs.
Proof.
  unfold REMAINING_JOBS. intros H.
  induction H as [|j jobs Hj _ IH]; cbn [List.filter]; [reflexivity|].
  rewrite Hj, IH. reflexivity.
Qed.

Lemma count_failures c tores jobs :
  count (responds_to c)
    (map (fun j => Respond (recinfo_of_row j tores) false) jobs)
  = count (job_of c) jobs.
Proof.
  induction jobs as [|j jobs IH]; [reflexivity|].
  cbn [map]. rewrite !count_cons, IH. reflexivity.
Qed.

Example not_regular_run :
  let w := after [(env_two, Receive (Ok ri42) false); (env_two, Worker 0 g0)]
             (start (files [(fu42, directory)]) inventory0 ri43) in
  rev (w_log (run_shutdown env_two g0 w))
  = [Msg LTFSDMS0032E; Msg LTFSDMS0083I; Msg LTFSDMS0084I]
  /\ w_jobs w = [] /\ w_dropped w = [1001].
Proof. vm_compute. repeat split. Qed.

(** A throw of [getEvents] leaves [recinfo] as it was, and the turn handles
    the event before once more: here a resident file is answered twice. *)
Example getEvents_failure_run :
  let w := after [(env_two, Receive (Ok ri42) false);
                  (env_two, Receive (Raise StdException) false)] world_resident in
  rev (w_log w)
  = [FinishRecall fu42 RESIDENT; Msg LTFSDMS0039I; Respond ri42 true;
     Msg LTFSDMS0036W;
     FinishRecall fu42 RESIDENT; Msg LTFSDMS0039I; Respond ri42 true].
Proof. vm_compute. reflexivity. Qed.

(** Two events for one file while the first job is queued: the store
    refuses the second row, and the second event is left without a job. *)
Example same_file_twice_run :
  let ri42' := {| conn_info := 1003; toresident := true; fuid := fu42;
                  filename := "a.dat" |} in
  let w := after [(env_two, Receive (Ok ri42) false);
                  (env_two, Receive (Ok ri42') false);
                  (env_two, Worker 0 g0); (env_two, Worker 0 g0)] world_two in
  map j_conn_info (w_jobs w) = [1001] /\ w_dropped w = [1003].
Proof. vm_compute. split; reflexivity. Qed.

(** C5 (the code at the failing inputs).  [addJob] is called with
    T00001.  When [stat] throws, the request row gets the indeterminate
    [attr.tapeId[0]]; when the attribute lists T00002 first by the time
    [addJob] reads it, the request row gets T00002.  The job row has
    T00001 both times. *)
Theorem addJob_request_tape_differs :
  (let w' := addJob env_two g0 world_stat_fails ri42 "T00001" 1 in
   map j_tape_id (w_jobs w') = ["T00001"%string]
   /\ map r_tape_id (w_requests w') = first_tape (g_attr g0) :: [])
  /\ (let w' := addJob env_two g0 world_other_tape ri42 "T00001" 1 in
      map j_tape_id (w_jobs w') = ["T00001"%string]
      /\ map r_tape_id (w_requests w') = ["T00002"%string]).
Proof. vm_compute. repeat split. Qed.

(** * Further properties *)

(** ** The store: opening and closing *)

(** X1.  [DataBase::open] ends in one of two ways.  Either the four calls
    [sqlite3_config], [sqlite3_initialize], [sqlite3_open_v2] and
    [sqlite3_extended_result_codes] were made in this order and each
    answered SQLITE_OK; then [dbNeedsClosed] is set and FITS is registered
    with five arguments as the last call.  Or it throws
    [Error::LTFSDM_GENERAL_ERROR] right after the first of these calls
    that answered something else; then no later call is made, FITS is not
    registered and [dbNeedsClosed] is as it was.  The transaction mutex is
    not touched. *)
Theorem open_outcome e dbUseMemory s :
  let '(s', r) := DB.open e dbUseMemory s in
  let all :=
    [sqlite3_extended_result_codes;
     sqlite3_open_v2 (DB.open_uri e dbUseMemory) DB.open_flags;
     sqlite3_initialize; sqlite3_config] in
  trans_mutex s' = trans_mutex s
  /\ match r with
     | Normal =>
         dbNeedsClosed s' = true
         /\ calls s' = sqlite3_create_function "FITS" 5 :: all ++ calls s
         /\ answer e (calls s) sqlite3_config = SQLITE_OK
         /\ answer e (skipn 3 all ++ calls s) sqlite3_initialize = SQLITE_OK
         /\ answer e (skipn 2 all ++ calls s)
              (sqlite3_open_v2 (DB.open_uri e dbUseMemory) DB.open_flags)
            = SQLITE_OK
         /\ answer e (skipn 1 all ++ calls s) sqlite3_extended_result_codes
            = SQLITE_OK
     | Thrown v =>
         v = LTFSDM_GENERAL_ERROR e
         /\ dbNeedsClosed s' = dbNeedsClosed s
         /\ exists k c d,
              (k < 4)%nat /\ skipn k all = c :: d
              /\ calls s' = c :: d ++ calls s
              /\ answer e (d ++ calls s) c <> SQLITE_OK
     end.
Proof.
  unfold DB.open, invoke. cbn [calls dbNeedsClosed trans_mutex].
  destruct (Z.eqb_spec (answer e (calls s) sqlite3_config) SQLITE_OK) as [H1|H1];
    cbn [negb].
  2: { split; [reflexivity|]. split; [reflexivity|]. split; [reflexivity|].
       exists 3%nat, sqlite3_config, []. cbn. repeat split; try lia; assumption. }
  destruct (Z.eqb_spec (answer e (sqlite3_config :: calls s) sqlite3_initialize)
              SQLITE_OK) as [H2|H2]; cbn [negb].
  2: { split; [reflexivity|]. split; [reflexivity|]. split; [reflexivity|].
       exists 2%nat, sqlite3_initialize, [sqlite3_config]. cbn.
       repeat split; try lia; assumption. }
  destruct (Z.eqb_spec
              (answer e (sqlite3_initialize :: sqlite3_config :: calls s)
                 (sqlite3_open_v2 (DB.open_uri e dbUseMemory) DB.open_flags))
              SQLITE_OK) as [H3|H3]; cbn [negb].
  2: { split; [reflexivity|]. split; [reflexivity|]. split; [reflexivity|].
       eexists 1%nat, _, _. cbn. repeat split; try lia; assumption. }
  destruct (Z.eqb_spec
              (answer e
                 (sqlite3_open_v2 (DB.open_uri e dbUseMemory) DB.open_flags
                  :: sqlite3_initialize :: sqlite3_config :: calls s)
                 sqlite3_extended_result_codes)
              SQLITE_OK) as [H4|H4]; cbn [negb].
  2: { split; [reflexivity|]. split; [reflexivity|]. split; [reflexivity|].
       eexists 0%nat, _, _. cbn. repeat split; try lia; assumption. }
  cbn. repeat split; assumption.
Qed.

(** X2.  The destructor closes the database handle exactly when
    [DataBase::open] came to its end: for a store object that was never
    opened, [open] followed by the destructor calls [sqlite3_close] once if
    [open] returned, and never if it threw, whichever of its calls failed;
    a handle that [sqlite3_open_v2] produced before a later call failed is
    not closed.  [sqlite3_shutdown] is the last call in either case. *)
Theorem destructor_closes_iff_open_returned e dbUseMemory s :
  dbNeedsClosed s = false ->
  let '(s1, r) := DB.open e dbUseMemory s in
  let s2 := DB.DataBase_destructor e s1 in
  exists d,
    calls s2 = sqlite3_shutdown :: d ++ calls s
    /\ count is_close d = (match r with Normal => 1 | Thrown _ => 0 end)%nat.
Proof.
  intros Hs. unfold DB.open, DB.DataBase_destructor, invoke.
  cbn [calls dbNeedsClosed trans_mutex].
  destruct (negb (answer e (calls s) sqlite3_config =? SQLITE_OK));
    [cbn; rewrite Hs; cbn; eexists; split; [solve [log_ext]|reflexivity]|].
  destruct (negb (answer e (sqlite3_config :: calls s) sqlite3_initialize
                  =? SQLITE_OK));
    [cbn; rewrite Hs; cbn; eexists; split; [solve [log_ext]|reflexivity]|].
  destruct (negb (answer e (sqlite3_initialize :: sqlite3_config :: calls s)
                    (sqlite3_open_v2 (DB.open_uri e dbUseMemory) DB.open_flags)
                  =? SQLITE_OK));
    [cbn; rewrite Hs; cbn; eexists; split; [solve [log_ext]|reflexivity]|].
  destruct (negb (answer e
                    (sqlite3_open_v2 (DB.open_uri e dbUseMemory) DB.open_flags
                     :: sqlite3_initialize :: sqlite3_config :: calls s)
                    sqlite3_extended_result_codes
                  =? SQLITE_OK));
    [cbn; rewrite Hs; cbn; eexists; split; [solve [log_ext]|reflexivity]|].
  cbn. eexists. split; [solve [log_ext]|reflexivity].
Qed.

Lemma destructor_closes_iff_open_returned_witness :
  let '(s1, r) := DB.open lib_extended_fails false db0 in
  let s2 := DB.DataBase_destructor lib_extended_fails s1 in
  exists d,
    calls s2 = sqlite3_shutdown :: d ++ calls db0
    /\ count is_close d = (match r with Normal => 1 | Thrown _ => 0 end)%nat.
Proof.
  apply (destructor_closes_iff_open_returned lib_extended_fails false db0).
  reflexivity.
Defined.

(** The handle of a store file is opened and, [sqlite3_extended_result_codes]
    failing, never closed. *)
Example open_extended_fails_run :
  let '(s1, r) := DB.open lib_extended_fails false db0 in
  r = Thrown 1
  /\ rev (calls (DB.DataBase_destructor lib_extended_fails s1))
     = [sqlite3_config; sqlite3_initialize;
        sqlite3_open_v2 "file:/var/run/ltfsdm/ltfsdm.db" 196630;
        sqlite3_extended_result_codes; sqlite3_shutdown].
Proof. vm_compute. split; reflexivity. Qed.

Example open_memory_run :
  let '(s1, r) := DB.open lib_ok true db0 in
  r = Normal
  /\ rev (calls (DB.DataBase_destructor lib_ok s1))
     = [sqlite3_config; sqlite3_initialize;
        sqlite3_open_v2 "file::memory:" 196630;
        sqlite3_extended_result_codes; sqlite3_create_function "FITS" 5;
        sqlite3_close; sqlite3_shutdown].
Proof. vm_compute. split; reflexivity. Qed.

(** ** The store: creating the tables *)

Lemma run_statement_outcome e sql s :
  let '(s', r) := DB.run_statement e sql s in
  let h := sqlite3_statement.next_handle s in
  match r with
  | Normal =>
      calls s' = [sqlite3_finalize h; sqlite3_step h; sqlite3_prepare_v2 sql] ++ calls s
  | Thrown v =>
      exists c d,
        calls s' = c :: d ++ calls s
        /\ (c :: d = [sqlite3_prepare_v2 sql]
            \/ c :: d = [sqlite3_step h; sqlite3_prepare_v2 sql]
            \/ c :: d = [sqlite3_finalize h; sqlite3_step h; sqlite3_prepare_v2 sql])
        /\ v = answer e (d ++ calls s) c
        /\ v <> expected_of c
  end
  /\ dbNeedsClosed s' = dbNeedsClosed s /\ trans_mutex s' = trans_mutex s.
Proof.
  unfold DB.run_statement, sqlite3_statement.prepare, sqlite3_statement.step,
    sqlite3_statement.checkRcAndFinalize, invoke.
  cbn [calls dbNeedsClosed trans_mutex].
  set (h := sqlite3_statement.next_handle s).
  destruct (Z.eqb_spec (answer e (calls s) (sqlite3_prepare_v2 sql)) SQLITE_OK)
    as [H1|H1]; cbn [negb calls dbNeedsClosed trans_mutex].
  2: { split; [|split; reflexivity].
       exists (sqlite3_prepare_v2 sql), []. cbn. tauto. }
  destruct (Z.eqb_spec (answer e (sqlite3_prepare_v2 sql :: calls s) (sqlite3_step h))
              SQLITE_DONE) as [H2|H2]; cbn [negb calls dbNeedsClosed trans_mutex].
  2: { split; [|split; reflexivity].
       exists (sqlite3_step h), [sqlite3_prepare_v2 sql]. cbn. tauto. }
  destruct (Z.eqb_spec
              (answer e (sqlite3_step h :: sqlite3_prepare_v2 sql :: calls s)
                 (sqlite3_finalize h)) SQLITE_OK) as [H3|H3];
    cbn [negb calls dbNeedsClosed trans_mutex].
  2: { split; [|split; reflexivity].
       exists (sqlite3_finalize h), [sqlite3_step h; sqlite3_prepare_v2 sql].
       cbn. tauto. }
  cbn. tauto.
Qed.

Lemma next_handle_run_statement e sql s :
  snd (DB.run_statement e sql s) = Normal ->
  sqlite3_statement.next_handle (fst (DB.run_statement e sql s))
  = S (sqlite3_statement.next_handle s).
Proof.
  pose proof (run_statement_outcome e sql s) as H.
  destruct (DB.run_statement e sql s) as [s' r]. cbn [fst snd].
  intros ->. cbn zeta in H. destruct H as [H _].
  unfold sqlite3_statement.next_handle. rewrite H. reflexivity.
Qed.

(** X3.  [DataBase::createTables] returns only when, for JOB_QUEUE and
    then for REQUEST_QUEUE, the statement was prepared with SQLITE_OK,
    stepped with SQLITE_DONE and finalised with SQLITE_OK, in this order.
    Otherwise it throws the result code of the first call that answered
    something else and makes no call after it: REQUEST_QUEUE is not
    created when JOB_QUEUE was not, and a statement whose step did not
    answer SQLITE_DONE is left without [sqlite3_finalize]. *)
Theorem createTables_outcome e s :
  let '(s', r) := DB.createTables e s in
  let h := sqlite3_statement.next_handle s in
  let all :=
    [sqlite3_finalize (S h); sqlite3_step (S h);
     sqlite3_prepare_v2 DB.CREATE_REQUEST_QUEUE;
     sqlite3_finalize h; sqlite3_step h;
     sqlite3_prepare_v2 DB.CREATE_JOB_QUEUE] in
  match r with
  | Normal => calls s' = all ++ calls s
  | Thrown v =>
      exists k c d,
        (k < 6)%nat /\ skipn k all = c :: d
        /\ calls s' = c :: d ++ calls s
        /\ v = answer e (d ++ calls s) c
        /\ v <> expected_of c
  end.
Proof.
  unfold DB.createTables.
  pose proof (run_statement_outcome e DB.CREATE_JOB_QUEUE s) as H1.
  pose proof (next_handle_run_statement e DB.CREATE_JOB_QUEUE s) as Hh.
  destruct (DB.run_statement e DB.CREATE_JOB_QUEUE s) as [s1 r1].
  cbn zeta in *. cbn [fst snd] in Hh. destruct H1 as [H1 _].
  set (h := sqlite3_statement.next_handle s) in *.
  destruct r1 as [|v].
  - specialize (Hh eq_refl).
    pose proof (run_statement_outcome e DB.CREATE_REQUEST_QUEUE s1) as H2.
    destruct (DB.run_statement e DB.CREATE_REQUEST_QUEUE s1) as [s2 r2].
    cbn zeta in H2. destruct H2 as [H2 _]. rewrite Hh in H2.
    destruct r2 as [|v].
    + rewrite H2, H1. reflexivity.
    + destruct H2 as (c & d & Hc & Hd & Hv & Hne).
      rewrite H1 in Hc, Hv.
      destruct Hd as [Hd|[Hd|Hd]]; injection Hd as -> ->.
      * exists 2%nat. eexists _, _. cbn.
        repeat split; try lia; try eassumption.
      * exists 1%nat. eexists _, _. cbn.
        repeat split; try lia; try eassumption.
      * exists 0%nat. eexists _, _. cbn.
        repeat split; try lia; try eassumption.
  - destruct H1 as (c & d & Hc & Hd & Hv & Hne).
    destruct Hd as [Hd|[Hd|Hd]]; injection Hd as -> ->.
    + exists 5%nat. eexists _, _. cbn.
      repeat split; try lia; try eassumption.
    + exists 4%nat. eexists _, _. cbn.
      repeat split; try lia; try eassumption.
    + exists 3%nat. eexists _, _. cbn.
      repeat split; try lia; try eassumption.
Qed.

Example createTables_run :
  let '(s', r) := DB.createTables lib_ok db0 in
  r = Normal
  /\ map (fun c => match c with
                   | sqlite3_prepare_v2 sql => (0%nat, String.length sql)
                   | sqlite3_step k => (1%nat, k)
                   | sqlite3_finalize k => (2%nat, k)
                   | _ => (3%nat, 0%nat)
                   end) (rev (calls s'))
     = [(0, 539); (1, 0); (2, 0); (0, 275); (1, 1); (2, 1)]%nat.
Proof. vm_compute. split; reflexivity. Qed.

(** ** The store: transactions *)

(** X4.  [DataBase::beginTransaction], entered with the transaction mutex
    free, runs BEGIN and holds the mutex afterwards exactly when BEGIN
    answered SQLITE_OK: then the next [beginTransaction] has to wait.
    When BEGIN answers another code, that code is thrown and the mutex is
    free again, so that a further [beginTransaction] does not wait.
    Entered with the mutex held, it waits and does nothing. *)
Theorem beginTransaction_holds_mutex_iff_begun e s :
  let rc := answer e (calls s) (sqlite3_exec "BEGIN TRANSACTION;") in
  if trans_mutex s then DB.beginTransaction e s = None
  else
    exists s',
      calls s' = sqlite3_exec "BEGIN TRANSACTION;" :: calls s
      /\ dbNeedsClosed s' = dbNeedsClosed s
      /\ if rc =? SQLITE_OK
         then DB.beginTransaction e s = Some (s', Normal)
              /\ trans_mutex s' = true
              /\ DB.beginTransaction e s' = None
         else DB.beginTransaction e s = Some (s', Thrown rc)
              /\ trans_mutex s' = false
              /\ DB.beginTransaction e s' <> None.
Proof.
  cbn zeta. destruct (trans_mutex s) eqn:Hm.
  - unfold DB.beginTransaction. now rewrite Hm.
  - assert (forall s1, trans_mutex s1 = false ->
              DB.beginTransaction e s1 <> None) as Hfree.
    { intros s1 H1. unfold DB.beginTransaction, invoke. rewrite H1.
      destruct (negb _); discriminate. }
    unfold DB.beginTransaction at 1 3. rewrite Hm.
    unfold invoke. cbn [calls set_trans_mutex dbNeedsClosed trans_mutex].
    destruct (answer e (calls s) (sqlite3_exec "BEGIN TRANSACTION;") =? SQLITE_OK);
      cbn [negb]; eexists; (split; [|split; [|split; [reflexivity|split]]]);
      try reflexivity.
    apply Hfree. reflexivity.
Qed.

(** X5.  [DataBase::endTransaction] gives the transaction mutex back
    whatever END answers, also when it then throws the result code; so a
    [beginTransaction] that returned, followed by [endTransaction], leaves
    the mutex free for the next [beginTransaction], which does not
    wait. *)
Theorem endTransaction_always_unlocks e s :
  let '(s', r) := DB.endTransaction e s in
  let rc := answer e (calls s) (sqlite3_exec "END TRANSACTION;") in
  trans_mutex s' = false
  /\ calls s' = sqlite3_exec "END TRANSACTION;" :: calls s
  /\ r = (if rc =? SQLITE_OK then Normal else Thrown rc)
  /\ DB.beginTransaction e s' <> None.
Proof.
  unfold DB.endTransaction, invoke. cbn [calls].
  destruct (answer e (calls s) (sqlite3_exec "END TRANSACTION;") =? SQLITE_OK);
    cbn [negb]; (split; [reflexivity|split; [reflexivity|split; [reflexivity|]]]);
    unfold DB.beginTransaction, invoke; cbn [trans_mutex set_trans_mutex calls];
    destruct (negb _); discriminate.
Qed.

(** A BEGIN that finds the store busy, the retry, and the END. *)
Example transaction_retry_run :
  match DB.beginTransaction lib_busy_once db0 with
  | Some (s1, r1) =>
      r1 = Thrown 5 /\ trans_mutex s1 = false
      /\ match DB.beginTransaction lib_busy_once s1 with
         | Some (s2, r2) =>
             r2 = Normal /\ trans_mutex s2 = true
             /\ DB.beginTransaction lib_busy_once s2 = None
             /\ trans_mutex (fst (DB.endTransaction lib_busy_once s2)) = false
         | None => False
         end
  | None => False
  end.
Proof. vm_compute. repeat split. Qed.

(** ** FITS over the rows of a query *)

Lemma u64_add_l a b : u64 (u64 a + b) = u64 (a + b).
Proof. unfold u64. apply Zplus_mod_idemp_l. Qed.

Lemma fits_cases m inode size free num_found total :
  u64 free <> u64 num_found ->
  u64 free <> u64 total ->
  u64 num_found <> u64 total ->
  let ok := u64 size <=? load m (u64 free) in
  exists m',
    fits m [inode; size; free; num_found; total] = Some (m', if ok then 1 else 0)
    /\ load m' (u64 free) = load m (u64 free) - (if ok then u64 size else 0)
    /\ load m' (u64 num_found)
       = u64 (load m (u64 num_found) + (if ok then 1 else 0))
    /\ load m' (u64 total) = u64 (load m (u64 total) + 1)
    /\ forall p, p <> u64 free -> p <> u64 num_found -> p <> u64 total -> m' p = m p.
Proof.
  intros Hfn Hft Hnt. cbn zeta. unfold fits.
  destruct (Z.leb_spec (u64 size) (load m (u64 free))) as [Hle|Hlt];
    eexists; (split; [reflexivity|]).
  - split; [|split; [|split]].
    + rewrite load_store_other by congruence.
      rewrite load_store_other by congruence.
      rewrite load_store_same. apply u64_small.
      pose proof (load_range m (u64 free)). pose proof (u64_range size). lia.
    + rewrite load_store_same.
      rewrite load_store_other by congruence.
      rewrite load_store_other by congruence. reflexivity.
    + rewrite load_store_other by congruence.
      rewrite load_store_same.
      rewrite load_store_other by congruence. reflexivity.
    + intros p H1 H2 H3. unfold store.
      destruct (Z.eqb_spec p (u64 num_found)); [contradiction|].
      destruct (Z.eqb_spec p (u64 total)); [contradiction|].
      destruct (Z.eqb_spec p (u64 free)); [contradiction|]. reflexivity.
  - split; [|split; [|split]].
    + rewrite load_store_other by congruence. lia.
    + rewrite load_store_other by congruence.
      rewrite Z.add_0_r. unfold load. now rewrite u64_idem.
    + apply load_store_same.
    + intros p H1 H2 H3. unfold store.
      destruct (Z.eqb_spec p (u64 total)); [contradiction|]. reflexivity.
Qed.

(** X6.  FITS called for the rows of a query one after the other, with
    pointers to three different words: every call answers 0 or 1; the
    sizes of the rows it accepted and what is left in [*free] add up to
    what [*free] held before, so [*free] never wraps; [*num_found] has
    grown by the number of rows accepted and [*total] by the number of
    rows (both in [unsigned long]); no other word of memory is written. *)
Theorem fits_rows_conserve_free free num_found total rows :
  u64 free <> u64 num_found ->
  u64 free <> u64 total ->
  u64 num_found <> u64 total ->
  forall m,
  exists m' rs,
    fits_rows m free num_found total rows = Some (m', rs)
    /\ length rs = length rows
    /\ Forall (fun r => r = 0 \/ r = 1) rs
    /\ load m' (u64 free) + accepted rows rs = load m (u64 free)
    /\ load m' (u64 num_found) = u64 (load m (u64 num_found) + sum_of rs)
    /\ load m' (u64 total) = u64 (load m (u64 total) + Z.of_nat (length rows))
    /\ forall p, p <> u64 free -> p <> u64 num_found -> p <> u64 total -> m' p = m p.
Proof.
  intros Hfn Hft Hnt.
  induction rows as [|[inode size] rows IH]; intros m; cbn [fits_rows].
  - exists m, []. cbn. repeat split; try lia; try constructor.
    + rewrite Z.add_0_r. unfold load. now rewrite u64_idem.
    + rewrite Z.add_0_r. unfold load. now rewrite u64_idem.
  - destruct (fits_cases m inode size free num_found total Hfn Hft Hnt)
      as (m1 & Hrun & Hf & Hn & Ht & Hframe).
    rewrite Hrun.
    destruct (IH m1) as (m2 & rs & Hrun' & Hlen & Hall & Hf' & Hn' & Ht' & Hframe').
    rewrite Hrun'. eexists _, _. split; [reflexivity|].
    split; [cbn; now rewrite Hlen|].
    split; [constructor; [destruct (_ <=? _); tauto|exact Hall]|].
    split; [|split; [|split]].
    + cbn [accepted]. rewrite <- Hf' in Hf.
      destruct (u64 size <=? load m (u64 free)); cbn; lia.
    + rewrite Hn', Hn, u64_add_l. cbn [sum_of fold_right]. fold (sum_of rs).
      f_equal. lia.
    + rewrite Ht', Ht, u64_add_l. f_equal. cbn [length]. lia.
    + intros p H1 H2 H3. rewrite Hframe' by assumption. now apply Hframe.
Qed.

Lemma fits_rows_conserve_free_witness :
  exists m' rs,
    fits_rows mem0 8 16 24 [(42, 30); (43, 80); (44, 70)] = Some (m', rs)
    /\ length rs = length [(42, 30); (43, 80); (44, 70)]
    /\ Forall (fun r => r = 0 \/ r = 1) rs
    /\ load m' (u64 8) + accepted [(42, 30); (43, 80); (44, 70)] rs
       = load mem0 (u64 8)
    /\ load m' (u64 16) = u64 (load mem0 (u64 16) + sum_of rs)
    /\ load m' (u64 24)
       = u64 (load mem0 (u64 24) + Z.of_nat (length [(42, 30); (43, 80); (44, 70)]))
    /\ forall p, p <> u64 8 -> p <> u64 16 -> p <> u64 24 -> m' p = mem0 p.
Proof.
  apply (fits_rows_conserve_free 8 16 24 [(42, 30); (43, 80); (44, 70)]);
    vm_compute; discriminate.
Defined.

(** Of 100 free bytes the rows of 30 and 70 bytes fit, the row of 80
    between them does not. *)
Example fits_rows_run :
  option_map (fun '(m', rs) => (rs, load m' 8, load m' 16, load m' 24))
    (fits_rows mem0 8 16 24 [(42, 30); (43, 80); (44, 70)])
  = Some ([1; 0; 1], 0, 9, 12).
Proof. reflexivity. Qed.

(** ** The job writer: what a call changes *)

Lemma steady_refl w : steady w w.
Proof. unfold steady. tauto. Qed.

Lemma steady_trans w1 w2 w3 : steady w1 w2 -> steady w2 w3 -> steady w1 w3.
Proof. unfold steady. intuition congruence. Qed.

(** A call of [addJob] either leaves both tables as they are and does not
    signal the scheduler, or appends one job row, puts the request row in
    place and signals as the last thing it does. *)
Lemma addJob_cases e g w recinfo tapeId reqNum :
  let w' := addJob e g w recinfo tapeId reqNum in
  steady w w'
  /\ ((w_jobs w' = w_jobs w /\ w_requests w' = w_requests w
       /\ exists d, w_log w' = d ++ w_log w
                    /\ Forall (fun x => is_notify x = false) d)
      \/ exists sb st tn attr d,
           existsb (job_conflict (job_row e recinfo tapeId reqNum sb st tn)) (w_jobs w)
           = false
           /\ w_jobs w' = w_jobs w ++ [job_row e recinfo tapeId reqNum sb st tn]
           /\ w_requests w' = upserted e (w_requests w) tapeId reqNum attr
           /\ w_log w' = Notify :: d ++ w_log w
           /\ Forall (fun x => is_msg x = true) d
           /\ w_dropped w' = w_dropped w).
Proof.
  cbn zeta. unfold addJob.
  assert (match addJob_try e g w recinfo tapeId (sql_name recinfo) with
          | Returned w1 =>
              steady w w1 /\ w_jobs w1 = w_jobs w /\ w_requests w1 = w_requests w
              /\ exists d, w_log w1 = d ++ w_log w
                           /\ Forall (fun x => is_notify x = false) d
          | Continue w1 _ _ _ _ =>
              steady w w1 /\ w_jobs w1 = w_jobs w /\ w_requests w1 = w_requests w
              /\ w_dropped w1 = w_dropped w
              /\ exists d, w_log w1 = d ++ w_log w
                           /\ Forall (fun x => is_msg x = true) d
          end) as Htry.
  { assert (steady w (addJob_catch (sql_name recinfo) w)
            /\ w_jobs (addJob_catch (sql_name recinfo) w) = w_jobs w
            /\ w_requests (addJob_catch (sql_name recinfo) w) = w_requests w
            /\ w_dropped (addJob_catch (sql_name recinfo) w) = w_dropped w
            /\ exists d, w_log (addJob_catch (sql_name recinfo) w) = d ++ w_log w
                         /\ Forall (fun x => is_msg x = true) d) as Hcatch.
    { unfold addJob_catch.
      destruct (negb _); (split; [unfold steady; cbn; tauto|]); cbn;
        repeat (split; [reflexivity|]);
        eexists [_]; repeat split; repeat constructor. }
    unfold addJob_try.
    destruct (w_fs w (fuid recinfo)) as [fso|x].
    2: { exact Hcatch. }
    destruct (FsObj.stat fso) as [sb|x].
    2: { exact Hcatch. }
    destruct (negb (st_isreg sb)).
    { split; [unfold steady; cbn; tauto|]. cbn. repeat (split; [reflexivity|]).
      eexists [_]. split; [reflexivity|]. repeat constructor. }
    destruct (getMigState fso) as [st|x].
    2: { exact Hcatch. }
    destruct (file_state_eqb st RESIDENT).
    { split; [unfold steady; cbn; tauto|]. cbn. repeat (split; [reflexivity|]).
      eexists [_; _]. split; [reflexivity|]. repeat constructor. }
    destruct (getAttribute fso) as [attr|x].
    2: { exact Hcatch. }
    destruct (getTapeName e (fuid recinfo) tapeId) as [tn|x].
    2: { exact Hcatch. }
    split; [unfold steady; cbn; tauto|]. repeat (split; [reflexivity|]).
    exists []. split; [reflexivity|constructor]. }
  destruct (addJob_try e g w recinfo tapeId (sql_name recinfo))
    as [w1|w1 sb st attr tn].
  - destruct Htry as (Hs & Hj & Hr & d & Hl & Hd).
    split; [exact Hs|]. left. repeat split; try assumption. exists d. tauto.
  - destruct Htry as (Hs & Hj & Hr & Hdr & d & Hl & Hd).
    unfold ADD_JOB. rewrite Hj.
    destruct (existsb _ (w_jobs w)) eqn:Hconf.
    + split; [exact Hs|]. left. cbn [w_jobs w_requests w_log drop].
      repeat split; try assumption. exists d. split; [exact Hl|].
      eapply List.Forall_impl; [|exact Hd]. intros [] H; try discriminate; reflexivity.
    + split.
      * eapply steady_trans; [exact Hs|]. unfold upsert_request.
        destruct (CHECK_REQUEST_EXISTS _ reqNum); unfold steady; cbn; tauto.
      * right. exists sb, st, tn, attr, d.
        split; [exact Hconf|].
        unfold upsert_request, upserted. cbn [w_requests set_jobs]. rewrite Hr.
        destruct (CHECK_REQUEST_EXISTS (w_requests w) reqNum);
          cbn [w_jobs w_requests w_log w_dropped emit set_requests set_jobs];
          rewrite Hl; repeat split; assumption.
Qed.

Lemma check_request_exists_in reqs reqNum :
  CHECK_REQUEST_EXISTS reqs reqNum <> [] <-> In reqNum (map r_req_num reqs).
Proof.
  unfold CHECK_REQUEST_EXISTS. induction reqs as [|r reqs IH]; cbn.
  - tauto.
  - destruct (Z.eqb_spec (r_req_num r) reqNum) as [Heq|Hne].
    + split; [tauto|discriminate].
    + rewrite IH. intuition.
Qed.

Lemma map_req_num_change reqs st reqNum tapeId :
  map r_req_num (CHANGE_REQUEST_TO_NEW reqs st reqNum tapeId) = map r_req_num reqs.
Proof.
  unfold CHANGE_REQUEST_TO_NEW. rewrite map_map. apply map_ext.
  intros r. destruct (request_matches reqNum tapeId r); reflexivity.
Qed.

Lemma upserted_numbers e reqs tapeId reqNum attr :
  (In reqNum (map r_req_num reqs)
   /\ map r_req_num (upserted e reqs tapeId reqNum attr) = map r_req_num reqs)
  \/ (~ In reqNum (map r_req_num reqs)
      /\ map r_req_num (upserted e reqs tapeId reqNum attr)
         = map r_req_num reqs ++ [reqNum]).
Proof.
  unfold upserted.
  pose proof (check_request_exists_in reqs reqNum) as H.
  destruct (CHECK_REQUEST_EXISTS reqs reqNum) as [|r l].
  - right. split; [intros Hin; apply H in Hin; contradiction|].
    unfold ADD_REQUEST. rewrite map_app. reflexivity.
  - left. split; [apply H; discriminate|]. apply map_req_num_change.
Qed.


(** X7.  A call of [addJob] signals the scheduler exactly when it has
    inserted a job row.  Either it leaves both tables as they are and
    does not signal; or it appends one job row, which carries the
    connection handle of the event, the request number and the tape id it
    was called with and the target state the event asks for, leaves a
    request row of that number in the table, which has grown by at most
    one row, sends no response, and the signal is the last thing it
    does. *)
Theorem addJob_signals_iff_inserted e g w recinfo tapeId reqNum :
  let w' := addJob e g w recinfo tapeId reqNum in
  (w_jobs w' = w_jobs w /\ w_requests w' = w_requests w
   /\ count is_notify (w_log w') = count is_notify (w_log w))
  \/ (exists row,
        w_jobs w' = w_jobs w ++ [row]
        /\ j_operation row = TRARECALL /\ j_conn_info row = conn_info recinfo
        /\ j_req_num row = reqNum /\ j_tape_id row = tapeId
        /\ j_target_state row = (if toresident recinfo then RESIDENT else PREMIGRATED)
        /\ In reqNum (map r_req_num (w_requests w'))
        /\ (length (w_requests w) <= length (w_requests w')
            <= S (length (w_requests w)))%nat
        /\ hd_error (w_log w') = Some Notify
        /\ count is_notify (w_log w') = S (count is_notify (w_log w))
        /\ count is_respond (w_log w') = count is_respond (w_log w)).
Proof.
  cbn zeta.
  destruct (addJob_cases e g w recinfo tapeId reqNum) as [_ [H|H]].
  - left. destruct H as (Hj & Hr & d & Hl & Hd).
    repeat split; try assumption.
    rewrite Hl, count_app. unfold count at 1.
    rewrite (filter_none is_notify d Hd). reflexivity.
  - right. destruct H as (sb & st & tn & attr & d & _ & Hj & Hr & Hl & Hd & _).
    eexists. split; [exact Hj|].
    repeat (split; [reflexivity|]).
    assert (count is_notify d = 0%nat /\ count is_respond d = 0%nat) as [Hn Hp].
    { unfold count. rewrite !filter_none; [tauto| |];
        (eapply List.Forall_impl; [|exact Hd]);
        intros [] Hx; try discriminate; reflexivity. }
    split; [|split; [|split; [|split]]].
    + rewrite Hr.
      destruct (upserted_numbers e (w_requests w) tapeId reqNum attr)
        as [[Hin ->]|[_ ->]]; [exact Hin|].
      apply in_or_app. right. left. reflexivity.
    + rewrite Hr.
      destruct (upserted_numbers e (w_requests w) tapeId reqNum attr)
        as [[_ Hlen]|[_ Hlen]]; apply (f_equal (@length Z)) in Hlen;
        rewrite ?length_app, !length_map in Hlen; cbn in Hlen; lia.
    + rewrite Hl. reflexivity.
    + rewrite Hl, count_cons, count_app, Hn. reflexivity.
    + rewrite Hl, count_cons, count_app, Hp. reflexivity.
Qed.

(** ** One request row for a request number *)

Lemma nodup_snoc {A} (l : list A) x : ~ In x l -> List.NoDup l -> List.NoDup (l ++ [x]).
Proof.
  intros Hx Hl. eapply Permutation_NoDup; [apply Permutation_cons_append|].
  constructor; assumption.
Qed.

Lemma nodup_map_filter {A B} (f : A -> B) (p : A -> bool) l :
  List.NoDup (map f l) -> List.NoDup (map f (List.filter p l)).
Proof.
  induction l as [|x l IH]; cbn; [tauto|].
  intros H. inversion H as [|? ? Hx Hl]; subst.
  destruct (p x); [|apply IH, Hl].
  cbn. constructor; [|apply IH, Hl].
  intros Hin. apply Hx. apply in_map_iff in Hin.
  destruct Hin as (y & Hy & Hin). apply List.filter_In in Hin.
  apply in_map_iff. exists y. tauto.
Qed.

Lemma execRequest_tables e g w reqNum tapeId w' :
  execRequest e g w reqNum tapeId = Some w' ->
  let w1 := processFiles e g w reqNum tapeId in
  w_jobs w' = w_jobs w1
  /\ (w_requests w' = CHANGE_REQUEST_TO_NEW (w_requests w) REQ_NEW reqNum tapeId
      \/ w_requests w' = DELETE_REQUEST (w_requests w) reqNum tapeId)
  /\ w_reqmap w' = w_reqmap w /\ w_globalReqNumber w' = w_globalReqNumber w
  /\ w_queue w' = w_queue w /\ w_fs w' = w_fs w1
  /\ w_log w' = Notify :: w_log w1.
Proof.
  unfold execRequest. intros H. cbn zeta.
  destruct (processFiles_spec e g w reqNum tapeId)
    as (rl & _ & _ & Hr & _ & _ & Hm & Hn & Hq & _).
  cbn zeta in *.
  destruct (release_tape _ tapeId) as [inv|]; [|discriminate].
  injection H as <-.
  destruct (negb (_ =? 0)); cbn; rewrite Hr; tauto.
Qed.

Lemma step_request_numbers e a w w' :
  step e a w = Some w' ->
  List.NoDup (map r_req_num (w_requests w)) ->
  List.NoDup (map r_req_num (w_requests w')).
Proof.
  destruct a as [ev term|i g|g reqNum tapeId|fs]; cbn [step]; intros H Hnd.
  - injection H as <-.
    assert (w_requests (run_iteration w ev term) = w_requests w) as ->; [|exact Hnd].
    unfold run_iteration.
    set (w0 := match ev with
               | Ok r => set_recinfo r w
               | Raise _ => emit (Msg LTFSDMS0036W) w
               end).
    assert (w_requests w0 = w_requests w) as <- by (destruct ev; reflexivity).
    clearbody w0.
    assert (forall x, w_requests (run_catch x (w_recinfo w0) w0) = w_requests w0)
      as Hcatch by (intros [err n|]; reflexivity).
    destruct (conn_info (w_recinfo w0) =? 0); [reflexivity|].
    destruct term; [reflexivity|].
    destruct (inum (fuid (w_recinfo w0)) =? 0); [reflexivity|].
    destruct (w_fs w0 (fuid (w_recinfo w0))) as [fso|x]; [|apply Hcatch].
    destruct (getMigState fso) as [st|x]; [|apply Hcatch].
    destruct (file_state_eqb st RESIDENT); [reflexivity|].
    destruct (getAttribute fso) as [attr|x]; [|apply Hcatch].
    destruct (w_reqmap w0 !! first_tape attr); reflexivity.
  - destruct (w_queue w !! i) as [tk|]; injection H as <-; [|exact Hnd].
    match goal with
    | |- context [addJob e g ?w0 ?ri ?t ?n] =>
        destruct (addJob_cases e g w0 ri t n) as [_ [Hc|Hc]]
    end.
    + destruct Hc as (_ & Hr & _). rewrite Hr. exact Hnd.
    + destruct Hc as (sb & st & tn & attr & d & _ & _ & Hr & _).
      rewrite Hr. cbn [w_requests set_queue].
      destruct (upserted_numbers e (w_requests w) (tk_tapeId tk) (tk_reqNum tk) attr)
        as [[_ ->]|[Hn ->]]; [exact Hnd|].
      apply nodup_snoc; assumption.
  - destruct (execRequest_tables e g w reqNum tapeId w' H) as (_ & [Hr|Hr] & _);
      rewrite Hr.
    + rewrite map_req_num_change. exact Hnd.
    + apply nodup_map_filter, Hnd.
  - injection H as <-. exact Hnd.
Qed.

(** X8.  However the receiver, the job writers, the scheduler's request
    executions and the file systems take turns, the request table never
    holds two rows with the same request number when it did not hold two
    before: the events that get the same request number share one request
    row. *)
Theorem one_request_row_per_number sched :
  forall w w',
    run_schedule sched w = Some w' ->
    List.NoDup (map r_req_num (w_requests w)) ->
    List.NoDup (map r_req_num (w_requests w')).
Proof.
  induction sched as [|[e a] sched IH]; intros w w' H Hnd; cbn [run_schedule] in H.
  - injection H as <-. exact Hnd.
  - destruct (step e a w) as [w1|] eqn:Hs; [|discriminate].
    eapply IH; [exact H|]. eapply step_request_numbers; eassumption.
Qed.

Lemma one_request_row_per_number_witness :
  List.NoDup (map r_req_num (w_requests world_two_queued)).
Proof.
  apply (one_request_row_per_number
           [(env_two, Receive (Ok ri42) false); (env_two, Receive (Ok ri43) false);
            (env_two, Worker 0 g0); (env_two, Worker 0 g0)]
           world_two world_two_queued).
  - vm_compute. reflexivity.
  - constructor.
Defined.

(** ** Request numbers *)

Lemma numbered_same w w' :
  w_reqmap w' = w_reqmap w -> w_globalReqNumber w' = w_globalReqNumber w ->
  w_queue w' = w_queue w -> w_jobs w' = w_jobs w ->
  numbered w -> numbered w'.
Proof. unfold numbered. intros -> -> -> ->. tauto. Qed.

Lemma run_iteration_numbers w ev terminate :
  let w' := run_iteration w ev terminate in
  w_jobs w' = w_jobs w
  /\ w_requests w' = w_requests w
  /\ ((w_reqmap w' = w_reqmap w /\ w_globalReqNumber w' = w_globalReqNumber w
       /\ w_queue w' = w_queue w)
      \/ exists recinfo tapeId,
           w_queue w'
           = w_queue w ++ [{| tk_recinfo := recinfo; tk_tapeId := tapeId;
                              tk_reqNum := default 0 (w_reqmap w' !! tapeId) |}]
           /\ ((w_reqmap w' = w_reqmap w
                /\ w_globalReqNumber w' = w_globalReqNumber w
                /\ is_Some (w_reqmap w !! tapeId))
               \/ (w_reqmap w !! tapeId = None
                   /\ w_reqmap w' = <[tapeId := w_globalReqNumber w + 1]> (w_reqmap w)
                   /\ w_globalReqNumber w' = w_globalReqNumber w + 1))).
Proof.
  cbn zeta. unfold run_iteration.
  set (w0 := match ev with
             | Ok r => set_recinfo r w
             | Raise _ => emit (Msg LTFSDMS0036W) w
             end).
  assert (w_jobs w0 = w_jobs w /\ w_requests w0 = w_requests w
          /\ w_reqmap w0 = w_reqmap w /\ w_globalReqNumber w0 = w_globalReqNumber w
          /\ w_queue w0 = w_queue w) as (Hj & Hr & Hm & Hn & Hq)
    by (destruct ev; subst w0; cbn; tauto).
  rewrite <- Hj, <- Hr, <- Hm, <- Hn, <- Hq. clearbody w0. clear Hj Hr Hm Hn Hq.
  assert (forall x,
            w_jobs (run_catch x (w_recinfo w0) w0) = w_jobs w0
            /\ w_requests (run_catch x (w_recinfo w0) w0) = w_requests w0
            /\ w_reqmap (run_catch x (w_recinfo w0) w0) = w_reqmap w0
            /\ w_globalReqNumber (run_catch x (w_recinfo w0) w0) = w_globalReqNumber w0
            /\ w_queue (run_catch x (w_recinfo w0) w0) = w_queue w0) as Hcatch
    by (intros [err n|]; cbn; tauto).
  destruct (conn_info (w_recinfo w0) =? 0); [tauto|].
  destruct terminate; [cbn; tauto|].
  destruct (inum (fuid (w_recinfo w0)) =? 0); [tauto|].
  destruct (w_fs w0 (fuid (w_recinfo w0))) as [fso|x];
    [|destruct (Hcatch x) as (-> & -> & -> & -> & ->); tauto].
  destruct (getMigState fso) as [st|x];
    [|destruct (Hcatch x) as (-> & -> & -> & -> & ->); tauto].
  destruct (file_state_eqb st RESIDENT); [cbn; tauto|].
  destruct (getAttribute fso) as [attr|x];
    [|destruct (Hcatch x) as (-> & -> & -> & -> & ->); tauto].
  destruct (w_reqmap w0 !! first_tape attr) as [n|] eqn:Hlook.
  - cbn. split; [reflexivity|]. split; [reflexivity|]. right.
    exists (w_recinfo w0), (first_tape attr). split; [reflexivity|].
    left. rewrite Hlook. repeat split. eexists. reflexivity.
  - cbn. split; [reflexivity|]. split; [reflexivity|]. right.
    exists (w_recinfo w0), (first_tape attr). split; [reflexivity|].
    right. tauto.
Qed.

Lemma numbered_run_iteration w ev terminate :
  numbered w -> numbered (run_iteration w ev terminate).
Proof.
  intros Hnum.
  destruct (run_iteration_numbers w ev terminate) as (Hj & _ & H). cbn zeta in *.
  destruct H as [(Hm & Hn & Hq)|(ri & t & Hq & H)].
  - eapply numbered_same; eassumption.
  - destruct Hnum as (H0 & Hb & Hi & Hqu & Hjo). unfold numbered.
    rewrite Hq, Hj.
    destruct H as [(Hm & Hn & [n Hl])|(Hl & Hm & Hn)]; rewrite Hm, Hn.
    + repeat split; try assumption.
      * apply (Hb t0 n0 H).
      * apply (Hb t0 n0 H).
      * apply Forall_app. split; [exact Hqu|].
        constructor; [|constructor]. cbn. rewrite Hl. reflexivity.
    + assert (forall t' n', w_reqmap w !! t' = Some n' -> t' <> t) as Hne
        by (intros t' n' H' ->; congruence).
      split; [lia|]. split; [|split; [|split]].
      * intros t' n'. destruct (decide (t' = t)) as [->|Hd].
        -- rewrite lookup_insert_eq. intros [= <-]. lia.
        -- rewrite lookup_insert_ne by congruence. intros H'.
           specialize (Hb t' n' H'). lia.
      * intros t1 t2 n'.
        destruct (decide (t1 = t)) as [->|H1]; destruct (decide (t2 = t)) as [->|H2];
          rewrite ?lookup_insert_eq, ?lookup_insert_ne by congruence.
        -- reflexivity.
        -- intros [= <-] H'. specialize (Hb t2 _ H'). lia.
        -- intros H' [= <-]. specialize (Hb t1 _ H'). lia.
        -- apply Hi.
      * apply Forall_app. split.
        -- eapply List.Forall_impl; [|exact Hqu]. intros tk Htk. cbn in Htk.
           rewrite lookup_insert_ne; [exact Htk|].
           intros Heq. rewrite <- Heq in Htk. congruence.
        -- constructor; [|constructor]. cbn. rewrite !lookup_insert_eq. reflexivity.
      * eapply List.Forall_impl; [|exact Hjo]. intros j Hjb. cbn in Hjb.
        rewrite lookup_insert_ne; [exact Hjb|].
        intros Heq. rewrite <- Heq in Hjb. congruence.
Qed.

Lemma forall_set_recalling (P : string -> Z -> Prop) jobs new reqNum old tapeId :
  Forall (fun j => P (j_tape_id j) (j_req_num j)) jobs ->
  Forall (fun j => P (j_tape_id j) (j_req_num j))
    (SET_RECALLING jobs new reqNum old tapeId).
Proof.
  unfold SET_RECALLING. induction 1 as [|j jobs Hj _ IH]; cbn [map]; constructor.
  - destruct (_ && _); exact Hj.
  - exact IH.
Qed.

Lemma forall_filter {A} (P : A -> Prop) (p : A -> bool) l :
  Forall P l -> Forall P (List.filter p l).
Proof.
  induction 1 as [|x l Hx _ IH]; cbn [List.filter]; [constructor|].
  destruct (p x); [constructor; assumption|exact IH].
Qed.

Lemma numbered_step e a w w' :
  step e a w = Some w' -> numbered w -> numbered w'.
Proof.
  destruct a as [ev term|i g|g reqNum tapeId|fs]; cbn [step]; intros H Hnum.
  - injection H as <-. apply numbered_run_iteration, Hnum.
  - destruct (w_queue w !! i) as [tk|] eqn:Hi; injection H as <-; [|exact Hnum].
    destruct Hnum as (H0 & Hb & Hinj & Hqu & Hjo).
    assert (w_reqmap w !! tk_tapeId tk = Some (tk_reqNum tk)) as Htk.
    { rewrite List.Forall_forall in Hqu. apply Hqu.
      apply list_elem_of_In. eapply list_elem_of_lookup_2. exact Hi. }
    assert (Forall (fun tk => w_reqmap w !! tk_tapeId tk = Some (tk_reqNum tk))
              (delete i (w_queue w))) as Hqu'.
    { rewrite List.Forall_forall in *. intros x Hx. apply Hqu.
      apply list_elem_of_In. apply list_elem_of_In in Hx.
      eapply list_elem_of_delete_inv. exact Hx. }
    match goal with
    | |- context [addJob e g ?w0 ?ri ?t ?n] =>
        destruct (addJob_cases e g w0 ri t n) as [(_ & Hm & Hn & Hq & _) Hc]
    end.
    cbn zeta in *. unfold numbered. rewrite Hm, Hn, Hq.
    cbn [w_reqmap w_globalReqNumber w_queue set_queue].
    repeat (split; [assumption|]).
    destruct Hc as [(Hj & _)|(sb & st & tn & attr & d & _ & Hj & _)]; rewrite Hj;
      cbn [w_jobs set_queue]; [exact Hjo|].
    apply Forall_app. split; [exact Hjo|].
    constructor; [exact Htk|constructor].
  - destruct (execRequest_tables e g w reqNum tapeId w' H)
      as (Hj & _ & Hm & Hn & Hq & _).
    destruct (processFiles_spec e g w reqNum tapeId) as (rl & _ & Hj1 & _).
    cbn zeta in *.
    destruct Hnum as (H0 & Hb & Hinj & Hqu & Hjo). unfold numbered.
    rewrite Hm, Hn, Hq, Hj, Hj1.
    repeat (split; [assumption|]).
    unfold DELETE_JOBS, claimed. apply forall_filter.
    apply (forall_set_recalling (fun t n => w_reqmap w !! t = Some n)).
    apply (forall_set_recalling (fun t n => w_reqmap w !! t = Some n)).
    exact Hjo.
  - injection H as <-. exact Hnum.
Qed.

Lemma numbered_run_schedule sched :
  forall w w', run_schedule sched w = Some w' -> numbered w -> numbered w'.
Proof.
  induction sched as [|[e a] sched IH]; intros w w' H Hnum; cbn [run_schedule] in H.
  - injection H as <-. exact Hnum.
  - destruct (step e a w) as [w1|] eqn:Hs; [|discriminate].
    eapply IH; [exact H|]. eapply numbered_step; eassumption.
Qed.

Lemma numbered_start fs inv recinfo : numbered (start fs inv recinfo).
Proof.
  unfold numbered, start. cbn. split; [lia|].
  split; [intros t n H; rewrite lookup_empty in H; discriminate|].
  split; [intros t1 t2 n H; rewrite lookup_empty in H; discriminate|].
  split; constructor.
Qed.

(** X9.  In every state the process reaches from its start, however the
    receiver, the job writers, the request executions and the file systems
    take turns: two job rows are for the same tape exactly when they have
    the same request number; every job row and every queued task carries
    the number the receiver's [reqmap] has for its tape; the numbers of
    [reqmap] lie between 1 and the request counter and differ from tape
    to tape. *)
Theorem jobs_of_a_tape_share_the_request_number sched fs inv recinfo w :
  run_schedule sched (start fs inv recinfo) = Some w ->
  numbered w
  /\ forall j1 j2,
       In j1 (w_jobs w) -> In j2 (w_jobs w) ->
       (j_tape_id j1 = j_tape_id j2 <-> j_req_num j1 = j_req_num j2).
Proof.
  intros H.
  assert (numbered w) as Hnum
    by (eapply numbered_run_schedule; [exact H|apply numbered_start]).
  split; [exact Hnum|].
  destruct Hnum as (_ & _ & Hinj & _ & Hjo).
  rewrite List.Forall_forall in Hjo.
  intros j1 j2 H1 H2. pose proof (Hjo j1 H1) as E1. pose proof (Hjo j2 H2) as E2.
  cbn in E1, E2. split.
  - intros Ht. rewrite Ht in E1. congruence.
  - intros Hn. rewrite Hn in E1. eapply Hinj; eassumption.
Qed.

Lemma jobs_of_a_tape_share_the_request_number_witness :
  numbered world_two_queued
  /\ forall j1 j2,
       In j1 (w_jobs world_two_queued) -> In j2 (w_jobs world_two_queued) ->
       (j_tape_id j1 = j_tape_id j2 <-> j_req_num j1 = j_req_num j2).
Proof.
  apply (jobs_of_a_tape_share_the_request_number
           [(env_two, Receive (Ok ri42) false); (env_two, Receive (Ok ri43) false);
            (env_two, Worker 0 g0); (env_two, Worker 0 g0)]
           (files [(fu42, regular_file MIGRATED 8 ["T00001"%string]);
                   (fu43, regular_file MIGRATED 8 ["T00001"%string])])
           inventory0 ri42 world_two_queued).
  vm_compute. reflexivity.
Defined.

Lemma step_reqmap e a w w' t n :
  step e a w = Some w' ->
  w_reqmap w !! t = Some n ->
  w_reqmap w' !! t = Some n /\ w_globalReqNumber w <= w_globalReqNumber w'.
Proof.
  destruct a as [ev term|i g|g reqNum tapeId|fs]; cbn [step]; intros H Hl.
  - injection H as <-.
    destruct (run_iteration_numbers w ev term) as (_ & _ & Hc). cbn zeta in Hc.
    destruct Hc as [(Hm & Hn & _)|(ri & t' & _ & [(Hm & Hn & _)|(Hl' & Hm & Hn)])];
      rewrite Hm, Hn; try (split; [exact Hl|lia]).
    rewrite lookup_insert_ne by congruence. split; [exact Hl|lia].
  - destruct (w_queue w !! i) as [tk|]; injection H as <-; [|split; [exact Hl|lia]].
    match goal with
    | |- context [addJob e g ?w0 ?ri ?t' ?n'] =>
        destruct (addJob_cases e g w0 ri t' n') as [(_ & Hm & Hn & _) _]
    end.
    cbn zeta in *. rewrite Hm, Hn. cbn. split; [exact Hl|lia].
  - destruct (execRequest_tables e g w reqNum tapeId w' H)
      as (_ & _ & Hm & Hn & _).
    rewrite Hm, Hn. split; [exact Hl|lia].
  - injection H as <-. cbn. split; [exact Hl|lia].
Qed.

(** X10.  A tape keeps the request number the receiver first gave it:
    whatever the process does, an entry of [reqmap] is never changed or
    removed, and the request counter never goes down. *)
Theorem request_number_of_a_tape_is_kept sched :
  forall w w' t n,
    run_schedule sched w = Some w' ->
    w_reqmap w !! t = Some n ->
    w_reqmap w' !! t = Some n /\ w_globalReqNumber w <= w_globalReqNumber w'.
Proof.
  induction sched as [|[e a] sched IH]; intros w w' t n H Hl; cbn [run_schedule] in H.
  - injection H as <-. split; [exact Hl|lia].
  - destruct (step e a w) as [w1|] eqn:Hs; [|discriminate].
    destruct (step_reqmap e a w w1 t n Hs Hl) as [Hl1 Hn1].
    destruct (IH w1 w' t n H Hl1) as [Hl2 Hn2]. split; [exact Hl2|lia].
Qed.

Lemma request_number_of_a_tape_is_kept_witness :
  w_reqmap world_two_done !! "T00001"%string = Some 1
  /\ w_globalReqNumber world_two_queued <= w_globalReqNumber world_two_done.
Proof.
  apply (request_number_of_a_tape_is_kept
           [(env_two, Execute g0 1 "T00001"%string)] world_two_queued).
  - vm_compute. reflexivity.
  - vm_compute. reflexivity.
Defined.

(** ** A turn of the receiver *)

(** X11.  A turn of the receiver loop writes neither table.  An event it
    does not skip (the connection handle is not null and, unless the
    server terminates, the inode number is not zero) is either answered
    once, with nothing queued, or queued once for the job writers under
    the request number [reqmap] then has for its tape, with no response;
    never both.  When the server terminates the answer is a failure and
    nothing is queued.  For an event it skips it neither responds nor
    queues anything. *)
Theorem receiver_turn_answers_or_queues w ev terminate :
  let recinfo := match ev with Ok r => r | Raise _ => w_recinfo w end in
  let w' := run_iteration w ev terminate in
  w_jobs w' = w_jobs w /\ w_requests w' = w_requests w
  /\ exists d,
       w_log w' = d ++ w_log w
       /\ if taken recinfo terminate
          then (w_queue w' = w_queue w
                /\ exists ok, List.filter is_respond d = [Respond recinfo ok]
                              /\ (terminate = true -> ok = false))
               \/ (terminate = false
                   /\ List.filter is_respond d = []
                   /\ exists tapeId n,
                        w_reqmap w' !! tapeId = Some n
                        /\ w_queue w'
                           = w_queue w ++ [{| tk_recinfo := recinfo;
                                              tk_tapeId := tapeId;
                                              tk_reqNum := n |}])
          else w_queue w' = w_queue w /\ List.filter is_respond d = [].
Proof.
  cbn zeta. unfold run_iteration, taken.
  set (w0 := match ev with
             | Ok r => set_recinfo r w
             | Raise _ => emit (Msg LTFSDMS0036W) w
             end).
  assert (w_jobs w0 = w_jobs w /\ w_requests w0 = w_requests w
          /\ w_queue w0 = w_queue w
          /\ w_recinfo w0 = match ev with Ok r => r | Raise _ => w_recinfo w end
          /\ exists d0, w_log w0 = d0 ++ w_log w /\ List.filter is_respond d0 = [])
    as (Hj & Hr & Hq & Hri & d0 & Hl & Hd0).
  { destruct ev; subst w0; cbn; repeat (split; [reflexivity|]);
      [exists []|exists [Msg LTFSDMS0036W]]; split; reflexivity. }
  rewrite <- Hj, <- Hr, <- Hq, <- Hri. clearbody w0. clear Hj Hr Hq Hri.
  assert (forall x,
            w_jobs (run_catch x (w_recinfo w0) w0) = w_jobs w0
            /\ w_requests (run_catch x (w_recinfo w0) w0) = w_requests w0
            /\ exists d,
                 w_log (run_catch x (w_recinfo w0) w0) = d ++ w_log w
                 /\ ((w_queue (run_catch x (w_recinfo w0) w0) = w_queue w0
                      /\ exists ok,
                           List.filter is_respond d = [Respond (w_recinfo w0) ok]
                           /\ (false = true -> ok = false))
                     \/ (false = false
                         /\ List.filter is_respond d = []
                         /\ exists tapeId n,
                              w_reqmap (run_catch x (w_recinfo w0) w0) !! tapeId
                              = Some n
                              /\ w_queue (run_catch x (w_recinfo w0) w0)
                                 = w_queue w0 ++ [{| tk_recinfo := w_recinfo w0;
                                                     tk_tapeId := tapeId;
                                                     tk_reqNum := n |}])))
    as Hcatch.
  { intros [err n|]; cbn; (split; [reflexivity|]); (split; [reflexivity|]);
      rewrite Hl; [eexists (_ :: _ :: d0)|eexists (_ :: d0)];
      (split; [cbn; reflexivity|]); left;
      (split; [reflexivity|]); exists false; cbn; rewrite Hd0;
      (split; [reflexivity|discriminate]). }
  destruct (conn_info (w_recinfo w0) =? 0); cbn [negb andb].
  { split; [reflexivity|]. split; [reflexivity|]. exists d0. tauto. }
  destruct terminate; cbn [orb].
  { split; [reflexivity|]. split; [reflexivity|].
    exists (Respond (w_recinfo w0) false :: d0). cbn. rewrite Hl, Hd0.
    split; [reflexivity|]. left. split; [reflexivity|]. exists false. tauto. }
  destruct (inum (fuid (w_recinfo w0)) =? 0); cbn [negb].
  { split; [reflexivity|]. split; [reflexivity|]. exists d0. tauto. }
  destruct (w_fs w0 (fuid (w_recinfo w0))) as [fso|x]; [|apply Hcatch].
  destruct (getMigState fso) as [st|x]; [|apply Hcatch].
  destruct (file_state_eqb st RESIDENT).
  { split; [reflexivity|]. split; [reflexivity|].
    eexists (_ :: _ :: _ :: d0). cbn. rewrite Hl, Hd0.
    split; [reflexivity|]. left. split; [reflexivity|]. exists true.
    split; [reflexivity|discriminate]. }
  destruct (getAttribute fso) as [attr|x]; [|apply Hcatch].
  split; [destruct (w_reqmap w0 !! first_tape attr); reflexivity|].
  split; [destruct (w_reqmap w0 !! first_tape attr); reflexivity|].
  exists d0. split; [destruct (w_reqmap w0 !! first_tape attr); exact Hl|].
  right. split; [reflexivity|]. split; [exact Hd0|].
  exists (first_tape attr).
  destruct (w_reqmap w0 !! first_tape attr) as [n|] eqn:Hlook.
  - exists n. cbn. rewrite Hlook. split; reflexivity.
  - eexists. cbn. rewrite !lookup_insert_eq. split; reflexivity.
Qed.

(** ** What a recall logs *)

Ltac count_log :=
  repeat first [rewrite count_cons | rewrite count_app | rewrite count_nil];
  cbn [is_lock is_unlock is_tape_open is_tape_close is_finish_recall
       is_rem_attribute is_transfer is_respond].

(** The copy loop leaves the file objects alone; it logs no lock, no
    open and no finalisation, and a close only when a write came out
    short. *)
Lemma copy_loop_counts e fu target tapeName size reads :
  forall w offset,
    w_fs (fst (copy_loop e w fu target tapeName size reads offset)) = w_fs w
    /\ exists d,
         w_log (fst (copy_loop e w fu target tapeName size reads offset))
         = d ++ w_log w
         /\ count is_lock d = 0%nat /\ count is_unlock d = 0%nat
         /\ count is_tape_open d = 0%nat
         /\ count is_finish_recall d = 0%nat /\ count is_rem_attribute d = 0%nat
         /\ (count is_tape_close d <= 1)%nat
         /\ (is_ok (snd (copy_loop e w fu target tapeName size reads offset)) = true ->
             count is_tape_close d = 0%nat).
Proof.
  induction reads as [|r reads IH]; intros w offset; cbn [copy_loop];
    destruct (offset <? size); cbn [fst snd];
    try (split; [reflexivity|]; exists []; cbn; repeat split; lia);
    unfold poll; destruct (forcedTerminate e (length (w_log w))); cbn [fst snd];
    try (split; [reflexivity|]; eexists; (split; [cbn [w_log emit]; log_ext|]);
         cbn; repeat split; try lia; try discriminate).
  destruct r as [bytes|].
  - destruct (Z.of_nat (length bytes) =? 0).
    + cbn [fst snd]. split; [reflexivity|].
      eexists. split; [cbn [w_log emit]; log_ext|].
      cbn. repeat split; lia.
    + destruct (negb (_ =? _)).
      * cbn [fst snd]. split; [reflexivity|].
        eexists. split; [cbn [w_log emit]; log_ext|].
        cbn. repeat split; try lia; try discriminate.
      * match goal with
        | |- context [copy_loop e ?w3 fu target tapeName size reads ?o] =>
            destruct (IH w3 o) as (Hfs & d & Hl & H1 & H2 & H3 & H4 & H5 & H6 & H7)
        end.
        split; [rewrite Hfs; reflexivity|].
        eexists (d ++ [_; _; _]).
        split; [rewrite Hl; cbn [w_log emit]; rewrite <- app_assoc; reflexivity|].
        count_log. rewrite H1, H2, H3, H4, H5. cbn.
        repeat split; try lia. intros Hok. rewrite (H7 Hok). reflexivity.
  - cbn [fst snd]. split; [reflexivity|].
    eexists. split; [cbn [w_log emit]; log_ext|].
    cbn. repeat split; try lia; try discriminate.
Qed.
Ltac recall_leaf :=
  cbn [fst snd is_ok w_log emit]; rewrite ?finish_log; cbn [w_log emit fst snd];
  eexists; (split; [solve [log_ext]|]);
  unfold finish_effects; count_log;
  repeat match goal with
         | |- context [file_state_eqb ?s RESIDENT] => destruct (file_state_eqb s RESIDENT)
         end;
  count_log; cbn [length List.filter app Nat.add Nat.mul];
  repeat split; try lia; try discriminate; try reflexivity.

Lemma recall_effects e g w recinfo tapeId state toState :
  let w' := fst (recall e g w recinfo tapeId state toState) in
  let r := snd (recall e g w recinfo tapeId state toState) in
  exists d,
    w_log w' = d ++ w_log w
    /\ count is_lock d = count is_unlock d
    /\ (count is_lock d <= 1)%nat
    /\ (count is_tape_open d <= 1)%nat
    /\ (count is_tape_open d <= count is_tape_close d)%nat
    /\ (count is_tape_close d <= 2 * count is_tape_open d)%nat
    /\ (count is_rem_attribute d <= count is_finish_recall d)%nat
    /\ (count is_finish_recall d <= 1)%nat
    /\ (is_ok r = false -> count is_finish_recall d = 0%nat /\ w_fs w' = w_fs w)
    /\ (is_ok r = true -> count is_tape_close d = count is_tape_open d).
Proof.
  cbn zeta. unfold recall.
  destruct (w_fs w (fuid recinfo)) as [target|x]; [|recall_leaf].
  unfold recall_try.
  destruct (getMigState target) as [curstate|x]; [|recall_leaf].
  destruct (negb (file_state_eqb curstate state));
    match goal with
    | |- context [if file_state_eqb ?s RESIDENT then _ else _] =>
        destruct (file_state_eqb s RESIDENT); [recall_leaf|];
        destruct (file_state_eqb s MIGRATED); [|recall_leaf]
    end.
  all: destruct (getTapeName e (fuid recinfo) tapeId) as [tn|x]; [|recall_leaf].
  all: destruct (tape e tn) as [tp|]; [|recall_leaf].
  all: destruct (stat target) as [sb|x]; [|recall_leaf].
  all: destruct (size_mismatch tp sb) as [tsize|].
  all: match goal with
       | |- context [copy_loop ?e ?w ?fu ?t ?tn ?sz ?rs ?o] =>
           destruct (copy_loop_counts e fu t tn sz rs w o)
             as (Hfs & dl & Hl & H1 & H2 & H3 & H4 & H5 & H6 & H7);
           destruct (copy_loop e w fu t tn sz rs o) as [wl [u|x]]
       end; cbn [fst snd is_ok] in *.
  all: first [specialize (H7 eq_refl)|clear H7].
  all: cbn [fst snd is_ok w_log emit]; rewrite ?finish_log; cbn [w_log emit fst snd];
    rewrite Hl; cbn [w_log emit];
    eexists; (split; [solve [log_ext]|]);
    unfold finish_effects; count_log;
    rewrite ?H1, ?H2, ?H3, ?H4, ?H5, ?H7;
    repeat match goal with
           | |- context [file_state_eqb ?s RESIDENT] =>
               destruct (file_state_eqb s RESIDENT)
           end;
    count_log; cbn [length List.filter app Nat.add Nat.mul];
    repeat split; try lia; try discriminate; try reflexivity.
  all: cbn [w_fs emit] in Hfs; exact Hfs.
Qed.

(** X12.  However [recall] is left, by its end or by a throw at any
    point, it has given back the lock on the file if it took it, and it
    has closed the tape object if it opened it: among the effects of one
    call there are as many unlocks as locks, at most one of each, at most
    one successful open, and at least one close for it; a call that
    opened nothing closes nothing.  A call that succeeds closes the tape
    object exactly once; a failing call may close it twice. *)
Theorem recall_releases_lock_and_descriptor e g w recinfo tapeId state toState :
  let w' := fst (recall e g w recinfo tapeId state toState) in
  let r := snd (recall e g w recinfo tapeId state toState) in
  exists d,
    w_log w' = d ++ w_log w
    /\ count is_lock d = count is_unlock d
    /\ (count is_lock d <= 1)%nat
    /\ (count is_tape_open d <= 1)%nat
    /\ (count is_tape_open d <= count is_tape_close d)%nat
    /\ (count is_tape_close d <= 2 * count is_tape_open d)%nat
    /\ (if is_ok r then count is_tape_close d = count is_tape_open d else True).
Proof.
  cbn zeta.
  destruct (recall_effects e g w recinfo tapeId state toState)
    as (d & Hl & H1 & H2 & H3 & H4 & H5 & _ & _ & _ & H9).
  cbn zeta in *. exists d. repeat (split; [assumption|]).
  destruct (is_ok _); [apply H9; reflexivity|exact I].
Qed.

(** X13.  [recall] finalises the file only when it succeeds: a call that
    throws has called neither [finishRecall] nor [remAttribute] and leaves
    the file objects as they were; a call that succeeds has called
    [finishRecall] at most once, and [remAttribute] only after it. *)
Theorem recall_finalises_only_on_success e g w recinfo tapeId state toState :
  let w' := fst (recall e g w recinfo tapeId state toState) in
  let r := snd (recall e g w recinfo tapeId state toState) in
  exists d,
    w_log w' = d ++ w_log w
    /\ (count is_rem_attribute d <= count is_finish_recall d)%nat
    /\ (count is_finish_recall d <= 1)%nat
    /\ (if is_ok r then True
        else count is_finish_recall d = 0%nat /\ w_fs w' = w_fs w).
Proof.
  cbn zeta.
  destruct (recall_effects e g w recinfo tapeId state toState)
    as (d & Hl & _ & _ & _ & _ & _ & H6 & H7 & H8 & _).
  cbn zeta in *. exists d. repeat (split; [assumption|]).
  destruct (is_ok _); [exact I|apply H8; reflexivity].
Qed.

(** X14.  [recall] goes to the tape only for a file whose state reads
    MIGRATED.  For a file found RESIDENT it returns 0 and does nothing
    but lock and unlock the file, which stays as it was.  For a file in
    any other state but MIGRATED it opens and reads nothing, finalises the
    file to the target state and succeeds.  In both cases message
    LTFSDMS0034I is logged exactly when the state differs from the one the
    job row had. *)
Theorem recall_not_migrated_leaves_tape_alone
    e g w recinfo tapeId state toState target st :
  w_fs w (fuid recinfo) = Ok target ->
  getMigState target = Ok st ->
  st <> MIGRATED ->
  let fu := fuid recinfo in
  let drift := if negb (file_state_eqb st state) then [Msg LTFSDMS0034I] else [] in
  exists w' n,
    recall e g w recinfo tapeId state toState = (w', Ok n)
    /\ if file_state_eqb st RESIDENT
       then n = 0 /\ w_fs w' = w_fs w
            /\ w_log w' = Unlock fu :: drift ++ Lock fu :: w_log w
       else w_log w'
            = Unlock fu :: finish_effects fu toState ++ drift ++ Lock fu :: w_log w
            /\ exists f, w_fs w' fu = Ok f /\ getMigState f = Ok toState.
Proof.
  intros Hfs Hst Hne. cbn zeta. unfold recall, recall_try.
  rewrite Hfs. cbn [w_fs emit]. rewrite Hst.
  destruct st; try contradiction; destruct state;
    cbn [file_state_eqb negb fst snd];
    eexists _, _; (split; [reflexivity|]);
    cbn [w_log w_fs emit]; rewrite ?finish_log; cbn [w_log emit app];
    try (repeat split; reflexivity);
    (split; [rewrite <- ?app_assoc; reflexivity|apply finish_state]).
Qed.

Lemma recall_not_migrated_leaves_tape_alone_witness :
  let fu := fuid ri42 in
  let drift :=
    if negb (file_state_eqb PREMIGRATED MIGRATED) then [Msg LTFSDMS0034I] else [] in
  exists w' n,
    recall env_two g0 world_premigrated ri42 "T00001" MIGRATED RESIDENT = (w', Ok n)
    /\ if file_state_eqb PREMIGRATED RESIDENT
       then n = 0 /\ w_fs w' = w_fs world_premigrated
            /\ w_log w' = Unlock fu :: drift ++ Lock fu :: w_log world_premigrated
       else w_log w'
            = Unlock fu :: finish_effects fu RESIDENT ++ drift
              ++ Lock fu :: w_log world_premigrated
            /\ exists f, w_fs w' fu = Ok f /\ getMigState f = Ok RESIDENT.
Proof.
  apply (recall_not_migrated_leaves_tape_alone env_two g0 world_premigrated ri42
           "T00001" MIGRATED RESIDENT
           (regular_file PREMIGRATED 8 ["T00001"%string]) PREMIGRATED).
  - reflexivity.
  - reflexivity.
  - discriminate.
Defined.

Example recall_premigrated_run :
  let '(w', r) :=
    recall env_two g0 world_premigrated ri42 "T00001" MIGRATED RESIDENT in
  is_ok r = true
  /\ rev (w_log w')
     = [Lock fu42; Msg LTFSDMS0034I; FinishRecall fu42 RESIDENT; RemAttribute fu42;
        Unlock fu42].
Proof. vm_compute. split; reflexivity. Qed.

(** The copy loop up to a short write: the chunks before it are written
    in full, then a write comes out short; the loop logs LTFSDMS0033E,
    closes the tape object and throws. *)
Lemma copy_loop_short_write e fu target tapeName size chunks bytes rest at_ :
  (forall t, forcedTerminate e t = false) ->
  Forall (fun c => c <> []) chunks ->
  bytes <> [] ->
  at_ < size ->
  (forall off n, off < at_ -> fo_write target off n = n) ->
  fo_write target at_ (Z.of_nat (length bytes)) <> Z.of_nat (length bytes) ->
  forall w offset,
    offset + Z.of_nat (length (concat chunks)) = at_ ->
    exists w' d,
      copy_loop e w fu target tapeName size (map RData chunks ++ RData bytes :: rest)
        offset
      = (w', Raise general_error)
      /\ w_log w' = TapeClose tapeName :: Msg LTFSDMS0033E :: d ++ w_log w
      /\ count is_tape_open d = 0%nat
      /\ count is_tape_close d = 0%nat
      /\ count is_finish_recall d = 0%nat
      /\ w_fs w' = w_fs w.
Proof.
  intros Hflag Hne Hbytes Hlt Hfull Hshort.
  assert (0 < length bytes)%nat as Hblen
    by (destruct bytes; [contradiction|cbn; lia]).
  induction Hne as [|c chunks Hc Hne IH]; intros w offset Hat.
  - cbn [map concat length app copy_loop] in *.
    replace (offset <? size) with true by (symmetry; apply Z.ltb_lt; lia).
    unfold poll. rewrite Hflag.
    replace (Z.of_nat (length bytes) =? 0) with false
      by (symmetry; apply Z.eqb_neq; lia).
    unfold FsObj.write. replace offset with at_ by lia.
    replace (fo_write target at_ (Z.of_nat (length bytes)) =? Z.of_nat (length bytes))
      with false by (symmetry; apply Z.eqb_neq; exact Hshort).
    cbn [negb].
    eexists _, [_; _; _]. split; [reflexivity|]. cbn. repeat split; reflexivity.
  - cbn [map concat app copy_loop] in *. rewrite length_app in Hat.
    assert (0 < length c)%nat as Hlen by (destruct c; [contradiction|cbn; lia]).
    replace (offset <? size) with true by (symmetry; apply Z.ltb_lt; lia).
    unfold poll. rewrite Hflag.
    replace (Z.of_nat (length c) =? 0) with false by (symmetry; apply Z.eqb_neq; lia).
    unfold FsObj.write. rewrite Hfull by lia. rewrite Z.eqb_refl. cbn [negb].
    match goal with
    | |- context [copy_loop e ?w3 fu target tapeName size _ ?o] =>
        destruct (IH w3 o) as (w' & d & Hrun & Hlog & Ho & Hc' & Hf & Hfs); [lia|]
    end.
    exists w', (d ++ [FileWrite fu offset c (Z.of_nat (length c));
                      TapeRead tapeName (Z.of_nat (length c));
                      Poll (length (w_log w)) false]).
    split; [exact Hrun|].
    split; [rewrite Hlog; cbn; now rewrite <- app_assoc|].
    rewrite !count_app, Ho, Hc', Hf, Hfs. cbn. repeat split; reflexivity.
Qed.

(** X15.  When a write to the file comes out short, at whatever chunk of
    the copy, [recall] closes the tape object twice: once in the copy
    loop, before it throws, and once more in its handler, after the lock
    on the file is given back.  The recall fails, message LTFSDMS0033E is
    logged and the file object is not finalised. *)
Theorem recall_short_write_closes_twice
    e g w recinfo tapeId state toState target tn tp sb chunks bytes rest :
  w_fs w (fuid recinfo) = Ok target ->
  getMigState target = Ok MIGRATED ->
  getTapeName e (fuid recinfo) tapeId = Ok tn ->
  tape e tn = Some tp ->
  FsObj.stat target = Ok sb ->
  t_reads tp = map RData chunks ++ RData bytes :: rest ->
  Forall (fun c => c <> []) chunks ->
  bytes <> [] ->
  Z.of_nat (length (concat chunks))
  < match size_mismatch tp sb with Some tsize => tsize | None => st_size sb end ->
  (forall k, forcedTerminate e k = false) ->
  (forall off n, off < Z.of_nat (length (concat chunks)) -> fo_write target off n = n) ->
  fo_write target (Z.of_nat (length (concat chunks))) (Z.of_nat (length bytes))
  <> Z.of_nat (length bytes) ->
  exists w' d,
    recall e g w recinfo tapeId state toState = (w', Raise general_error)
    /\ w_log w' = d ++ w_log w
    /\ firstn 4 d
       = [TapeClose tn; Unlock (fuid recinfo); TapeClose tn; Msg LTFSDMS0033E]
    /\ count is_tape_open d = 1%nat
    /\ count is_tape_close d = 2%nat
    /\ count is_finish_recall d = 0%nat
    /\ w_fs w' = w_fs w.
Proof.
  intros Hfs Hmig Hname Htape Hstat Hreads Hchunks Hne Hsize Hflag Hfull Hshort.
  rewrite (recall_migrated e g w recinfo tapeId state toState target tn tp sb)
    by assumption.
  cbn zeta. rewrite Hreads.
  match goal with
  | |- context [copy_loop ?e ?wd ?fu ?t ?tn ?sz _ ?o] =>
      destruct (copy_loop_short_write e fu t tn sz chunks bytes rest _
                  Hflag Hchunks Hne Hsize Hfull Hshort wd o)
        as (wl & d & Hrun & Hlog & Ho & Hc & Hf & Hwfs); [lia|]
  end.
  rewrite Hrun.
  eexists _, (TapeClose tn :: Unlock (fuid recinfo) :: TapeClose tn
              :: Msg LTFSDMS0033E :: d ++ _).
  split; [reflexivity|].
  split.
  - cbn [w_log emit]. rewrite Hlog. cbn [w_log emit].
    instantiate (1 :=
      PrepareRecall (fuid recinfo)
      :: match size_mismatch tp sb with
         | Some _ => [Msg (if negb (String.eqb (filename recinfo) "")
                           then LTFSDMS0097W else LTFSDMS0098W)]
         | None => []
         end
      ++ TapeOpen tn true
      :: (if negb (file_state_eqb MIGRATED state)
          then [Msg LTFSDMS0034I; Lock (fuid recinfo)]
          else [Lock (fuid recinfo)])).
    destruct (size_mismatch tp sb);
      destruct (negb (file_state_eqb MIGRATED state)); cbn;
      rewrite <- !app_assoc; cbn; rewrite <- ?app_assoc; reflexivity.
  - split; [reflexivity|].
    rewrite !count_cons. cbn [is_tape_open is_tape_close is_finish_recall indicator].
    rewrite !count_app, Ho, Hc, Hf. cbn [w_fs emit]. rewrite Hwfs.
    destruct (size_mismatch tp sb);
      destruct (negb (file_state_eqb MIGRATED state)); cbn; repeat split; reflexivity.
Qed.

Lemma recall_short_write_closes_twice_witness :
  exists w' d,
    recall env_4_4 g0 world_short_later ri42 "T00001" MIGRATED PREMIGRATED
    = (w', Raise general_error)
    /\ w_log w' = d ++ w_log world_short_later
    /\ firstn 4 d
       = [TapeClose "T00001/42"; Unlock (fuid ri42); TapeClose "T00001/42";
          Msg LTFSDMS0033E]
    /\ count is_tape_open d = 1%nat
    /\ count is_tape_close d = 2%nat
    /\ count is_finish_recall d = 0%nat
    /\ w_fs w' = w_fs world_short_later.
Proof.
  apply (recall_short_write_closes_twice env_4_4 g0 world_short_later ri42 "T00001"
           MIGRATED PREMIGRATED file_short_later "T00001/42" tape_4_4
           {| st_isreg := true; st_size := 8; st_mtime := 7 |} [chunk 4] (chunk 4) []);
    try reflexivity; try discriminate.
  - repeat constructor; discriminate.
  - intros off n Hoff. cbn [file_short_later fo_write].
    destruct (Z.eqb_spec off 4) as [->|_]; [vm_compute in Hoff; discriminate|reflexivity].
Defined.

Example short_write_run :
  let '(w', r) :=
    recall env_two g0 world_short_write ri42 "T00001" MIGRATED PREMIGRATED in
  r = Raise general_error
  /\ rev (w_log w')
     = [Lock fu42; TapeOpen "T00001/42" true; PrepareRecall fu42;
        Poll 3 false; TapeRead "T00001/42" 8; FileWrite fu42 0 (chunk 8) 7;
        Msg LTFSDMS0033E; TapeClose "T00001/42"; Unlock fu42;
        TapeClose "T00001/42"].
Proof. vm_compute. split; reflexivity. Qed.

(** The second write comes out short: the first chunk stays written. *)
Example short_second_write_run :
  let '(w', r) :=
    recall env_4_4 g0 world_short_later ri42 "T00001" MIGRATED PREMIGRATED in
  r = Raise general_error
  /\ rev (w_log w')
     = [Lock fu42; TapeOpen "T00001/42" true; PrepareRecall fu42;
        Poll 3 false; TapeRead "T00001/42" 4; FileWrite fu42 0 (chunk 4) 4;
        Poll 6 false; TapeRead "T00001/42" 4; FileWrite fu42 4 (chunk 4) 3;
        Msg LTFSDMS0033E; TapeClose "T00001/42"; Unlock fu42;
        TapeClose "T00001/42"].
Proof. vm_compute. split; reflexivity. Qed.

(** ** What the copy loop writes *)

Lemma file_writes_app d1 d2 : file_writes (d1 ++ d2) = file_writes d2 ++ file_writes d1.
Proof.
  induction d1 as [|x d1 IH]; cbn [app file_writes].
  - now rewrite app_nil_r.
  - destruct x; try exact IH. rewrite IH. now rewrite app_assoc.
Qed.

(** X16.  The copy loop writes what it reads, in order and without
    gaps: its first write is at the offset the loop starts from, every
    later write begins where the one before it ended and before the size
    the loop copies up to, every write is to the file being recalled, and
    the data of the writes, put one after the other, is an initial part
    of the data the tape object hands out. *)
Theorem copy_loop_writes_in_sequence e fu target tapeName size reads :
  forall w offset,
    exists d,
      w_log (fst (copy_loop e w fu target tapeName size reads offset)) = d ++ w_log w
      /\ contiguous offset (file_writes d)
      /\ Forall (fun x => fst x < size) (file_writes d)
      /\ concat (map snd (file_writes d)) `prefix_of` data_of reads
      /\ Forall (fun x => match x with
                          | FileWrite f _ _ _ => f = fu
                          | _ => True
                          end) d.
Proof.
  induction reads as [|r reads IH]; intros w offset; cbn [copy_loop];
    destruct (Z.ltb_spec offset size) as [Hlt|Hge]; cbn [fst snd];
    try (exists []; cbn; repeat split; [constructor|apply prefix_nil|constructor]);
    unfold poll; destruct (forcedTerminate e (length (w_log w))); cbn [fst snd];
    try (eexists; (split; [cbn [w_log emit]; log_ext|]); cbn;
         repeat split; [constructor|apply prefix_nil|repeat constructor]).
  destruct r as [bytes|].
  - destruct (Z.of_nat (length bytes) =? 0).
    + cbn [fst snd]. eexists. split; [cbn [w_log emit]; log_ext|].
      cbn. repeat split; [constructor|apply prefix_nil|repeat constructor].
    + destruct (negb (_ =? _)).
      * cbn [fst snd]. eexists. split; [cbn [w_log emit]; log_ext|].
        cbn. repeat split; [repeat constructor; exact Hlt| |repeat constructor].
        rewrite app_nil_r. apply prefix_app_r. reflexivity.
      * match goal with
        | |- context [copy_loop e ?w3 fu target tapeName size reads ?o] =>
            destruct (IH w3 o) as (d & Hl & Hc & Hb & Hp & Hf)
        end.
        eexists (d ++ [_; _; _]).
        split; [rewrite Hl; cbn [w_log emit]; rewrite <- app_assoc; reflexivity|].
        rewrite file_writes_app. cbn [file_writes app map concat snd data_of].
        split; [split; [reflexivity|exact Hc]|].
        split; [constructor; [exact Hlt|exact Hb]|].
        split; [apply prefix_app; exact Hp|].
        apply Forall_app. split; [exact Hf|repeat constructor].
  - cbn [fst snd]. eexists. split; [cbn [w_log emit]; log_ext|].
    cbn. repeat split; [constructor|apply prefix_nil|repeat constructor].
Qed.

(** ** The jobs a request execution leaves *)

Lemma claimed_job reqNum tapeId (j : job) :
  let c1 := if (j_req_num j =? reqNum) && file_state_eqb (j_file_state j) MIGRATED
               && String.eqb (j_tape_id j) tapeId
            then set_file_state RECALLING_MIG j else j in
  let c2 := if (j_req_num c1 =? reqNum) && file_state_eqb (j_file_state c1) PREMIGRATED
               && String.eqb (j_tape_id c1) tapeId
            then set_file_state RECALLING_PREMIG c1 else c1 in
  if stays reqNum tapeId j
  then c2 = j /\ recalling_job reqNum RECALLING_MIG RECALLING_PREMIG tapeId c2 = false
  else recalling_job reqNum RECALLING_MIG RECALLING_PREMIG tapeId c2 = true.
Proof.
  cbn zeta. unfold stays, same_request, recalling_job.
  destruct (j_req_num j =? reqNum) eqn:Hn; destruct (String.eqb (j_tape_id j) tapeId) eqn:Ht;
    destruct (j_file_state j) eqn:Hs;
    cbn [andb orb negb file_state_eqb set_file_state j_req_num j_file_state j_tape_id];
    rewrite ?Hn, ?Ht, ?Hs;
    cbn [andb orb negb file_state_eqb set_file_state j_req_num j_file_state j_tape_id];
    rewrite ?Hn, ?Ht, ?Hs;
    cbn [andb orb negb file_state_eqb]; try reflexivity; split; reflexivity.
Qed.

Lemma delete_claimed jobs reqNum tapeId :
  DELETE_JOBS (claimed jobs reqNum tapeId) reqNum RECALLING_MIG RECALLING_PREMIG tapeId
  = List.filter (stays reqNum tapeId) jobs.
Proof.
  unfold DELETE_JOBS, claimed, SET_RECALLING. rewrite map_map.
  induction jobs as [|j jobs IH]; cbn [map List.filter]; [reflexivity|].
  pose proof (claimed_job reqNum tapeId j) as H. cbn zeta in H.
  destruct (stays reqNum tapeId j).
  - destruct H as [Hc Hr]. rewrite Hr. cbn [negb]. rewrite Hc, IH. reflexivity.
  - rewrite H. cbn [negb]. exact IH.
Qed.

Lemma length_filter_split {A} (p : A -> bool) l :
  length l = (length (List.filter p l)
              + length (List.filter (fun x => negb (p x)) l))%nat.
Proof.
  induction l as [|x l IH]; cbn [List.filter length]; [reflexivity|].
  destruct (p x); cbn [negb length]; lia.
Qed.

(** X17.  One call of [processFiles] for a request number and a tape
    removes from the jobs table exactly the jobs of that number and tape
    whose file state is not RESIDENT; every other row stays as it is and
    where it is.  It sends one response for each job it removes, whether
    the recall of the job succeeded or failed, and does not write the
    request table. *)
Theorem processFiles_removes_the_jobs_it_answers e g w reqNum tapeId :
  let w' := processFiles e g w reqNum tapeId in
  w_jobs w' = List.filter (stays reqNum tapeId) (w_jobs w)
  /\ w_requests w' = w_requests w
  /\ (count is_respond (w_log w') + length (w_jobs w')
      = count is_respond (w_log w) + length (w_jobs w))%nat.
Proof.
  cbn zeta.
  destruct (processFiles_spec e g w reqNum tapeId)
    as (rl & Hall & Hj & Hr & _ & _ & _ & _ & _ & _ & Hlog).
  cbn zeta in *. rewrite delete_claimed in Hj.
  split; [exact Hj|]. split; [exact Hr|].
  unfold count at 1 2. rewrite Hlog, length_app, length_rev, length_map.
  rewrite <- (Forall2_length _ _ _ Hall).
  unfold SELECT_JOBS.
  rewrite (Permutation_length (order_by_start_block_perm _)).
  pose proof (delete_claimed (w_jobs w) reqNum tapeId) as Hd.
  unfold DELETE_JOBS in Hd.
  pose proof (length_filter_split
                (recalling_job reqNum RECALLING_MIG RECALLING_PREMIG tapeId)
                (claimed (w_jobs w) reqNum tapeId)) as Hs.
  rewrite Hd in Hs. rewrite Hj.
  assert (length (claimed (w_jobs w) reqNum tapeId) = length (w_jobs w)) as Hc
    by (unfold claimed, SET_RECALLING; now rewrite !length_map).
  lia.
Qed.

Lemma set_recalling_none jobs new reqNum old tapeId :
  old <> RESIDENT ->
  Forall (fun j => stays reqNum tapeId j = true) jobs ->
  SET_RECALLING jobs new reqNum old tapeId = jobs.
Proof.
  intros Hold. unfold SET_RECALLING.
  induction 1 as [|j jobs Hj _ IH]; cbn [map]; [reflexivity|].
  rewrite IH. f_equal. unfold stays, same_request in Hj.
  destruct (j_req_num j =? reqNum); [|reflexivity].
  destruct (String.eqb (j_tape_id j) tapeId); [|now rewrite andb_false_r].
  cbn in Hj. destruct (j_file_state j); try discriminate.
  destruct old; try contradiction; reflexivity.
Qed.

Lemma processFiles_nothing_to_do e g w reqNum tapeId :
  Forall (fun j => stays reqNum tapeId j = true) (w_jobs w) ->
  processFiles e g w reqNum tapeId = w.
Proof.
  intros Hall. unfold processFiles. cbn [w_jobs set_jobs].
  rewrite (set_recalling_none (w_jobs w)) by (assumption || discriminate).
  rewrite (set_recalling_none (w_jobs w)) by (assumption || discriminate).
  assert (List.filter (recalling_job reqNum RECALLING_MIG RECALLING_PREMIG tapeId)
            (w_jobs w) = []) as Hnone.
  { apply filter_none. eapply List.Forall_impl; [|exact Hall].
    intros j Hj. unfold stays, same_request in Hj. unfold recalling_job.
    destruct (j_req_num j =? reqNum); [|reflexivity].
    destruct (String.eqb (j_tape_id j) tapeId); [|now rewrite andb_false_r].
    cbn in Hj. destruct (j_file_state j); try discriminate. reflexivity. }
  unfold SELECT_JOBS. rewrite Hnone. cbn [order_by_start_block fold_right process_rows].
  cbn [w_jobs set_jobs respond_all fold_left].
  assert (DELETE_JOBS (w_jobs w) reqNum RECALLING_MIG RECALLING_PREMIG tapeId
          = w_jobs w) as ->.
  { unfold DELETE_JOBS. clear Hall.
    induction (w_jobs w) as [|j l IH]; cbn [List.filter] in *; [reflexivity|].
    destruct (recalling_job _ _ _ _ j); [discriminate|].
    cbn [negb]. f_equal. apply IH. exact Hnone. }
  destruct w; reflexivity.
Qed.

(** X18.  A second [processFiles] for the same request number and tape,
    run right after the first, finds nothing to do: it changes no table,
    touches no file and sends no response, in whatever environment it
    runs. *)
Theorem processFiles_again_does_nothing e g e' g' w reqNum tapeId :
  processFiles e' g' (processFiles e g w reqNum tapeId) reqNum tapeId
  = processFiles e g w reqNum tapeId.
Proof.
  apply processFiles_nothing_to_do.
  destruct (processFiles_spec e g w reqNum tapeId) as (rl & _ & Hj & _).
  cbn zeta in Hj. rewrite Hj, delete_claimed.
  apply List.Forall_forall. intros j Hin.
  apply List.filter_In in Hin. tauto.
Qed.

(** ** The shutdown pass *)

Lemma respond_rows_calm g rows :
  forall w,
    calm w (fold_left
              (fun w j => respondRecallEvent (recinfo_of_row j (g_toresident g)) false w)
              rows w).
Proof.
  induction rows as [|j rows IH]; intros w; cbn [fold_left].
  - unfold calm. tauto.
  - specialize (IH (respondRecallEvent (recinfo_of_row j (g_toresident g)) false w)).
    unfold calm in *. cbn in *. tauto.
Qed.

Lemma cleanupEvents_fails_what_is_left_aux g w :
  w_log (cleanupEvents g w)
  = rev (map (failure_of g) (List.filter is_trarecall (w_jobs w))) ++ w_log w
  /\ calm w (cleanupEvents g w).
Proof.
  split; [|apply respond_rows_calm].
  unfold cleanupEvents, REMAINING_JOBS. apply (cleanupEvents_log g _ w).
Qed.

(** X19.  [cleanupEvents] answers every transparent-recall job still in
    the table with a failure, in the order of the table, and answers no
    job of another operation.  It changes nothing else: the job rows are
    not removed, so that a second pass answers each of them a second
    time. *)
Theorem cleanupEvents_fails_what_is_left g w :
  let left := List.filter is_trarecall (w_jobs w) in
  let w' := cleanupEvents g w in
  w_log w' = rev (map (failure_of g) left) ++ w_log w
  /\ calm w w'
  /\ w_log (cleanupEvents g w')
     = rev (map (failure_of g) left) ++ rev (map (failure_of g) left) ++ w_log w.
Proof.
  cbn zeta.
  destruct (cleanupEvents_fails_what_is_left_aux g w) as [Hlog Hcalm].
  split; [exact Hlog|]. split; [exact Hcalm|].
  destruct (cleanupEvents_fails_what_is_left_aux g (cleanupEvents g w)) as [Hlog' _].
  rewrite Hlog', Hlog.
  destruct Hcalm as (_ & Hj & _). rewrite Hj. reflexivity.
Qed.

Lemma waitCompletion_queue e g q :
  forall w,
    w_queue (fold_left
               (fun w tk =>
                  addJob e g w (tk_recinfo tk) (tk_tapeId tk) (tk_reqNum tk)) q w)
    = w_queue w.
Proof.
  induction q as [|tk q IH]; intros w; cbn [fold_left]; [reflexivity|].
  rewrite IH.
  destruct (addJob_cases e g w (tk_recinfo tk) (tk_tapeId tk) (tk_reqNum tk))
    as [(_ & _ & _ & Hq & _) _].
  exact Hq.
Qed.

(** X20.  When [TransRecall::run] has left its loop and come to its end,
    the queue of the job writers is empty and every transparent-recall job
    that is in the table then, the jobs the writers inserted during the
    shutdown among them, has been answered with a failure; the last
    message is LTFSDMS0084I. *)
Theorem shutdown_answers_every_job_left e g w :
  let w' := run_shutdown e g w in
  w_queue w' = []
  /\ Forall (fun j => is_trarecall j = true -> In (failure_of g j) (w_log w'))
       (w_jobs w')
  /\ hd_error (w_log w') = Some (Msg LTFSDMS0084I).
Proof.
  cbn zeta. unfold run_shutdown.
  set (w2 := waitCompletion e g (emit (Msg LTFSDMS0083I) w)).
  destruct (cleanupEvents_fails_what_is_left_aux g w2) as (Hlog & Hcalm).
  destruct Hcalm as (_ & Hj & _ & _ & _ & _ & _ & Hq & _).
  cbn [w_queue w_jobs w_log emit hd_error].
  split; [|split; [|reflexivity]].
  - rewrite Hq. subst w2. unfold waitCompletion. now rewrite waitCompletion_queue.
  - rewrite Hj, Hlog. apply List.Forall_forall. intros j Hin Hop.
    right. apply in_or_app. left. apply (proj1 (in_rev _ _)). apply in_map.
    apply List.filter_In. tauto.
Qed.

(** ** The inventory at the end of a request execution *)

Lemma free_drive_first ds slot :
  match Inventory.free_drive ds slot with
  | (ds', true) =>
      exists ds1 d ds2,
        ds = ds1 ++ d :: ds2
        /\ Forall (fun x => in_slot slot x = false) ds1
        /\ in_slot slot d = true
        /\ ds' = ds1 ++ set_free d :: ds2
  | (_, false) => Forall (fun x => in_slot slot x = false) ds
  end.
Proof.
  induction ds as [|d ds IH]; cbn [Inventory.free_drive]; [constructor|].
  destruct (Inventory.d_slot d =? slot) eqn:Hd.
  - exists [], d, ds. repeat split; [constructor|exact Hd].
  - destruct (Inventory.free_drive ds slot) as [ds' [|]].
    + destruct IH as (ds1 & d1 & ds2 & -> & Hall & Hin & ->).
      exists (d :: ds1), d1, ds2. repeat split; try assumption.
      constructor; assumption.
    + constructor; assumption.
Qed.

Lemma getCartridge_setState cs tapeId st c :
  List.find (fun c => String.eqb (Inventory.c_id c) tapeId) cs = Some c ->
  List.find (fun c => String.eqb (Inventory.c_id c) tapeId)
    (Inventory.setState cs tapeId st)
  = Some {| Inventory.c_id := Inventory.c_id c; Inventory.c_slot := Inventory.c_slot c;
            Inventory.c_state := st |}.
Proof.
  induction cs as [|c0 cs IH]; cbn [List.find Inventory.setState]; [discriminate|].
  destruct (String.eqb (Inventory.c_id c0) tapeId) eqn:Hc.
  - intros [= ->]. cbn [List.find Inventory.c_id]. rewrite Hc. reflexivity.
  - intros H. cbn [List.find]. rewrite Hc. apply IH, H.
Qed.

(** X21.  [execRequest] comes to its end exactly when the tape is in the
    inventory and some drive is in the slot of its cartridge.  Then the
    cartridge is set to TAPE_MOUNTED and keeps its slot, the first drive
    in that slot, in the order of the inventory, is set free, and every
    other drive is as it was.  Otherwise the process stops in the
    inventory block. *)
Theorem execRequest_frees_the_first_drive_of_the_slot e g w reqNum tapeId :
  let inv := w_inventory w in
  match execRequest e g w reqNum tapeId with
  | Some w' =>
      exists c ds1 d ds2,
        Inventory.getCartridge inv tapeId = Some c
        /\ Inventory.drives inv = ds1 ++ d :: ds2
        /\ Forall (fun x => in_slot (Inventory.c_slot c) x = false) ds1
        /\ in_slot (Inventory.c_slot c) d = true
        /\ Inventory.drives (w_inventory w') = ds1 ++ set_free d :: ds2
        /\ Inventory.getCartridge (w_inventory w') tapeId
           = Some {| Inventory.c_id := Inventory.c_id c;
                     Inventory.c_slot := Inventory.c_slot c;
                     Inventory.c_state := Inventory.TAPE_MOUNTED |}
  | None =>
      match Inventory.getCartridge inv tapeId with
      | None => True
      | Some c =>
          Forall (fun x => in_slot (Inventory.c_slot c) x = false)
            (Inventory.drives inv)
      end
  end.
Proof.
  cbn zeta. unfold execRequest, release_tape.
  destruct (processFiles_spec e g w reqNum tapeId)
    as (rl & _ & _ & _ & Hinv & _).
  cbn zeta in Hinv. rewrite Hinv.
  unfold Inventory.getCartridge.
  destruct (List.find _ (Inventory.cartridges (w_inventory w))) as [c|] eqn:Hc;
    [|exact I].
  pose proof (free_drive_first (Inventory.drives (w_inventory w)) (Inventory.c_slot c))
    as Hd.
  destruct (Inventory.free_drive _ _) as [ds' [|]]; [|exact Hd].
  destruct Hd as (ds1 & d & ds2 & Hds & Hall & Hin & ->).
  exists c, ds1, d, ds2. split; [reflexivity|].
  repeat (split; [assumption|]).
  destruct (negb (_ =? 0)); cbn [w_inventory emit set_requests set_inventory
                                   Inventory.drives Inventory.cartridges];
    (split; [reflexivity|]); apply getCartridge_setState; exact Hc.
Qed.

Example execRequest_two_drives_run :
  option_map
    (fun w' => map (fun d => (Inventory.d_id d, Inventory.d_busy d))
                 (Inventory.drives (w_inventory w')))
    (execRequest env_two g0
       (start (files []) inventory_two_drives ri42) 1 "T00001")
  = Some [("D0"%string, true); ("D1"%string, false); ("D2"%string, true)].
Proof. vm_compute. reflexivity. Qed.

Example execRequest_no_drive_run :
  execRequest env_two g0
    (start (files [])
       {| Inventory.cartridges := Inventory.cartridges inventory_two_drives;
          Inventory.drives := [] |} ri42) 1 "T00001"
  = None.
Proof. reflexivity. Qed.

(** ** One event from the receiver to the response *)

Lemma recinfo_of_job_row e ev tapeId reqNum sb st tn tores :
  recinfo_of_row (set_file_state RECALLING_MIG (job_row e ev tapeId reqNum sb st tn)) tores
  = {| conn_info := conn_info ev; toresident := tores; fuid := fuid ev;
       filename := filename ev |}.
Proof.
  unfold recinfo_of_row, job_row, set_file_state, sql_name. cbn.
  destruct ev as [c tr [a b c0 d] fn]. cbn. f_equal.
  destruct (String.eqb_spec fn "") as [->|Hne]; cbn; reflexivity.
Qed.

(** A turn of the receiver for an event whose file is not resident and
    whose tape has no request number yet. *)
Lemma run_iteration_new_tape w ev f st attr :
  conn_info ev <> 0 ->
  inum (fuid ev) <> 0 ->
  w_fs w (fuid ev) = Ok f ->
  getMigState f = Ok st ->
  st <> RESIDENT ->
  getAttribute f = Ok attr ->
  w_reqmap w !! first_tape attr = None ->
  run_iteration w (Ok ev) false
  = enqueue ev (first_tape attr) (w_globalReqNumber w + 1)
      (set_reqmap (<[first_tape attr := w_globalReqNumber w + 1]> (w_reqmap w))
         (w_globalReqNumber w + 1) (set_recinfo ev w)).
Proof.
  intros Hconn Hinum Hfs Hmig Hst Hattr Hmap.
  unfold run_iteration. cbn [w_recinfo set_recinfo w_fs w_reqmap w_globalReqNumber].
  replace (conn_info ev =? 0) with false by (symmetry; apply Z.eqb_neq; exact Hconn).
  replace (inum (fuid ev) =? 0) with false by (symmetry; apply Z.eqb_neq; exact Hinum).
  rewrite Hfs, Hmig.
  replace (file_state_eqb st RESIDENT) with false by (destruct st; try reflexivity; contradiction).
  rewrite Hattr, Hmap. cbn [w_reqmap set_reqmap]. rewrite lookup_insert_eq.
  reflexivity.
Qed.

(** A call of [addJob] none of whose steps fails, for a request number
    that has no request row yet. *)
Lemma addJob_inserts e g w recinfo tapeId reqNum f sb st attr tn :
  w_fs w (fuid recinfo) = Ok f ->
  FsObj.stat f = Ok sb ->
  st_isreg sb = true ->
  getMigState f = Ok st ->
  st <> RESIDENT ->
  getAttribute f = Ok attr ->
  getTapeName e (fuid recinfo) tapeId = Ok tn ->
  existsb (job_conflict (job_row e recinfo tapeId reqNum sb st tn)) (w_jobs w) = false ->
  CHECK_REQUEST_EXISTS (w_requests w) reqNum = [] ->
  addJob e g w recinfo tapeId reqNum
  = emit Notify
      (set_requests (w_requests w ++ [new_request e reqNum (first_tape attr)])
         (set_jobs (w_jobs w ++ [job_row e recinfo tapeId reqNum sb st tn]) w)).
Proof.
  intros Hfs Hstat Hreg Hmig Hst Hattr Hname Hconf Hreq.
  unfold addJob, addJob_try. rewrite Hfs, Hstat, Hreg. cbn [negb]. rewrite Hmig.
  replace (file_state_eqb st RESIDENT) with false by (destruct st; try reflexivity; contradiction).
  rewrite Hattr, Hname. unfold ADD_JOB. rewrite Hconf.
  unfold upsert_request. cbn [w_requests set_jobs]. rewrite Hreq. reflexivity.
Qed.

Lemma set_file_state_fields s j :
  j_req_num (set_file_state s j) = j_req_num j
  /\ j_tape_id (set_file_state s j) = j_tape_id j
  /\ j_file_state (set_file_state s j) = s
  /\ j_target_state (set_file_state s j) = j_target_state j.
Proof. repeat split. Qed.

(** [processFiles] for a request with one job, of a migrated file. *)
Lemma processFiles_one_job e0 e g w ev tapeId reqNum sb tn :
  w_jobs w = [job_row e0 ev tapeId reqNum sb MIGRATED tn] ->
  let tores := if toresident ev then true else g_toresident g in
  let recinfo := {| conn_info := conn_info ev; toresident := tores;
                    fuid := fuid ev; filename := filename ev |} in
  let target := if toresident ev then RESIDENT else PREMIGRATED in
  let row' := set_file_state RECALLING_MIG (job_row e0 ev tapeId reqNum sb MIGRATED tn) in
  let rec := recall e g (set_jobs [row'] w) recinfo tapeId MIGRATED target in
  processFiles e g w reqNum tapeId
  = respondRecallEvent recinfo (is_ok (snd rec)) (set_jobs [] (fst rec)).
Proof.
  intros Hjobs. cbn zeta.
  pose proof (fun tores => recinfo_of_job_row e0 ev tapeId reqNum sb MIGRATED tn tores)
    as Hri.
  set (row := job_row e0 ev tapeId reqNum sb MIGRATED tn) in *.
  assert (j_req_num row = reqNum) as Hn by reflexivity.
  assert (j_tape_id row = tapeId) as Ht by reflexivity.
  assert (j_file_state row = MIGRATED) as Hs by reflexivity.
  assert (j_target_state row = if toresident ev then RESIDENT else PREMIGRATED)
    as Hts by reflexivity.
  destruct (set_file_state_fields RECALLING_MIG row) as (Hn' & Ht' & Hs' & Hts').
  rewrite Hn in Hn'. rewrite Ht in Ht'. rewrite Hts in Hts'.
  clearbody row.
  remember (set_file_state RECALLING_MIG row) as row' eqn:Hrow'.
  unfold processFiles. rewrite Hjobs.
  unfold SET_RECALLING. cbn [map w_jobs set_jobs].
  rewrite Hn, Hs, Ht, Z.eqb_refl, String.eqb_refl. cbn [andb file_state_eqb].
  rewrite <- Hrow', Hn', Hs', Ht', Z.eqb_refl, String.eqb_refl.
  cbn [andb file_state_eqb].
  unfold SELECT_JOBS, recalling_job. cbn [List.filter].
  rewrite Hn', Hs', Ht', Z.eqb_refl, String.eqb_refl.
  cbn [andb orb file_state_eqb order_by_start_block fold_right insert_by_start_block
       process_rows].
  rewrite Hri. unfold row_state, row_toresident. rewrite Hs', Hts'.
  cbn [file_state_eqb].
  replace (if file_state_eqb (if toresident ev then RESIDENT else PREMIGRATED) RESIDENT
           then true else g_toresident g)
    with (if toresident ev then true else g_toresident g)
    by (destruct (toresident ev); reflexivity).
  change (set_jobs [row'] (set_jobs [row'] w)) with (set_jobs [row'] w).
  match goal with
  | |- context [recall e g ?w0 ?ri tapeId MIGRATED ?tg] =>
      pose proof (quiet_recall e g w0 ri tapeId MIGRATED tg) as Hq;
      destruct (recall e g w0 ri tapeId MIGRATED tg) as [w1 r]
  end.
  cbn [fst snd app] in *. destruct Hq as (Hj & _). cbn [w_jobs set_jobs] in Hj.
  unfold DELETE_JOBS, recalling_job. rewrite Hj.
  cbn [List.filter].
  rewrite Hn', Hs', Ht', Z.eqb_refl, String.eqb_refl. cbn [andb orb negb file_state_eqb].
  reflexivity.
Qed.

(** [recall] of a migrated file when nothing disturbs the copy and the
    tape object has the size of the file. *)
Lemma recall_undisturbed e g w recinfo tapeId toState target tn tp sb chunks :
  w_fs w (fuid recinfo) = Ok target ->
  getMigState target = Ok MIGRATED ->
  getTapeName e (fuid recinfo) tapeId = Ok tn ->
  tape e tn = Some tp ->
  FsObj.stat target = Ok sb ->
  size_mismatch tp sb = None ->
  (forall k, forcedTerminate e k = false) ->
  (forall off n, fo_write target off n = n) ->
  t_reads tp = map RData chunks ->
  Forall (fun c => c <> []) chunks ->
  Z.of_nat (length (concat chunks)) = st_size sb ->
  exists w' d,
    recall e g w recinfo tapeId MIGRATED toState = (w', Ok (st_size sb))
    /\ w_log w' = d ++ w_log w
    /\ copied (fuid recinfo) d = st_size sb
    /\ exists f', w_fs w' (fuid recinfo) = Ok f' /\ getMigState f' = Ok toState.
Proof.
  intros Hfs Hmig Hname Htape Hstat Hmm Hflag Hwrite Hreads Hchunks Htotal.
  rewrite (recall_migrated e g w recinfo tapeId MIGRATED toState target tn tp sb)
    by assumption.
  cbn zeta. rewrite Hmm, Hreads. cbn [file_state_eqb negb].
  match goal with
  | |- context [copy_loop e ?wd ?fu target tn ?sz _ 0] =>
      destruct (copy_loop_complete e fu target tn sz chunks
                  Hflag Hwrite Hchunks wd 0)
        as (wl & dl & Hrun & Hlog & _ & Hcp & _ & _); [lia|]
  end.
  rewrite Hrun. eexists _, _. split; [reflexivity|].
  split; [cbn [w_log emit]; rewrite finish_log; cbn [w_log emit]; rewrite Hlog;
          cbn [w_log emit]; solve [log_ext]|].
  split.
  - unfold finish_effects. destruct (file_state_eqb toState RESIDENT);
      cbn [copied app]; rewrite copied_app, Hcp; cbn; lia.
  - cbn [w_fs emit]. apply finish_state.
Qed.

(** X22.  The way of one event through the process when nothing fails:
    the event is for a migrated regular file whose attribute names a tape,
    its file name has no quote character and its uid components are below
    2^63, the tape object opens, has the size of the file and is read to
    its end, every write is complete, the server is not terminating, and
    the tape has a cartridge and a drive in the inventory.  After one turn
    of the receiver, the job writer it queued and the execution of request
    1 for the tape, the event has exactly one response, which is a success
    and carries its connection handle and file uid; as many bytes as the
    file has were written to it; the file is in the state the event asked
    for; and the job row, the request row and the queued task are gone. *)
Theorem recall_event_end_to_end
    e g fs inv ri0 ev f sb attr tn tp chunks inv' :
  conn_info ev <> 0 ->
  inum (fuid ev) <> 0 ->
  quote_free (filename ev) = true ->
  in_integer_range (fuid ev) ->
  fs (fuid ev) = Ok f ->
  FsObj.stat f = Ok sb ->
  st_isreg sb = true ->
  getMigState f = Ok MIGRATED ->
  getAttribute f = Ok attr ->
  getTapeName e (fuid ev) (first_tape attr) = Ok tn ->
  tape e tn = Some tp ->
  size_mismatch tp sb = None ->
  t_reads tp = map RData chunks ->
  Forall (fun c => c <> []) chunks ->
  Z.of_nat (length (concat chunks)) = st_size sb ->
  (forall k, forcedTerminate e k = false) ->
  (forall off n, fo_write f off n = n) ->
  release_tape inv (first_tape attr) = Some inv' ->
  exists w' ri,
    run_schedule [(e, Receive (Ok ev) false); (e, Worker 0 g);
                  (e, Execute g 1 (first_tape attr))] (start fs inv ri0)
    = Some w'
    /\ List.filter is_respond (w_log w') = [Respond ri true]
    /\ conn_info ri = conn_info ev
    /\ fuid ri = fuid ev
    /\ w_jobs w' = [] /\ w_requests w' = [] /\ w_queue w' = []
    /\ copied (fuid ev) (w_log w') = st_size sb
    /\ exists f',
         w_fs w' (fuid ev) = Ok f'
         /\ getMigState f' = Ok (if toresident ev then RESIDENT else PREMIGRATED).
Proof.
  intros Hconn Hinum _ _ Hfs Hstat Hreg Hmig Hattr Hname Htape Hmm Hreads Hchunks Hlen
    Hflag Hwrite Hinv.
  set (t := first_tape attr) in *.
  cbn [run_schedule step].
  rewrite (run_iteration_new_tape (start fs inv ri0) ev f MIGRATED attr)
    by (try assumption; try discriminate; apply lookup_empty).
  fold t. cbn [w_queue enqueue set_queue set_reqmap set_recinfo start app
               w_globalReqNumber w_reqmap].
  change ([{| tk_recinfo := ev; tk_tapeId := t; tk_reqNum := 0 + 1 |}] !! 0%nat)
    with (Some {| tk_recinfo := ev; tk_tapeId := t; tk_reqNum := 1 |}).
  cbn [tk_recinfo tk_tapeId tk_reqNum].
  change (delete 0%nat [{| tk_recinfo := ev; tk_tapeId := t; tk_reqNum := 0 + 1 |}])
    with (@nil task).
  rewrite (addJob_inserts e g _ ev t 1 f sb MIGRATED attr tn)
    by (try assumption; try discriminate; reflexivity).
  fold t. cbn [w_jobs w_requests set_queue app].
  unfold execRequest.
  rewrite (processFiles_one_job e e g _ ev t 1 sb tn) by reflexivity.
  match goal with
  | |- context [recall e g ?w0 ?ri t MIGRATED ?tg] =>
      destruct (recall_undisturbed e g w0 ri t tg f tn tp sb chunks)
        as (w1 & d & Hrec & Hlog & Hcp & f' & Hfs' & Hst');
      try assumption;
      pose proof (quiet_recall e g w0 ri t MIGRATED tg) as Hq;
      rewrite Hrec in *
  end.
  cbn [fst snd is_ok] in *.
  destruct Hq as (_ & Hr & Hi & _ & _ & _ & Hqu & _ & Hresp).
  cbn [w_fs w_jobs w_requests w_log w_inventory w_queue emit set_jobs set_requests
       set_recinfo set_reqmap set_queue enqueue start app List.filter is_respond fuid]
    in Hr, Hi, Hqu, Hresp, Hlog, Hcp, Hfs'.
  cbn [w_inventory respondRecallEvent emit set_jobs].
  rewrite Hi, Hinv.
  cbn [w_jobs set_inventory respondRecallEvent emit set_jobs].
  change (to_int (COUNT_REMAINING_JOBS [] 1 t) =? 0) with true. cbn [negb].
  eexists _, _. split; [reflexivity|].
  cbn [w_log w_jobs w_requests w_queue w_fs emit set_requests set_inventory set_jobs
       respondRecallEvent].
  rewrite Hr, Hqu.
  split; [cbn [List.filter is_respond]; rewrite Hresp; reflexivity|].
  split; [reflexivity|].
  split; [destruct (fuid ev); reflexivity|].
  split; [reflexivity|].
  split; [unfold DELETE_REQUEST, request_matches, new_request;
          cbn [List.filter r_req_num r_tape_id];
          rewrite Z.eqb_refl, String.eqb_refl; reflexivity|].
  split; [reflexivity|].
  split; [cbn [copied]; rewrite Hlog, copied_app; cbn; lia|].
  exists f'. split; assumption.
Qed.

Lemma recall_event_end_to_end_witness :
  exists w' ri,
    run_schedule [(env_two, Receive (Ok ri42) false); (env_two, Worker 0 g0);
                  (env_two,
                   Execute g0 1 (first_tape {| tapeId := ["T00001"%string] |}))]
      (start (files [(fu42, regular_file MIGRATED 8 ["T00001"%string])])
         inventory0 ri43)
    = Some w'
    /\ List.filter is_respond (w_log w') = [Respond ri true]
    /\ conn_info ri = conn_info ri42
    /\ fuid ri = fuid ri42
    /\ w_jobs w' = [] /\ w_requests w' = [] /\ w_queue w' = []
    /\ copied (fuid ri42) (w_log w') = st_size stat_8
    /\ exists f',
         w_fs w' (fuid ri42) = Ok f'
         /\ getMigState f' = Ok (if toresident ri42 then RESIDENT else PREMIGRATED).
Proof.
  eapply (recall_event_end_to_end env_two g0
            (files [(fu42, regular_file MIGRATED 8 ["T00001"%string])])
            inventory0 ri43 ri42 (regular_file MIGRATED 8 ["T00001"%string])
            stat_8 {| tapeId := ["T00001"%string] |} "T00001/42" tape_8 [chunk 8]);
    try reflexivity; try discriminate.
  - vm_compute. intuition discriminate.
  - repeat constructor. discriminate.
Defined.

Example end_to_end_run :
  option_map (fun w' => rev (w_log w'))
    (run_schedule [(env_two, Receive (Ok ri42) false); (env_two, Worker 0 g0);
                   (env_two, Execute g0 1 "T00001"%string)]
       (start (files [(fu42, regular_file MIGRATED 8 ["T00001"%string])])
          inventory0 ri43))
  = Some [Notify; Lock fu42; TapeOpen "T00001/42" true; PrepareRecall fu42;
          Poll 4 false; TapeRead "T00001/42" 8; FileWrite fu42 0 (chunk 8) 8;
          TapeClose "T00001/42"; FinishRecall fu42 PREMIGRATED; Unlock fu42;
          Respond ri42 true; Notify].
Proof. vm_compute. reflexivity. Qed.

(** ** A turn of the receiver when [getEvents] throws *)

(** X23.  When [getEvents] throws, the turn of the receiver loop logs
    LTFSDMS0036W and then goes on with [recinfo] as the turn before left
    it: it handles the event of the turn before once more, as if the
    connector had delivered it again. *)
Theorem getEvents_failure_repeats_the_last_event w x terminate :
  run_iteration w (Raise x) terminate
  = run_iteration (emit (Msg LTFSDMS0036W) w) (Ok (w_recinfo w)) terminate.
Proof.
  unfold run_iteration.
  assert (set_recinfo (w_recinfo w) (emit (Msg LTFSDMS0036W) w)
          = emit (Msg LTFSDMS0036W) w) as -> by (destruct w; reflexivity).
  reflexivity.
Qed.

(** ** The responses of a request execution *)

(** X24.  In the loop of [processFiles] the field [toresident] of
    [recinfo] is set when a job asks for RESIDENT and never cleared: the
    response for a job carries [toresident] set as soon as that job or any
    job before it in the loop asked for RESIDENT, and otherwise the value
    the field had when the loop began.  The loop adds one response for
    each row, in the order of the rows, after the responses it was given. *)
Theorem process_rows_toresident_is_sticky e g tapeId rows :
  forall w tores resplist,
    exists new,
      snd (process_rows e g tapeId rows w tores resplist) = resplist ++ new
      /\ map (fun r => toresident (fst r)) new = sticky tores (map j_target_state rows)
      /\ map (fun r => conn_info (fst r)) new = map j_conn_info rows.
Proof.
  induction rows as [|j rows IH]; intros w tores resplist;
    cbn [process_rows map sticky].
  - exists []. rewrite app_nil_r. repeat split.
  - unfold row_toresident.
    match goal with
    | |- context [recall ?e ?g ?w ?ri ?t ?s ?ts] =>
        destruct (recall e g w ri t s ts) as [w1 r]
    end.
    match goal with
    | |- context [process_rows e g tapeId rows w1 ?t ?rl] =>
        destruct (IH w1 t rl) as (new & Hnew & Hflags & Hconn)
    end.
    eexists (_ :: new). split; [rewrite Hnew, <- app_assoc; reflexivity|].
    cbn [map fst toresident conn_info recinfo_of_row].
    rewrite Hflags, Hconn. split; reflexivity.
Qed.

(** Of three jobs the second asks for RESIDENT: the responses for the
    second and the third carry [toresident] set. *)
Example sticky_run :
  sticky false [PREMIGRATED; RESIDENT; PREMIGRATED] = [false; true; true].
Proof. reflexivity. Qed.

(** * Responses when the threads interleave *)

(** ** The threads alone

    A job writer and an executor that no other thread comes between do
    what [addJob] and [execRequest] do. *)

Lemma run_threads_app a :
  forall b s,
    run_threads (a ++ b) s
    = match run_threads a s with
      | Some s' => run_threads b s'
      | None => None
      end.
Proof.
  induction a as [|[e m] a IH]; intros b s; cbn [app run_threads]; [reflexivity|].
  destruct (thread_step e m s); [apply IH|reflexivity].
Qed.

Lemma job_writer_alone e g w ph xs i tk :
  w_queue w !! i = Some tk ->
  let s := {| sys_world := w; sys_phase := ph; sys_writers := [];
              sys_executors := xs; sys_mtx := false |} in
  exists n,
    (n <= 2)%nat
    /\ run_threads ((e, Take i g) :: repeat (e, Store 0%nat) n) s
       = Some (with_world
                 (addJob e g (set_queue (delete i (w_queue w)) w) (tk_recinfo tk)
                    (tk_tapeId tk) (tk_reqNum tk)) s).
Proof.
  intros Hi. cbn zeta. unfold addJob.
  destruct (addJob_try e g (set_queue (delete i (w_queue w)) w) (tk_recinfo tk)
              (tk_tapeId tk) (sql_name (tk_recinfo tk)))
    as [w1|w1 sb st attr tn] eqn:Htry.
  - exists 0%nat. split; [lia|].
    cbn [repeat run_threads thread_step sys_world]. rewrite Hi, Htry. reflexivity.
  - destruct (ADD_JOB (w_jobs w1) (job_row e (tk_recinfo tk) (tk_tapeId tk)
                                     (tk_reqNum tk) sb st tn)) as [jobs'|x] eqn:Hadd.
    + exists 2%nat. split; [lia|].
      cbn [repeat run_threads thread_step sys_world]. rewrite Hi, Htry.
      cbn [run_threads thread_step with_writers with_world sys_writers sys_world
           sys_mtx app lookup list_lookup jw_inserted jw_recinfo jw_tapeId jw_reqNum
           jw_statbuf jw_state jw_tapeName jw_attr inserted].
      rewrite Hadd.
      cbn [run_threads thread_step with_writers with_world sys_writers sys_world
           sys_mtx app lookup list_lookup jw_inserted jw_recinfo jw_tapeId jw_reqNum
           jw_statbuf jw_state jw_tapeName jw_attr inserted insert list_insert
           delete list_delete sys_phase sys_executors].
      reflexivity.
    + exists 1%nat. split; [lia|].
      cbn [repeat run_threads thread_step sys_world]. rewrite Hi, Htry.
      cbn [run_threads thread_step with_writers with_world sys_writers sys_world
           sys_mtx app lookup list_lookup jw_inserted jw_recinfo jw_tapeId jw_reqNum
           jw_statbuf jw_state jw_tapeName jw_attr inserted].
      rewrite Hadd.
      cbn [run_threads with_writers with_world sys_writers sys_world
           sys_mtx delete list_delete sys_phase sys_executors].
      reflexivity.
Qed.

Lemma loop_alone e g reqNum tapeId ph ws mtx rows :
  forall w tores resplist,
    exists tores',
      run_threads (repeat (e, Advance 0%nat) (length rows))
        {| sys_world := w; sys_phase := ph; sys_writers := ws;
           sys_executors :=
             [{| ex_garbage := g; ex_reqNum := reqNum; ex_tapeId := tapeId;
                 ex_pc := InLoop; ex_cursor := rows; ex_toresident := tores;
                 ex_resplist := resplist; ex_remaining := 0 |}];
           sys_mtx := mtx |}
      = Some
          {| sys_world := fst (process_rows e g tapeId rows w tores resplist);
             sys_phase := ph; sys_writers := ws;
             sys_executors :=
               [{| ex_garbage := g; ex_reqNum := reqNum; ex_tapeId := tapeId;
                   ex_pc := InLoop; ex_cursor := []; ex_toresident := tores';
                   ex_resplist := snd (process_rows e g tapeId rows w tores resplist);
                   ex_remaining := 0 |}];
             sys_mtx := mtx |}.
Proof.
  induction rows as [|j rows IH]; intros w tores resplist;
    cbn [length repeat run_threads process_rows fst snd].
  - exists tores. reflexivity.
  - cbn [thread_step sys_executors sys_world sys_mtx lookup list_lookup advance ex_pc
         ex_cursor ex_reqNum ex_tapeId ex_toresident ex_garbage ex_resplist].
    destruct (recall e g w (recinfo_of_row j (row_toresident j tores)) tapeId
                (row_state j) (j_target_state j)) as [w1 r].
    cbn [with_executors with_world with_cursor with_resplist insert list_insert
         sys_world sys_phase sys_writers sys_executors sys_mtx ex_pc ex_cursor
         ex_reqNum ex_tapeId ex_toresident ex_garbage ex_resplist ex_remaining].
    apply IH.
Qed.

Lemma respond_alone e g reqNum tapeId ph ws mtx rows tores resplist :
  forall w,
    run_threads (repeat (e, Advance 0%nat) (length resplist))
      {| sys_world := w; sys_phase := ph; sys_writers := ws;
         sys_executors :=
           [{| ex_garbage := g; ex_reqNum := reqNum; ex_tapeId := tapeId;
               ex_pc := AtRespond; ex_cursor := rows; ex_toresident := tores;
               ex_resplist := resplist; ex_remaining := 0 |}];
         sys_mtx := mtx |}
    = Some
        {| sys_world := respond_all resplist w; sys_phase := ph; sys_writers := ws;
           sys_executors :=
             [{| ex_garbage := g; ex_reqNum := reqNum; ex_tapeId := tapeId;
                 ex_pc := AtRespond; ex_cursor := rows; ex_toresident := tores;
                 ex_resplist := []; ex_remaining := 0 |}];
           sys_mtx := mtx |}.
Proof.
  unfold respond_all.
  induction resplist as [|r resplist IH]; intros w;
    cbn [length repeat run_threads fold_left]; [reflexivity|].
  cbn [thread_step sys_executors sys_world sys_mtx lookup list_lookup advance ex_pc
       ex_cursor ex_reqNum ex_tapeId ex_toresident ex_garbage ex_resplist
       with_executors with_world with_resplist insert list_insert
       sys_phase sys_writers ex_remaining].
  apply IH.
Qed.

Ltac threads_cbn :=
  cbn [app repeat run_threads thread_step advance new_executor lookup list_lookup
       insert list_insert delete list_delete
       sys_world sys_phase sys_writers sys_executors sys_mtx
       with_world with_phase with_writers with_executors
       ex_garbage ex_reqNum ex_tapeId ex_pc ex_cursor ex_toresident ex_resplist
       ex_remaining at_pc with_cursor with_resplist with_remaining
       w_jobs w_requests set_inventory];
  unfold with_world, with_phase, with_writers, with_executors, at_pc, with_cursor,
    with_resplist, with_remaining, new_executor;
  cbn [sys_world sys_phase sys_writers sys_executors sys_mtx
       ex_garbage ex_reqNum ex_tapeId ex_pc ex_cursor ex_toresident ex_resplist
       ex_remaining].

Lemma executor_alone e g w ph ws reqNum tapeId w' :
  execRequest e g w reqNum tapeId = Some w' ->
  let s := {| sys_world := w; sys_phase := ph; sys_writers := ws;
              sys_executors := []; sys_mtx := false |} in
  exists n,
    run_threads ((e, Dispatch g reqNum tapeId) :: repeat (e, Advance 0%nat) n) s
    = Some (with_world w' s).
Proof.
  unfold execRequest, processFiles. intros Hexec. cbn zeta.
  set (w2 := set_jobs
               (SET_RECALLING
                  (w_jobs (set_jobs (SET_RECALLING (w_jobs w) RECALLING_MIG reqNum
                                       MIGRATED tapeId) w))
                  RECALLING_PREMIG reqNum PREMIGRATED tapeId)
               (set_jobs (SET_RECALLING (w_jobs w) RECALLING_MIG reqNum MIGRATED
                            tapeId) w)) in *.
  set (rows := SELECT_JOBS (w_jobs w2) reqNum RECALLING_MIG RECALLING_PREMIG tapeId)
    in *.
  destruct (loop_alone e g reqNum tapeId ph ws false rows w2 (g_toresident g) [])
    as [tores' Hloop].
  destruct (process_rows e g tapeId rows w2 (g_toresident g) []) as [w3 resplist]
    eqn:Hrows.
  cbn [fst snd] in Hloop.
  set (w4 := set_jobs (DELETE_JOBS (w_jobs w3) reqNum RECALLING_MIG RECALLING_PREMIG
                         tapeId) w3) in *.
  pose proof (respond_alone e g reqNum tapeId ph ws false [] tores' resplist w4)
    as Hresp.
  destruct (release_tape (w_inventory (respond_all resplist w4)) tapeId) as [inv|]
    eqn:Hinv; [|discriminate].
  injection Hexec as <-.
  exists (3 + (length rows + (2 + (length resplist + 4))))%nat.
  rewrite !repeat_app. cbn [repeat app run_threads].
  threads_cbn. fold w2. fold rows.
  rewrite run_threads_app, Hloop.
  threads_cbn. fold w4.
  rewrite run_threads_app, Hresp.
  threads_cbn. rewrite Hinv. threads_cbn.
  reflexivity.
Qed.

(** ** Lists of threads *)

Lemma count_insert {A} (p : A -> bool) (l : list A) i x y :
  l !! i = Some x ->
  count p (<[i := y]> l) = (indicator (p y) + count p (delete i l))%nat.
Proof.
  intros Hi.
  rewrite insert_take_drop by (eapply lookup_lt_Some; exact Hi).
  rewrite delete_take_drop, !count_app, count_cons. unfold indicator. lia.
Qed.

Lemma in_flight_app c l1 l2 :
  in_flight c (l1 ++ l2) = (in_flight c l1 + in_flight c l2)%nat.
Proof. unfold in_flight. now rewrite map_app, list_sum_app. Qed.

Lemma in_flight_delete c l k x :
  l !! k = Some x ->
  in_flight c l = (pending c x + in_flight c (delete k l))%nat.
Proof.
  intros Hk. rewrite <- (take_drop_middle l k x Hk) at 1.
  rewrite delete_take_drop, !in_flight_app.
  change (x :: skipn (S k) l) with ([x] ++ skipn (S k) l).
  rewrite in_flight_app. unfold in_flight at 2. cbn. lia.
Qed.

Lemma in_flight_insert c l k x y :
  l !! k = Some x ->
  in_flight c (<[k := y]> l) = (pending c y + in_flight c (delete k l))%nat.
Proof.
  intros Hk.
  rewrite insert_take_drop by (eapply lookup_lt_Some; exact Hk).
  rewrite delete_take_drop, !in_flight_app.
  change (y :: skipn (S k) l) with ([y] ++ skipn (S k) l).
  rewrite in_flight_app. unfold in_flight at 2. cbn. lia.
Qed.

Lemma keys_insert l k x y :
  l !! k = Some x -> exec_key y = exec_key x ->
  map exec_key (<[k := y]> l) = map exec_key l.
Proof.
  intros Hk Hkey.
  rewrite insert_take_drop by (eapply lookup_lt_Some; exact Hk).
  rewrite <- (take_drop_middle l k x Hk) at 3.
  rewrite !map_app. cbn [map]. now rewrite Hkey.
Qed.

Lemma keys_delete l k x :
  l !! k = Some x -> NoDup (map exec_key l) -> NoDup (map exec_key (delete k l)).
Proof.
  intros Hk Hnd. rewrite <- (take_drop_middle l k x Hk) in Hnd.
  rewrite delete_take_drop, map_app in *. cbn [map] in Hnd.
  apply NoDup_app in Hnd. destruct Hnd as (H1 & H2 & H3).
  apply NoDup_cons in H3. destruct H3 as [H3 H4].
  apply NoDup_app. split; [exact H1|split; [|exact H4]].
  intros y Hy Hy'. apply (H2 y Hy). right. exact Hy'.
Qed.

(** The other executors have other keys. *)
Lemma others_differ l k x :
  l !! k = Some x -> NoDup (map exec_key l) ->
  Forall (fun y => exec_key y <> exec_key x) (delete k l).
Proof.
  intros Hk Hnd. rewrite <- (take_drop_middle l k x Hk) in Hnd.
  rewrite delete_take_drop. rewrite map_app in Hnd. cbn [map] in Hnd.
  apply NoDup_app in Hnd. destruct Hnd as (H1 & H2 & H3).
  apply NoDup_cons in H3. destruct H3 as [H3 H4].
  apply Forall_app. split; apply Forall_forall; intros y Hy Heq.
  - apply (H2 (exec_key y)).
    + apply list_elem_of_fmap. exists y. split; [reflexivity|exact Hy].
    + rewrite Heq. left.
  - apply H3. rewrite <- Heq.
    apply list_elem_of_fmap. exists y. split; [reflexivity|exact Hy].
Qed.

Lemma forall_insert_delete {A} (P : A -> Prop) (l : list A) k x y :
  l !! k = Some x -> P y -> Forall P (delete k l) -> Forall P (<[k := y]> l).
Proof.
  intros Hk Hy Hall.
  rewrite insert_take_drop by (eapply lookup_lt_Some; exact Hk).
  rewrite delete_take_drop in Hall. apply Forall_app in Hall.
  destruct Hall as [H1 H2]. apply Forall_app. split; [exact H1|].
  constructor; assumption.
Qed.

Lemma forall_delete {A} (P : A -> Prop) (l : list A) k :
  Forall P l -> Forall P (delete k l).
Proof.
  intros Hall. apply Forall_forall. intros y Hy.
  apply list_elem_of_delete_inv in Hy.
  rewrite Forall_forall in Hall. apply Hall. exact Hy.
Qed.

(** ** The rows an execution has claimed *)

Lemma claimed_count_set_recalling c r t jobs new r' old t' :
  (r', t') <> (r, t) ->
  claimed_count c r t (SET_RECALLING jobs new r' old t') = claimed_count c r t jobs.
Proof.
  intros Hne. unfold claimed_count, SET_RECALLING.
  induction jobs as [|j jobs IH]; [reflexivity|].
  cbn [map List.filter].
  assert (recalling_job r RECALLING_MIG RECALLING_PREMIG t
            (if (j_req_num j =? r') && file_state_eqb (j_file_state j) old
                && String.eqb (j_tape_id j) t'
             then set_file_state new j else j)
          = recalling_job r RECALLING_MIG RECALLING_PREMIG t j) as Hsame.
  { destruct ((j_req_num j =? r') && file_state_eqb (j_file_state j) old
              && String.eqb (j_tape_id j) t') eqn:Hm; [|reflexivity].
    apply andb_true_iff in Hm. destruct Hm as [Hm Ht].
    apply andb_true_iff in Hm. destruct Hm as [Hr _].
    apply Z.eqb_eq in Hr. apply String.eqb_eq in Ht.
    unfold recalling_job. cbn [set_file_state j_req_num j_tape_id j_file_state].
    destruct (Z.eqb_spec (j_req_num j) r) as [Hr'|]; [|reflexivity].
    destruct (String.eqb_spec (j_tape_id j) t) as [Ht'|];
      [|now rewrite !andb_false_r].
    exfalso. apply Hne. congruence. }
  rewrite Hsame.
  destruct (recalling_job r RECALLING_MIG RECALLING_PREMIG t j);
    [|exact IH].
  rewrite !count_cons, IH.
  destruct (_ && _); reflexivity.
Qed.

Lemma claimed_count_delete c r t jobs r' t' :
  (r', t') <> (r, t) ->
  claimed_count c r t (DELETE_JOBS jobs r' RECALLING_MIG RECALLING_PREMIG t')
  = claimed_count c r t jobs.
Proof.
  intros Hne. unfold claimed_count, DELETE_JOBS.
  induction jobs as [|j jobs IH]; [reflexivity|].
  cbn [List.filter].
  destruct (recalling_job r' RECALLING_MIG RECALLING_PREMIG t' j) eqn:H';
    cbn [negb List.filter].
  - assert (recalling_job r RECALLING_MIG RECALLING_PREMIG t j = false) as ->.
    { unfold recalling_job in *.
      apply andb_true_iff in H'. destruct H' as [H' Ht].
      apply andb_true_iff in H'. destruct H' as [Hr _].
      apply Z.eqb_eq in Hr. apply String.eqb_eq in Ht.
      destruct (Z.eqb_spec (j_req_num j) r) as [Hr'|]; [|reflexivity].
      destruct (String.eqb_spec (j_tape_id j) t) as [Ht'|];
        [|now rewrite !andb_false_r].
      exfalso. apply Hne. congruence. }
    exact IH.
  - destruct (recalling_job r RECALLING_MIG RECALLING_PREMIG t j);
      [rewrite !count_cons, IH; reflexivity|exact IH].
Qed.

Lemma claimed_count_add c r t jobs row :
  job_of c row && recalling_state (j_file_state row) = false ->
  claimed_count c r t (jobs ++ [row]) = claimed_count c r t jobs.
Proof.
  intros Hrow. unfold claimed_count.
  rewrite List.filter_app, count_app. cbn [List.filter].
  destruct (recalling_job r RECALLING_MIG RECALLING_PREMIG t row) eqn:Hr;
    [|rewrite count_nil; lia].
  rewrite count_cons, count_nil.
  unfold recalling_job, recalling_state in *.
  apply andb_true_iff in Hr. destruct Hr as [Hr _].
  apply andb_true_iff in Hr. destruct Hr as [_ Hs]. rewrite Hs in Hrow.
  rewrite andb_true_r in Hrow. rewrite Hrow. lia.
Qed.

Lemma exec_ok_jobs c jobs jobs' x :
  claimed_count c (ex_reqNum x) (ex_tapeId x) jobs'
  = claimed_count c (ex_reqNum x) (ex_tapeId x) jobs ->
  exec_ok c jobs x -> exec_ok c jobs' x.
Proof.
  unfold exec_ok. intros Heq. destruct (ex_pc x); try tauto; now rewrite Heq.
Qed.

(** ** What the steps leave alone *)

Lemma dropped_run_iteration w ev terminate :
  w_dropped (run_iteration w ev terminate) = w_dropped w.
Proof.
  unfold run_iteration.
  set (w0 := match ev with
             | Ok r => set_recinfo r w
             | Raise _ => emit (Msg LTFSDMS0036W) w
             end).
  assert (w_dropped w0 = w_dropped w) as <- by (destruct ev; reflexivity).
  clearbody w0.
  assert (forall x, w_dropped (run_catch x (w_recinfo w0) w0) = w_dropped w0)
    as Hcatch by (intros [err n|]; reflexivity).
  destruct (conn_info (w_recinfo w0) =? 0); [reflexivity|].
  destruct terminate; [reflexivity|].
  destruct (inum (fuid (w_recinfo w0)) =? 0); [reflexivity|].
  destruct (w_fs w0 (fuid (w_recinfo w0))) as [fso|x]; [|apply Hcatch].
  destruct (getMigState fso) as [st|x]; [|apply Hcatch].
  destruct (file_state_eqb st RESIDENT); [reflexivity|].
  destruct (getAttribute fso) as [attr|x]; [|apply Hcatch].
  destruct (w_reqmap w0 !! first_tape attr); reflexivity.
Qed.

(** The [try] block of [addJob] leaves the event unanswered exactly at
    its guard. *)
Lemma dropped_addJob_try c e g w recinfo tapeId sqlname :
  let w1 := match addJob_try e g w recinfo tapeId sqlname with
            | Returned w1 => w1
            | Continue w1 _ _ _ _ => w1
            end in
  count (handle_is c) (w_dropped w1)
  = (count (handle_is c) (w_dropped w)
     + indicator (handle_is c (conn_info recinfo) && at_guard w recinfo))%nat.
Proof.
  cbn zeta.
  assert (w_dropped (addJob_catch sqlname w) = w_dropped w) as Hcatch
    by (unfold addJob_catch; destruct (negb _); reflexivity).
  unfold addJob_try, at_guard.
  destruct (w_fs w (fuid recinfo)) as [fso|x];
    [|rewrite Hcatch, andb_false_r; cbn [indicator]; lia].
  destruct (FsObj.stat fso) as [sb|x];
    [|rewrite Hcatch, andb_false_r; cbn [indicator]; lia].
  destruct (negb (st_isreg sb)).
  { cbn [w_dropped drop emit]. rewrite count_cons.
    rewrite andb_true_r. unfold indicator. lia. }
  rewrite andb_false_r. cbn [indicator].
  destruct (getMigState fso) as [st|x]; [|rewrite Hcatch; lia].
  destruct (file_state_eqb st RESIDENT); [cbn [w_dropped respondRecallEvent emit]; lia|].
  destruct (getAttribute fso) as [attr|x]; [|rewrite Hcatch; lia].
  destruct (getTapeName e (fuid recinfo) tapeId) as [tn|x]; [lia|rewrite Hcatch; lia].
Qed.


(** ** Where the events are *)

Lemma others_ok c jobs jobs' l k x :
  l !! k = Some x ->
  NoDup (map exec_key l) ->
  Forall (exec_ok c jobs) l ->
  (forall r t, (r, t) <> exec_key x ->
               claimed_count c r t jobs' = claimed_count c r t jobs) ->
  Forall (exec_ok c jobs') (delete k l).
Proof.
  intros Hk Hnd Hall Hcc.
  pose proof (others_differ l k x Hk Hnd) as Hdiff.
  pose proof (forall_delete _ l k Hall) as Hall'.
  rewrite Forall_forall in *. intros y Hy.
  apply (exec_ok_jobs c jobs); [|apply Hall'; exact Hy].
  apply Hcc. apply Hdiff. exact Hy.
Qed.

Lemma account_jobs c w jobs :
  count (job_of c) jobs = count (job_of c) (w_jobs w) ->
  account c (set_jobs jobs w) = account c w.
Proof. unfold account. cbn [w_log w_jobs w_queue w_dropped set_jobs]. lia. Qed.

(** One statement of an executor keeps the events where they are counted:
    in a job row or among the responses the executor has still to send. *)
Lemma advance_conserves c e x w mtx w' ox mtx' l k :
  advance e x w mtx = Some (w', ox, mtx') ->
  l !! k = Some x ->
  NoDup (map exec_key l) ->
  Forall (exec_ok c (w_jobs w)) l ->
  all_trarecall (w_jobs w) ->
  let l' := match ox with
            | Some x' => <[k := x']> l
            | None => delete k l
            end in
  (account c w' + in_flight c l')%nat = (account c w + in_flight c l)%nat
  /\ all_trarecall (w_jobs w')
  /\ Forall (exec_ok c (w_jobs w')) l'
  /\ NoDup (map exec_key l')
  /\ w_dropped w' = w_dropped w
  /\ w_queue w' = w_queue w
  /\ w_recinfo w' = w_recinfo w.
Proof.
  intros Hadv Hk Hnd Hall Htra. cbn zeta.
  assert (exec_ok c (w_jobs w) x) as Hx
    by (rewrite Forall_forall in Hall; apply Hall;
        eapply list_elem_of_lookup_2; exact Hk).
  rewrite (in_flight_delete c l k x Hk).
  assert (forall x' jobs',
            exec_key x' = exec_key x ->
            exec_ok c jobs' x' ->
            (forall r t, (r, t) <> exec_key x ->
                         claimed_count c r t jobs' = claimed_count c r t (w_jobs w)) ->
            Forall (exec_ok c jobs') (<[k := x']> l)
            /\ NoDup (map exec_key (<[k := x']> l))) as Hkeep.
  { intros x' jobs' Hkey Hok Hcc. split.
    - apply (forall_insert_delete _ l k x x' Hk Hok).
      apply (others_ok c (w_jobs w) jobs' l k x Hk Hnd Hall Hcc).
    - rewrite (keys_insert l k x x' Hk Hkey). exact Hnd. }
  unfold advance in Hadv. unfold exec_ok in Hx.
  destruct (ex_pc x) eqn:Hpc.
  - (* the first SET_RECALLING *)
    injection Hadv as <- <- <-.
    rewrite (in_flight_insert c l k x _ Hk).
    destruct (Hkeep (at_pc AtSetRecallingPremig x)
                (SET_RECALLING (w_jobs w) RECALLING_MIG (ex_reqNum x) MIGRATED
                   (ex_tapeId x))) as [Hf Hn];
      [reflexivity|exact Hx| |].
    { intros r t Hne. apply claimed_count_set_recalling.
      intros Heq. apply Hne. symmetry. exact Heq. }
    rewrite account_jobs by apply count_job_of_set_recalling.
    unfold pending. rewrite Hpc. cbn [at_pc ex_pc w_jobs set_jobs w_dropped w_queue
                                     w_recinfo].
    repeat split; try assumption; try lia.
    apply all_trarecall_set_recalling, Htra.
  - (* the second SET_RECALLING *)
    injection Hadv as <- <- <-.
    rewrite (in_flight_insert c l k x _ Hk).
    destruct (Hkeep (at_pc AtSelectJobs x)
                (SET_RECALLING (w_jobs w) RECALLING_PREMIG (ex_reqNum x) PREMIGRATED
                   (ex_tapeId x))) as [Hf Hn];
      [reflexivity|exact Hx| |].
    { intros r t Hne. apply claimed_count_set_recalling.
      intros Heq. apply Hne. symmetry. exact Heq. }
    rewrite account_jobs by apply count_job_of_set_recalling.
    unfold pending. rewrite Hpc. cbn [at_pc ex_pc w_jobs set_jobs w_dropped w_queue
                                     w_recinfo].
    repeat split; try assumption; try lia.
    apply all_trarecall_set_recalling, Htra.
  - (* SELECT_JOBS *)
    injection Hadv as <- <- <-.
    rewrite (in_flight_insert c l k x _ Hk).
    match goal with
    | |- context [<[k := ?x']> l] =>
        destruct (Hkeep x' (w_jobs w)) as [Hf Hn]; [reflexivity| |reflexivity|]
    end.
    { unfold exec_ok. cbn [at_pc with_cursor ex_pc ex_resplist ex_cursor ex_reqNum
                            ex_tapeId].
      rewrite Hx, count_nil. unfold claimed_count, SELECT_JOBS.
      rewrite (count_perm _ _ _ (order_by_start_block_perm _)). reflexivity. }
    unfold pending. rewrite Hpc. cbn [at_pc with_cursor ex_pc].
    repeat split; try assumption; try lia.
  - (* a turn of the loop over the cursor *)
    destruct (ex_cursor x) as [|j rows] eqn:Hcur.
    + injection Hadv as <- <- <-.
      rewrite (in_flight_insert c l k x _ Hk).
      destruct (Hkeep (at_pc AtDeleteJobs x) (w_jobs w)) as [Hf Hn];
        [reflexivity| |reflexivity|].
      { unfold exec_ok. cbn [at_pc ex_pc ex_resplist ex_reqNum ex_tapeId].
        rewrite Hx, count_nil. lia. }
      unfold pending. rewrite Hpc. cbn [at_pc ex_pc].
      repeat split; try assumption; try lia.
    + match type of Hadv with
      | context [recall ?e ?g ?w ?ri ?t ?s ?ts] =>
          pose proof (quiet_recall e g w ri t s ts) as Hq;
          destruct (recall e g w ri t s ts) as [w1 r]
      end.
      cbn [fst] in Hq. injection Hadv as <- <- <-.
      destruct Hq as (Hj & _ & _ & Hri & _ & _ & Hqu & Hd & Hresp).
      rewrite (in_flight_insert c l k x _ Hk).
      match goal with
      | |- context [<[k := ?x']> l] =>
          destruct (Hkeep x' (w_jobs w1)) as [Hf Hn];
            [reflexivity| |intros r' t' _; rewrite Hj; reflexivity|]
      end.
      { unfold exec_ok. cbn [with_cursor with_resplist ex_pc ex_resplist ex_cursor
                              ex_reqNum ex_tapeId].
        rewrite Hpc, Hj, Hx, count_app, !count_cons, !count_nil.
        change (answer_of c (recinfo_of_row j (row_toresident j (ex_toresident x)),
                             is_ok r)) with (job_of c j).
        lia. }
      unfold pending. rewrite Hpc. cbn [with_cursor with_resplist ex_pc].
      rewrite Hpc.
      assert (account c w1 = account c w) as ->.
      { unfold account. rewrite Hj, Hqu, Hd.
        rewrite <- (count_responds_filter c (w_log w1)), Hresp, count_responds_filter.
        reflexivity. }
      rewrite Hj in Hf |- *. repeat split; try assumption; try lia.
  - (* DELETE_JOBS *)
    injection Hadv as <- <- <-.
    rewrite (in_flight_insert c l k x _ Hk).
    destruct (Hkeep (at_pc AtRespond x)
                (DELETE_JOBS (w_jobs w) (ex_reqNum x) RECALLING_MIG RECALLING_PREMIG
                   (ex_tapeId x))) as [Hf Hn];
      [reflexivity|unfold exec_ok; cbn [at_pc ex_pc]; exact I| |].
    { intros r t Hne. apply claimed_count_delete.
      intros Heq. apply Hne. symmetry. exact Heq. }
    unfold pending. rewrite Hpc. cbn [at_pc ex_pc ex_resplist].
    cbn [w_jobs set_jobs w_dropped w_queue w_recinfo].
    split; [|repeat split; try assumption; apply all_trarecall_filter, Htra].
    unfold account. cbn [w_log w_jobs w_queue w_dropped set_jobs].
    pose proof (count_split (job_of c)
                  (recalling_job (ex_reqNum x) RECALLING_MIG RECALLING_PREMIG
                     (ex_tapeId x)) (w_jobs w)) as Hsplit.
    unfold claimed_count in Hx. unfold DELETE_JOBS. lia.
  - (* a turn of the loop over resplist *)
    destruct (ex_resplist x) as [|r resplist] eqn:Hresp.
    + injection Hadv as <- <- <-.
      rewrite (in_flight_insert c l k x _ Hk).
      destruct (Hkeep (at_pc AtSchedulerMtx x) (w_jobs w)) as [Hf Hn];
        [reflexivity|unfold exec_ok; cbn [at_pc ex_pc]; exact I|reflexivity|].
      unfold pending. rewrite Hpc, Hresp. cbn [at_pc ex_pc].
      rewrite count_nil. repeat split; try assumption; try lia.
    + injection Hadv as <- <- <-.
      rewrite (in_flight_insert c l k x _ Hk).
      match goal with
      | |- context [<[k := ?x']> l] =>
          destruct (Hkeep x' (w_jobs w)) as [Hf Hn];
            [reflexivity
            |unfold exec_ok; cbn [with_resplist ex_pc]; rewrite Hpc; exact I
            |reflexivity|]
      end.
      unfold pending. cbn [with_resplist ex_pc ex_resplist]. rewrite Hpc, Hresp.
      rewrite count_cons.
      unfold account, respondRecallEvent. cbn [w_log w_jobs w_queue w_dropped emit
                                               w_recinfo].
      rewrite count_cons. cbn [responds_to].
      change (conn_info (fst r) =? c) with (answer_of c r).
      repeat split; try assumption; try lia.
  - (* the lock of Scheduler::mtx and the inventory block *)
    destruct mtx; [discriminate|].
    destruct (release_tape (w_inventory w) (ex_tapeId x)) as [inv|]; [|discriminate].
    injection Hadv as <- <- <-.
    rewrite (in_flight_insert c l k x _ Hk).
    destruct (Hkeep (at_pc AtCountRemaining x) (w_jobs w)) as [Hf Hn];
      [reflexivity|unfold exec_ok; cbn [at_pc ex_pc]; exact I|reflexivity|].
    unfold pending. rewrite Hpc. cbn [at_pc ex_pc].
    repeat split; try assumption; try lia.
  - (* COUNT_REMAINING_JOBS *)
    injection Hadv as <- <- <-.
    rewrite (in_flight_insert c l k x _ Hk).
    match goal with
    | |- context [<[k := ?x']> l] =>
        destruct (Hkeep x' (w_jobs w)) as [Hf Hn];
          [reflexivity
          |unfold exec_ok; cbn [at_pc with_remaining ex_pc]; exact I
          |reflexivity|]
    end.
    unfold pending. rewrite Hpc. cbn [at_pc with_remaining ex_pc].
    repeat split; try assumption; try lia.
  - (* the update of the request row *)
    injection Hadv as <- <- <-.
    unfold pending. rewrite Hpc.
    assert (Forall (exec_ok c (w_jobs w)) (delete k l)) as Hf
      by (apply forall_delete, Hall).
    pose proof (keys_delete l k x Hk Hnd) as Hn.
    destruct (negb (ex_remaining x =? 0));
      cbn [w_jobs w_dropped w_queue w_recinfo emit set_requests];
      (split; [unfold account;
               cbn [w_log w_jobs w_queue w_dropped emit set_requests];
               rewrite count_cons; cbn [responds_to]; lia|]);
      repeat split; assumption.
Qed.

Lemma dropped_upsert_request e w tapeId reqNum attr :
  w_dropped (upsert_request e w tapeId reqNum attr) = w_dropped w.
Proof.
  unfold upsert_request.
  destruct (CHECK_REQUEST_EXISTS (w_requests w) reqNum); reflexivity.
Qed.

Lemma unwritten_delete c l k jw :
  l !! k = Some jw ->
  unwritten c l
  = (indicator (negb (jw_inserted jw) && handle_is c (conn_info (jw_recinfo jw)))
     + unwritten c (delete k l))%nat.
Proof. intros Hk. unfold unwritten. now rewrite (count_delete _ l k jw Hk). Qed.

Lemma not_same_key r t l :
  existsb (same_key r t) l = false -> ~ In (r, t) (map exec_key l).
Proof.
  intros Hex Hin. apply in_map_iff in Hin. destruct Hin as (x & Hkey & Hx).
  assert (existsb (same_key r t) l = true) as Htrue.
  { apply existsb_exists. exists x. split; [exact Hx|].
    unfold exec_key in Hkey. injection Hkey as <- <-.
    unfold same_key. now rewrite Z.eqb_refl, String.eqb_refl. }
  congruence.
Qed.

(** Every step of every thread keeps the events with the handle [c]
    where [conserved] counts them; a turn of the receiver that handles
    one adds it, and a job writer that leaves one unanswered is counted
    as such. *)
Lemma conserved_step c e m s s' handled unanswered :
  conserved c handled unanswered s ->
  thread_step e m s = Some s' ->
  permitted c m s = true ->
  conserved c (handled + turns c (w_recinfo (sys_world s)) [(e, m)])
    (unanswered + indicator (leaves_unanswered c e m s)) s'
  /\ w_recinfo (sys_world s')
     = match m with
       | Turn (Ok r) _ => r
       | _ => w_recinfo (sys_world s)
       end.
Proof.
  intros [Hd Hc] Hstep Hperm.
  destruct s as [w ph ws xs mtx]. cbn [sys_world sys_phase sys_writers sys_executors
                                       sys_mtx] in *.
  destruct m as [ev terminate| |i g|k|g reqNum tapeId|k|g| |fs];
    cbn [thread_step turns leaves_unanswered permitted indicator sys_world sys_phase
         sys_writers sys_executors sys_mtx] in *.
  - (* a turn of the receiver *)
    destruct ph; try discriminate. injection Hstep as <-.
    destruct Hc as (Ha & Htra & Hok & Hnd).
    destruct (account_run_iteration c w ev terminate) as (Ha' & Hj & Hr).
    cbn zeta in *. unfold conserved.
    cbn [with_world sys_world sys_phase sys_writers sys_executors].
    rewrite dropped_run_iteration, Ha', Hj, Hr.
    split; [|destruct ev; reflexivity].
    split; [lia|]. split; [lia|]. repeat split; assumption.
  - (* the receiver leaves its loop *)
    destruct ph; try discriminate. injection Hstep as <-.
    destruct Hc as (Ha & Htra & Hok & Hnd).
    unfold conserved, account in *.
    cbn [with_world with_phase sys_world sys_phase sys_writers sys_executors
         w_log w_jobs w_queue w_dropped w_recinfo emit] in *.
    rewrite count_cons. cbn [responds_to].
    split; [|reflexivity]. split; [lia|]. split; [lia|]. repeat split; assumption.
  - (* a job writer takes a task *)
    destruct (w_queue w !! i) as [tk|] eqn:Hi; [|discriminate].
    destruct ph.
    3, 4: destruct Hc as (_ & _ & _ & Hq); rewrite Hq in Hi; discriminate.
    all: destruct Hc as (Ha & Htra & Hok & Hnd).
    all: pose proof (account_addJob_try c e g (set_queue (delete i (w_queue w)) w)
                       (tk_recinfo tk) (tk_tapeId tk) (sql_name (tk_recinfo tk)))
           as Htry.
    all: pose proof (dropped_addJob_try c e g (set_queue (delete i (w_queue w)) w)
                       (tk_recinfo tk) (tk_tapeId tk) (sql_name (tk_recinfo tk)))
           as Hdrop.
    all: cbn zeta in Hdrop.
    all: assert (account c (set_queue (delete i (w_queue w)) w)
                 + indicator (task_of c tk) = account c w)%nat as Hacc
           by (unfold account; cbn [w_log w_jobs w_queue w_dropped set_queue];
               rewrite (count_delete (task_of c) (w_queue w) i tk Hi); lia).
    all: destruct (addJob_try e g (set_queue (delete i (w_queue w)) w) (tk_recinfo tk)
                     (tk_tapeId tk) (sql_name (tk_recinfo tk)))
           as [w1|w1 sb st attr tn];
      injection Hstep as <-; destruct Htry as (Ha1 & Hj1 & Hq1 & Hr1);
      unfold conserved;
      cbn [with_world with_writers sys_world sys_phase sys_writers sys_executors
           w_jobs w_recinfo set_queue] in *;
      rewrite Hj1, Hr1, Hdrop; cbn [w_dropped set_queue];
      (split; [|reflexivity]);
      (split; [change (handle_is c (conn_info (tk_recinfo tk))) with (task_of c tk);
               lia|]);
      (split; [|repeat split; assumption]).
    all: unfold mine in Ha1; change (conn_info (tk_recinfo tk) =? c)
                               with (task_of c tk) in Ha1.
    1, 3: lia.
    all: unfold unwritten in *; rewrite count_app, count_cons, count_nil;
      cbn [jw_inserted jw_recinfo negb andb];
      change (conn_info (tk_recinfo tk) =? c) with (task_of c tk);
      unfold indicator in *; lia.
  - (* a job writer executes ADD_JOB or the block under the lock *)
    destruct (ws !! k) as [jw|] eqn:Hk; [|discriminate].
    destruct ph.
    3, 4: destruct Hc as (_ & _ & Hw & _); rewrite Hw in Hk; discriminate.
    all: destruct Hc as (Ha & Htra & Hok & Hnd).
    all: rewrite (unwritten_delete c ws k jw Hk) in Ha.
    all: destruct (jw_inserted jw) eqn:Hins; cbn [negb andb] in *.
    1, 3: destruct mtx; [discriminate|]; injection Hstep as <-;
      destruct (account_upsert_request c e w (jw_tapeId jw) (jw_reqNum jw)
                  (jw_attr jw)) as (Ha' & Hj' & _ & Hr');
      unfold conserved;
      cbn [with_world with_writers sys_world sys_phase sys_writers sys_executors];
      rewrite dropped_upsert_request, Ha', Hj', Hr', andb_false_r;
      cbn [andb indicator] in *;
      (split; [|reflexivity]); (split; [lia|]); (split; [lia|]);
      repeat split; assumption.
    all: unfold refused; unfold ADD_JOB in Hstep;
      set (row := job_row e (jw_recinfo jw) (jw_tapeId jw) (jw_reqNum jw)
                    (jw_statbuf jw) (jw_state jw) (jw_tapeName jw)) in *;
      destruct (existsb (job_conflict row) (w_jobs w)) eqn:Hconf;
      injection Hstep as <-; unfold conserved;
      cbn [with_world with_writers sys_world sys_phase sys_writers sys_executors
           w_dropped w_jobs w_recinfo drop set_jobs];
      rewrite ?andb_true_r, ?andb_false_r;
      (split; [|reflexivity]).
    1, 3: rewrite count_cons;
      change (handle_is c (conn_info (jw_recinfo jw)))
        with (conn_info (jw_recinfo jw) =? c) in *;
      (split; [unfold indicator; lia|]);
      (split; [|repeat split; assumption]);
      unfold account in *; cbn [w_log w_jobs w_queue w_dropped drop];
      rewrite count_cons;
      change (handle_is c (conn_info (jw_recinfo jw)))
        with (conn_info (jw_recinfo jw) =? c);
      unfold indicator in *; lia.
    all: cbn [indicator]; (split; [lia|]).
    all: assert (job_of c row = (conn_info (jw_recinfo jw) =? c)) as Hrow
           by reflexivity.
    all: split;
      [unfold unwritten; rewrite (count_insert _ ws k jw _ Hk);
       cbn [inserted jw_inserted negb andb indicator];
       fold (unwritten c (delete k ws));
       unfold account in *; cbn [w_log w_jobs w_queue w_dropped set_jobs];
       rewrite count_app, count_cons, count_nil, Hrow;
       change (handle_is c (conn_info (jw_recinfo jw)))
         with (conn_info (jw_recinfo jw) =? c) in Ha;
       unfold indicator in *; lia|].
    all: split; [apply Forall_app; split; [exact Htra|];
                 constructor; [reflexivity|constructor]|].
    all: split; [|exact Hnd].
    all: eapply List.Forall_impl; [|exact Hok].
    all: intros x; apply exec_ok_jobs; apply claimed_count_add;
      rewrite Hrow; change (j_file_state row) with (jw_state jw);
      apply negb_true_iff in Hperm; exact Hperm.
  - (* the scheduler starts an execution *)
    injection Hstep as <-.
    destruct ph; try discriminate.
    all: destruct Hc as (Ha & Htra & Hok & Hnd).
    all: apply negb_true_iff in Hperm.
    all: unfold conserved;
      cbn [with_executors sys_world sys_phase sys_writers sys_executors];
      (split; [|reflexivity]); (split; [lia|]).
    all: rewrite in_flight_app; unfold in_flight at 2;
      cbn [map list_sum pending new_executor ex_pc fold_right Nat.add].
    all: split; [lia|]. all: split; [exact Htra|].
    all: split;
      [apply Forall_app; split; [exact Hok|];
       constructor; [reflexivity|constructor]|].
    all: rewrite map_app; cbn [map]; apply NoDup_app;
      split; [exact Hnd|split; [|apply NoDup_singleton]].
    all: intros key Hin Hin'; apply list_elem_of_singleton in Hin'; subst key;
      apply list_elem_of_In in Hin;
      exact (not_same_key reqNum tapeId xs Hperm Hin).
  - (* an executor executes its next statement *)
    destruct (xs !! k) as [x|] eqn:Hk; [|discriminate].
    destruct ph.
    3, 4: destruct Hc as (_ & Hx & _); rewrite Hx in Hk; discriminate.
    all: destruct Hc as (Ha & Htra & Hok & Hnd).
    all: destruct (advance e x w mtx) as [[[w' ox] mtx']|] eqn:Hadv; [|discriminate].
    all: destruct (advance_conserves c e x w mtx w' ox mtx' xs k Hadv Hk Hnd Hok Htra)
           as (Ha' & Htra' & Hok' & Hnd' & Hd' & _ & Hr').
    all: cbn zeta in *.
    all: destruct ox as [x'|]; injection Hstep as <-; unfold conserved;
      cbn [with_world with_executors sys_world sys_phase sys_writers sys_executors];
      rewrite Hd', Hr'; (split; [|reflexivity]); (split; [lia|]);
      (split; [lia|]); repeat split; assumption.
  - (* cleanupEvents *)
    destruct ph; try discriminate.
    destruct (w_queue w) eqn:Hq; [|discriminate].
    destruct ws; [|discriminate]. injection Hstep as <-.
    destruct xs; [|discriminate].
    destruct Hc as (Ha & Htra & _ & _).
    destruct (cleanupEvents_fails_what_is_left_aux g w) as [Hlog Hcalm].
    destruct Hcalm as (_ & _ & _ & _ & Hr' & _ & _ & Hq' & Hd').
    unfold conserved.
    cbn [with_world with_phase sys_world sys_phase sys_writers sys_executors].
    rewrite Hd', Hr', Hq', Hlog, Hq.
    split; [|reflexivity]. split; [lia|].
    split; [|repeat split; reflexivity].
    rewrite count_app, count_rev.
    assert (List.filter is_trarecall (w_jobs w) = w_jobs w) as ->
      by (apply (remaining_all _ Htra)).
    unfold failure_of. rewrite count_failures.
    unfold account, unwritten, in_flight in Ha.
    rewrite Hq, !count_nil in Ha. cbn [map list_sum fold_right] in Ha. lia.
  - (* run returns *)
    destruct ph; try discriminate. injection Hstep as <-.
    destruct Hc as (Ha & Hx & Hw & Hq).
    unfold conserved.
    cbn [with_world with_phase sys_world sys_phase sys_writers sys_executors
         w_log w_queue w_dropped w_recinfo emit].
    rewrite count_cons. cbn [responds_to].
    split; [|reflexivity]. split; [lia|]. split; [lia|]. repeat split; assumption.
  - (* the files change *)
    injection Hstep as <-. unfold conserved.
    cbn [with_world sys_world sys_phase sys_writers sys_executors
         w_log w_jobs w_queue w_dropped w_recinfo set_fs].
    split; [|reflexivity]. split; [lia|].
    destruct ph; (split; [|exact (proj2 Hc)]); destruct Hc as [Ha _];
      unfold account in *; cbn [w_log w_jobs w_queue w_dropped set_fs]; lia.
Qed.

(** A step that leaves an event unanswered is a job writer at the guard
    of [addJob] or one the store refuses: the step ends the writer,
    sends no response and writes no job row. *)
Lemma unanswered_step_is_silent c e m s s' :
  leaves_unanswered c e m s = true ->
  thread_step e m s = Some s' ->
  w_jobs (sys_world s') = w_jobs (sys_world s)
  /\ List.filter is_respond (w_log (sys_world s'))
     = List.filter is_respond (w_log (sys_world s))
  /\ (length (sys_writers s') <= length (sys_writers s))%nat
  /\ match m with
     | Take i _ =>
         exists tk,
           w_queue (sys_world s) !! i = Some tk
           /\ conn_info (tk_recinfo tk) = c
           /\ w_queue (sys_world s') = delete i (w_queue (sys_world s))
           /\ w_log (sys_world s') = Msg LTFSDMS0032E :: w_log (sys_world s)
           /\ sys_writers s' = sys_writers s
     | Store k =>
         exists jw,
           sys_writers s !! k = Some jw
           /\ conn_info (jw_recinfo jw) = c
           /\ sys_writers s' = delete k (sys_writers s)
           /\ w_log (sys_world s') = w_log (sys_world s)
     | _ => False
     end.
Proof.
  intros Hleft Hstep.
  destruct m as [ev terminate| |i g|k|g reqNum tapeId|k|g| |fs];
    cbn [leaves_unanswered thread_step] in *; try discriminate.
  - destruct (w_queue (sys_world s) !! i) as [tk|] eqn:Hi; [|discriminate].
    apply andb_true_iff in Hleft. destruct Hleft as [Hc Hg].
    apply Z.eqb_eq in Hc.
    unfold at_guard in Hg. unfold addJob_try in Hstep.
    cbn [w_fs set_queue] in *.
    destruct (w_fs (sys_world s) (fuid (tk_recinfo tk))) as [fso|x]; [|discriminate].
    destruct (FsObj.stat fso) as [sb|x]; [|discriminate].
    rewrite Hg in Hstep. injection Hstep as <-.
    cbn [with_world sys_world sys_writers w_jobs w_log w_queue drop emit set_queue
         List.filter is_respond].
    repeat split; try reflexivity; try lia.
    exists tk. repeat split; try reflexivity; assumption.
  - destruct (sys_writers s !! k) as [jw|] eqn:Hk; [|discriminate].
    apply andb_true_iff in Hleft. destruct Hleft as [Hleft Hr].
    apply andb_true_iff in Hleft. destruct Hleft as [Hc Hins].
    apply Z.eqb_eq in Hc. apply negb_true_iff in Hins.
    rewrite Hins in Hstep. unfold ADD_JOB in Hstep. unfold refused in Hr.
    rewrite Hr in Hstep. injection Hstep as <-.
    cbn [with_world with_writers sys_world sys_writers w_jobs w_log drop].
    assert (length (delete k (sys_writers s)) <= length (sys_writers s))%nat
      by (rewrite length_delete by (rewrite Hk; eauto); lia).
    repeat split; try reflexivity; try assumption.
    exists jw. repeat split; try reflexivity; assumption.
Qed.

Lemma turns_cons c prev e m sched :
  turns c prev ((e, m) :: sched)
  = (turns c prev [(e, m)]
     + turns c (match m with Turn (Ok r) _ => r | _ => prev end) sched)%nat.
Proof. destruct m as [[r|x] terminate| | | | | | | |]; cbn [turns]; lia. Qed.

Lemma conserved_run c sched :
  forall s s' handled unanswered,
    conserved c handled unanswered s ->
    run_threads sched s = Some s' ->
    orderly c sched s = true ->
    conserved c (handled + turns c (w_recinfo (sys_world s)) sched)
      (unanswered + left_unanswered c sched s) s'.
Proof.
  induction sched as [|[e m] sched IH]; intros s s' handled unanswered Hc Hrun Hord;
    cbn [run_threads orderly left_unanswered] in *.
  - injection Hrun as <-. cbn [turns]. rewrite !Nat.add_0_r. exact Hc.
  - destruct (thread_step e m s) as [s1|] eqn:Hstep; [|discriminate].
    apply andb_true_iff in Hord. destruct Hord as [Hperm Hord].
    destruct (conserved_step c e m s s1 handled unanswered Hc Hstep Hperm)
      as [Hc1 Hr].
    specialize (IH s1 s' _ _ Hc1 Hrun Hord).
    rewrite Hr in IH. rewrite turns_cons, !Nat.add_assoc. exact IH.
Qed.

Lemma turns_other c sched :
  Forall (other_move c) sched -> forall prev, turns c prev sched = 0%nat.
Proof.
  induction 1 as [|[e m] sched Hx _ IH]; intros prev; [reflexivity|].
  destruct m as [[r|x] terminate| | | | | | | |]; cbn [turns];
    unfold other_move in Hx; cbn [snd] in Hx; try apply IH; [|contradiction].
  rewrite IH. unfold hits, indicator.
  apply Z.eqb_neq in Hx. rewrite Hx, andb_false_r. reflexivity.
Qed.

Lemma turns_once c s1 e1 ev terminate s2 :
  conn_info ev = c ->
  c <> 0 ->
  inum (fuid ev) <> 0 ->
  Forall (other_move c) s1 ->
  Forall (other_move c) s2 ->
  forall prev,
    turns c prev (s1 ++ (e1, Turn (Ok ev) terminate) :: s2) = 1%nat.
Proof.
  intros Hc Hnz Hinum H1 H2.
  induction H1 as [|[e m] s1 Hx _ IH]; intros prev; cbn [app turns].
  - rewrite (turns_other c s2 H2). unfold hits, taken, indicator.
    rewrite Hc. apply Z.eqb_neq in Hnz, Hinum.
    rewrite Hnz, Hinum, Z.eqb_refl, orb_true_r. reflexivity.
  - destruct m as [[r|x] terminate'| | | | | | | |]; cbn [turns];
      unfold other_move in Hx; cbn [snd] in Hx; try apply IH; [|contradiction].
    rewrite IH. unfold hits, indicator.
    apply Z.eqb_neq in Hx. rewrite Hx, andb_false_r. reflexivity.
Qed.

Lemma conserved_boot c fs inv recinfo0 : conserved c 0 0 (boot fs inv recinfo0).
Proof.
  unfold conserved, boot, start, account, unwritten, in_flight. cbn.
  repeat split; constructor.
Qed.

(** C1 (as amended).  Take a run of the process from its start, the
    steps of the receiver, of the job writers and of the executions
    of requests coming in any order, statement by statement.  In it
    [getEvents] never throws, the process does not stop in the inventory
    block, the connector delivers the accepted event [ev] (a connection
    handle, an inode number other than zero, a file name without a quote
    character and uid components below 2^63, which the job row keeps as
    they are) once, no other event sharing its handle, and [run] returns.
    The threads keep to [orderly]: at
    most one execution of a request number and tape is in flight, none is
    in flight when [cleanupEvents] runs and none starts after it, and the
    job row of the event is not written with a RECALLING state.  Then the
    event has exactly one response, unless a job writer left it at the
    guard for files that are not regular or the store refused its job
    row; in these two cases it has none. *)
Theorem accepted_event_answered_once_unless_left
    fs inv recinfo0 s1 e1 ev terminate s2 s :
  conn_info ev <> 0 ->
  inum (fuid ev) <> 0 ->
  quote_free (filename ev) = true ->
  in_integer_range (fuid ev) ->
  Forall (other_move (conn_info ev)) s1 ->
  Forall (other_move (conn_info ev)) s2 ->
  run_threads (s1 ++ (e1, Turn (Ok ev) terminate) :: s2) (boot fs inv recinfo0)
  = Some s ->
  orderly (conn_info ev) (s1 ++ (e1, Turn (Ok ev) terminate) :: s2)
    (boot fs inv recinfo0) = true ->
  sys_phase s = Ended ->
  (responses (conn_info ev) (w_log (sys_world s))
   + left_unanswered (conn_info ev) (s1 ++ (e1, Turn (Ok ev) terminate) :: s2)
       (boot fs inv recinfo0) = 1)%nat.
Proof.
  intros Hconn Hinum _ _ H1 H2 Hrun Hord Hend.
  pose proof (conserved_run (conn_info ev) _ _ _ 0%nat 0%nat
                (conserved_boot (conn_info ev) fs inv recinfo0) Hrun Hord) as Hc.
  rewrite (turns_once (conn_info ev) s1 e1 ev terminate s2 eq_refl Hconn Hinum H1 H2)
    in Hc.
  destruct Hc as [Hd Hc]. rewrite Hend in Hc. destruct Hc as [Ha _].
  rewrite responses_count. cbn [Nat.add] in *. lia.
Qed.

Lemma accepted_event_answered_once_unless_left_witness :
  (responses (conn_info ri43) (w_log (sys_world (after_threads sched_two boot_two)))
   + left_unanswered (conn_info ri43) sched_two boot_two = 1)%nat.
Proof.
  apply (accepted_event_answered_once_unless_left
           (files [(fu42, regular_file MIGRATED 8 ["T00001"%string]);
                   (fu43, regular_file MIGRATED 8 ["T00001"%string])])
           inventory0 ri42 [(env_two, Turn (Ok ri42) false)] env_two ri43 false
           sched_two_tail (after_threads sched_two boot_two)).
  - discriminate.
  - discriminate.
  - reflexivity.
  - vm_compute. intuition discriminate.
  - repeat constructor. discriminate.
  - repeat constructor.
  - vm_compute. reflexivity.
  - vm_compute. reflexivity.
  - vm_compute. reflexivity.
Defined.

(** Scenario 2 with the threads interleaving: each event is answered
    once, by [processFiles], in the order of the start blocks. *)
Example interleaved_run :
  List.filter is_respond (w_log (sys_world (after_threads sched_two boot_two)))
  = [Respond ri42 true; Respond ri43 true]
  /\ snd (seen (after_threads sched_two boot_two)) = []
  /\ left_unanswered (conn_info ri43) sched_two boot_two = 0%nat.
Proof. vm_compute. repeat split. Qed.

(** The event for a directory: its job writer returns at the guard, and
    nothing answers the event. *)
Example directory_run :
  seen (after_threads sched_directory boot_directory)
  = ([Msg LTFSDMS0032E; Msg LTFSDMS0083I; Msg LTFSDMS0084I], Ended, [])
  /\ orderly (conn_info ri42) sched_directory boot_directory = true
  /\ left_unanswered (conn_info ri42) sched_directory boot_directory = 1%nat.
Proof. vm_compute. repeat split. Qed.

Lemma accepted_event_left_without_response : ~ every_accepted_event_has_one_response.
Proof.
  intros H.
  specialize (H (files [(fu42, directory)]) inventory0 ri43 [] env_two ri42 false
                sched_directory_tail (after_threads sched_directory boot_directory)).
  assert (conn_info ri42 <> 0) as H1 by discriminate.
  assert (inum (fuid ri42) <> 0) as H2 by discriminate.
  assert (in_integer_range (fuid ri42)) as Hr by (vm_compute; intuition discriminate).
  specialize (H H1 H2 eq_refl Hr (List.Forall_nil _)).
  assert (Forall (other_move (conn_info ri42)) sched_directory_tail) as H3
    by (repeat constructor).
  specialize (H H3).
  assert (run_threads ([] ++ (env_two, Turn (Ok ri42) false) :: sched_directory_tail)
            (boot (files [(fu42, directory)]) inventory0 ri43)
          = Some (after_threads sched_directory boot_directory)) as H4
    by (vm_compute; reflexivity).
  specialize (H H4).
  assert (orderly (conn_info ri42)
            ([] ++ (env_two, Turn (Ok ri42) false) :: sched_directory_tail)
            (boot (files [(fu42, directory)]) inventory0 ri43) = true) as H5
    by (vm_compute; reflexivity).
  specialize (H H5).
  assert (sys_phase (after_threads sched_directory boot_directory) = Ended) as H6
    by (vm_compute; reflexivity).
  specialize (H H6).
  vm_compute in H. discriminate.
Qed.

(** What [orderly] keeps out.  When [cleanupEvents] runs while an
    execution is in its loop, the event is answered twice: with a failure
    by [cleanupEvents] and with a success by [processFiles]. *)
Example cleanup_during_execution_run :
  List.filter is_respond
    (rev (w_log (sys_world (after_threads sched_cleanup_early boot_one))))
  = [Respond ri42 false; Respond ri42 true]
  /\ orderly (conn_info ri42) sched_cleanup_early boot_one = false.
Proof. vm_compute. split; reflexivity. Qed.

(** When [run] returns between DELETE_JOBS and the responses of an
    execution, the job row is gone and the event has no response yet. *)
Example return_before_responses_run :
  let s := after_threads sched_return_early boot_one in
  seen s
  = ([Notify; Lock fu42; TapeOpen "T00001/42" true; PrepareRecall fu42;
      Poll 4 false; TapeRead "T00001/42" 8; FileWrite fu42 0 (chunk 8) 8;
      TapeClose "T00001/42"; FinishRecall fu42 PREMIGRATED; Unlock fu42;
      Msg LTFSDMS0083I; Msg LTFSDMS0084I], Ended, [])
  /\ map ex_pc (sys_executors s) = [AtRespond]
  /\ left_unanswered (conn_info ri42) sched_return_early boot_one = 0%nat
  /\ orderly (conn_info ri42) sched_return_early boot_one = false.
Proof. vm_compute. repeat split. Qed.

(** When a job row is written with a RECALLING state while an execution
    of its request is between SELECT_JOBS and DELETE_JOBS, the row is
    deleted with the others and the event is never answered. *)
Example row_written_recalling_run :
  let s := after_threads sched_row_recalling boot_stat_fails in
  List.filter is_respond (w_log (sys_world s)) = [Respond ri42 true]
  /\ snd (seen s) = []
  /\ snd (fst (seen s)) = Ended
  /\ sys_executors s = []
  /\ left_unanswered (conn_info ri43) sched_row_recalling boot_stat_fails = 0%nat
  /\ orderly (conn_info ri43) sched_row_recalling boot_stat_fails = false.
Proof. vm_compute. repeat split. Qed.
